(** * Flash orchestration of particle-cli: a shallow embedding

    The development follows [src/lib/flash-helper.js] (module filter, flash
    step planner, mode-switch executor, progress handler) and
    [src/cmd/flash.js] (module validator, base-firmware resolution, the
    [flashOverUsb] entry point).

    JavaScript numbers are integers of [Z] (every number handled here is a
    byte count, an index, a version or a 32-bit address, far below 2^53),
    strings are [string], buffers are lists of bytes, arrays are lists, a
    value that may be [undefined] or [null] is an [option], and a function
    that may throw returns a [result]. *)

From Stdlib Require Import ZArith List String Ascii Bool Lia Permutation.
From Stdlib Require Import Init.Byte.
From Stdlib Require HexString.
Import ListNotations.

Local Open Scope string_scope.
Local Open Scope list_scope.
Local Open Scope Z_scope.

(** ** Exceptions *)

Inductive JSError : Type :=
| Error (message : string)      (* [throw new Error(message)] in the code *)
| TypeError (what : string)     (* a member read on, or a call of, [undefined] *)
| Rejected (who : string).      (* a rejection raised by a collaborator *)

Inductive result (A : Type) : Type :=
| Ok (a : A)
| Throw (e : JSError).

Arguments Ok {A} a.
Arguments Throw {A} e.

Definition rbind {A B : Type} (r : result A) (k : A -> result B) : result B :=
  match r with
  | Ok a => k a
  | Throw e => Throw e
  end.

Notation "x <-? r ;; k" := (rbind r (fun x => k))
  (at level 61, r at next level, right associativity).

(** ** Numbers and strings of the host language *)

Inductive JSNum : Type :=
| NaN
| Num (z : Z).

Definition isStrWhiteSpace (c : ascii) : bool :=
  let n := Z.of_nat (nat_of_ascii c) in
  ((9 <=? n) && (n <=? 13)) || (n =? 32).

Fixpoint trimStart (s : string) : string :=
  match s with
  | String c rest => if isStrWhiteSpace c then trimStart rest else s
  | EmptyString => s
  end.

Definition hexDigit (c : ascii) : option Z :=
  let n := Z.of_nat (nat_of_ascii c) in
  if (48 <=? n) && (n <=? 57) then Some (n - 48)
  else if (97 <=? n) && (n <=? 102) then Some (n - 87)
  else if (65 <=? n) && (n <=? 70) then Some (n - 55)
  else None.

(** The longest prefix of hexadecimal digits, read as a number; [acc] is
    [None] until a first digit has been seen. *)
Fixpoint hexPrefix (s : string) (acc : option Z) : option Z :=
  match s with
  | String c rest =>
      match hexDigit c with
      | Some d =>
          hexPrefix rest
            (Some (16 * match acc with Some a => a | None => 0 end + d))
      | None => acc
      end
  | EmptyString => acc
  end.

(** [parseInt(s, 16)]: leading white space is skipped, then an optional sign,
    then an optional [0x] or [0X], then the longest run of hexadecimal digits;
    [NaN] when that run is empty. *)
Definition parseInt16 (s : string) : JSNum :=
  let s1 := trimStart s in
  let '(negative, s2) :=
    match s1 with
    | String "-" rest => (true, rest)
    | String "+" rest => (false, rest)
    | _ => (false, s1)
    end in
  let s3 :=
    match s2 with
    | String "0" (String "x" rest) => rest
    | String "0" (String "X" rest) => rest
    | _ => s2
    end in
  match hexPrefix s3 None with
  | Some v => Num (if negative then - v else v)
  | None => NaN
  end.

(** [s.replace('0x', '')]: the first occurrence only. *)
Fixpoint replace_0x (s : string) : string :=
  match s with
  | EmptyString => EmptyString
  | String c rest =>
      match c, rest with
      | "0"%char, String "x" rest' => rest'
      | _, _ => String c (replace_0x rest)
      end
  end.

Definition Buffer : Type := list byte.

(** [Buffer.alloc(size, fill)] *)
Definition Buffer_alloc (size : N) (fill : byte) : Buffer :=
  repeat fill (N.to_nat size).

(** [buf.slice(start)]: a negative [start] counts from the end. *)
Definition Buffer_slice (buf : Buffer) (start : Z) : Buffer :=
  if start <? 0
  then skipn (Z.to_nat (Z.max 0 (Z.of_nat (List.length buf) + start))) buf
  else skipn (Z.to_nat start) buf.

Definition Buffer_length (buf : Buffer) : Z := Z.of_nat (List.length buf).

(** ** Module descriptors (the output of the module-binary parser) *)

Inductive FunctionType : Type :=
| NONE | RESOURCE | BOOTLOADER | MONO_FIRMWARE | SYSTEM_PART
| USER_PART | SETTINGS | NCP_FIRMWARE | RADIO_STACK | ASSET.

Definition FunctionType_code (f : FunctionType) : Z :=
  match f with
  | NONE => 0 | RESOURCE => 1 | BOOTLOADER => 2 | MONO_FIRMWARE => 3
  | SYSTEM_PART => 4 | USER_PART => 5 | SETTINGS => 6 | NCP_FIRMWARE => 7
  | RADIO_STACK => 8 | ASSET => 9
  end.

Definition FunctionType_eqb (f g : FunctionType) : bool :=
  FunctionType_code f =? FunctionType_code g.

Record Crc : Type := {
  ok : bool;
  storedCrc : string;
  actualCrc : string
}.

Record PrefixInfo : Type := {
  moduleStartAddy : string;
  moduleEndAddy : string;
  moduleFlags : Z;
  moduleVersion : Z;
  platformID : Z;
  moduleFunction : FunctionType;
  moduleIndex : Z;
  depModuleFunction : FunctionType;
  depModuleIndex : Z;
  depModuleVersion : Z;
  prefixSize : Z
}.

Record SuffixInfo : Type := {
  productId : Z;
  productVersion : Z;
  fwUniqueId : string;
  suffixSize : Z;
  crcBlock : string
}.

(** What [parseModulesToFlash] yields for one file. *)
Record ParsedModule : Type := {
  filename : string;
  fileBuffer : Buffer;
  crc : Crc;
  prefixInfo : PrefixInfo;
  suffixInfo : SuffixInfo
}.

(** ** Platform profiles (entries of the [PLATFORMS] table) *)

Record FirmwareModule : Type := {
  fm_type : string;
  fm_index : Z;
  storage : string;
  encrypted : bool
}.

Record DfuSegment : Type := {
  seg_address : string;
  seg_size : N
}.

Record Platform : Type := {
  platform_id : Z;
  platform_name : string;
  firmwareModules : list FirmwareModule;
  formerUserPart : option DfuSegment   (* [dfu.segments.formerUserPart] *)
}.

(** ** Flash steps *)

Inductive FlashMode : Type := normal | dfu.

Record StepModuleInfo : Type := {
  smi_crc : Crc;
  smi_prefixInfo : PrefixInfo;
  smi_suffixInfo : SuffixInfo
}.

Record FlashStep : Type := {
  name : string;
  moduleInfo : option StepModuleInfo;   (* absent on the synthetic step *)
  data : Buffer;
  flashMode : FlashMode;
  address : option JSNum                (* set on [dfu] steps only *)
}.

(** * Collaborators of the planner

    The planner and the filter consult code that lives outside the files
    embedded here; it is taken as given. *)

Record PlannerEnv : Type := {
  (** the table of platform profiles of [lib/platform] *)
  PLATFORMS : list Platform;
  (** [moduleTypeToString] of [lib/dependency-walker]: the name of a module
      function as the platform table spells it; it may throw *)
  moduleTypeToString : FunctionType -> result string;
  (** [sortBinariesByDependency] of [lib/dependency-walker] *)
  sortBinariesByDependency : list ParsedModule -> list ParsedModule;
  (** [path.basename] *)
  basename : string -> string;
  (** [ModuleInfo.Flags.DROP_MODULE_INFO] of the module-binary parser *)
  DROP_MODULE_INFO : Z
}.

(** * The module filter, the validator and the planner *)

Section Planning.

Variable env : PlannerEnv.

Definition findPlatform (platformId : Z) : option Platform :=
  find (fun p => platform_id p =? platformId) (PLATFORMS env).

(** ** Module filter: [filterModulesToFlash] *)

Definition findPlatformModule (platform : Platform) (moduleType : string)
    (index : Z) : option FirmwareModule :=
  find (fun m => (fm_type m =? moduleType)%string && (fm_index m =? index))
       (firmwareModules platform).

(** The test of the [if] in the loop body, for one module. *)
Definition keepModule (platform : Platform) (allowAll : bool)
    (moduleType : string) (moduleInfo : ParsedModule) : bool :=
  let platformModule :=
    findPlatformModule platform moduleType
      (moduleIndex (prefixInfo moduleInfo)) in
  let isEncrypted :=
    match platformModule with
    | Some m => encrypted m
    | None => false
    end in
  let isRadioStack :=
    FunctionType_eqb (moduleFunction (prefixInfo moduleInfo)) RADIO_STACK in
  let isNcpFirmware :=
    FunctionType_eqb (moduleFunction (prefixInfo moduleInfo)) NCP_FIRMWARE in
  negb isEncrypted && (negb isRadioStack || allowAll)
    && (negb isNcpFirmware || allowAll).

(** The [for ... of] loop; [filteredModules] is the array being pushed to. *)
Fixpoint filterLoop (platform : option Platform) (allowAll : bool)
    (modules filteredModules : list ParsedModule)
    : result (list ParsedModule) :=
  match modules with
  | [] => Ok filteredModules
  | moduleInfo :: rest =>
      moduleType <-?
        moduleTypeToString env (moduleFunction (prefixInfo moduleInfo)) ;;
      match platform with
      | None => Throw (TypeError "platform.firmwareModules")
      | Some p =>
          filterLoop platform allowAll rest
            (if keepModule p allowAll moduleType moduleInfo
             then filteredModules ++ [moduleInfo]
             else filteredModules)
      end
  end.

Definition filterModulesToFlash (modules : list ParsedModule)
    (platformId : Z) (allowAll : bool) : result (list ParsedModule) :=
  filterLoop (findPlatform platformId) allowAll modules [].

(** ** Flash step planner: [createFlashSteps] *)

Definition DEVICE_OS_MIN_VERSION_TO_FORMAT_128K_USER : Z := 3103.

(** The payload of a module's step. *)
Definition stepData (module : ParsedModule) : Buffer :=
  if moduleFlags (prefixInfo module) =? DROP_MODULE_INFO env
  then Buffer_slice (fileBuffer module) (prefixSize (prefixInfo module))
  else fileBuffer module.

(** The object [flashStep] once its mode (and address) have been set. *)
Definition moduleStep (module : ParsedModule) (mode : FlashMode)
    (addr : option JSNum) : FlashStep :=
  {| name := basename env (filename module);
     moduleInfo := Some {| smi_crc := crc module;
                           smi_prefixInfo := prefixInfo module;
                           smi_suffixInfo := suffixInfo module |};
     data := stepData module;
     flashMode := mode;
     address := addr |}.

Definition formerUserPartflashStep (formerUserPart : DfuSegment)
    : FlashStep :=
  {| name := "invalidate-128k-user-part";
     moduleInfo := None;
     address := Some (parseInt16 (replace_0x (seg_address formerUserPart)));
     data := Buffer_alloc (seg_size formerUserPart) xff;
     flashMode := dfu |}.

Record Buckets : Type := {
  assetModules : list FlashStep;
  normalModules : list FlashStep;
  dfuModules : list FlashStep
}.

Definition emptyBuckets : Buckets :=
  {| assetModules := []; normalModules := []; dfuModules := [] |}.

(** The body of the [forEach] callback: one module is pushed to one of the
    three arrays. *)
Definition planModule (platform : option Platform) (b : Buckets)
    (module : ParsedModule) : result Buckets :=
  moduleType <-? moduleTypeToString env (moduleFunction (prefixInfo module)) ;;
  match platform with
  | None => Throw (TypeError "platform.firmwareModules")
  | Some p =>
      let storage_ :=
        find (fun firmwareModule =>
                (fm_type firmwareModule =? moduleType)%string)
             (firmwareModules p) in
      if (moduleType =? "assets")%string then
        Ok {| assetModules := assetModules b ++ [moduleStep module normal None];
              normalModules := normalModules b;
              dfuModules := dfuModules b |}
      else if (moduleType =? "bootloader")%string then
        Ok {| assetModules := assetModules b;
              normalModules :=
                normalModules b ++ [moduleStep module normal None];
              dfuModules := dfuModules b |}
      else
        match storage_ with
        | None => Throw (TypeError "storage.storage")
        | Some st =>
            if (storage st =? "externalMcu")%string then
              Ok {| assetModules := assetModules b;
                    normalModules :=
                      normalModules b ++ [moduleStep module normal None];
                    dfuModules := dfuModules b |}
            else
              let dfuModules1 :=
                if (moduleType =? "userPart")%string then
                  match formerUserPart p with
                  | Some seg =>
                      if depModuleVersion (prefixInfo module)
                           >=? DEVICE_OS_MIN_VERSION_TO_FORMAT_128K_USER
                      then dfuModules b ++ [formerUserPartflashStep seg]
                      else dfuModules b
                  | None => dfuModules b
                  end
                else dfuModules b in
              Ok {| assetModules := assetModules b;
                    normalModules := normalModules b;
                    dfuModules :=
                      dfuModules1 ++
                      [moduleStep module dfu
                         (Some (parseInt16
                                  (moduleStartAddy (prefixInfo module))))] |}
        end
  end.

(** [sortedModules.forEach(...)] *)
Fixpoint planLoop (platform : option Platform)
    (sortedModules : list ParsedModule) (b : Buckets) : result Buckets :=
  match sortedModules with
  | [] => Ok b
  | module :: rest =>
      b' <-? planModule platform b module ;;
      planLoop platform rest b'
  end.

Definition createFlashSteps (modules : list ParsedModule)
    (isInDfuMode : bool) (platformId : Z) : result (list FlashStep) :=
  let platform := findPlatform platformId in
  let sortedModules := sortBinariesByDependency env modules in
  b <-? planLoop platform sortedModules emptyBuckets ;;
  if isInDfuMode
  then Ok (dfuModules b ++ normalModules b ++ assetModules b)
  else Ok (normalModules b ++ dfuModules b ++ assetModules b).

End Planning.

(** ** Module validator: [_validateModulesForPlatform] *)

Definition crcError (moduleInfo : ParsedModule) : JSError :=
  Error ("CRC check failed for module " ++ filename moduleInfo)%string.

Definition platformError (moduleInfo : ParsedModule) (platformName : string)
    : JSError :=
  Error ("Module " ++ filename moduleInfo
          ++ " is not compatible with platform " ++ platformName)%string.

Fixpoint _validateModulesForPlatform (modules : list ParsedModule)
    (platformId : Z) (platformName : string) : result unit :=
  match modules with
  | [] => Ok tt
  | moduleInfo :: rest =>
      if negb (ok (crc moduleInfo)) then
        Throw (crcError moduleInfo)
      else if negb (platformID (prefixInfo moduleInfo) =? platformId)
              && negb (FunctionType_eqb
                         (moduleFunction (prefixInfo moduleInfo)) ASSET) then
        Throw (platformError moduleInfo platformName)
      else _validateModulesForPlatform rest platformId platformName
  end.

(** * Base-firmware resolution ([_getDeviceOsBinaries]) *)

(** What the remote catalog answers to a version lookup. *)
Record VersionData : Type := {
  version : option string
}.

(** The collaborators of the resolution: the catalog lookup of the cloud API,
    the downloader of [lib/device-os-version-util], and [semver.lt] (which
    throws on a string that is not a version). *)
Record Catalog : Type := {
  getDeviceOsVersions : Z -> Z -> result VersionData;
  downloadDeviceOsVersionBinaries : Z -> string -> bool -> result (list string);
  semver_lt : string -> string -> result bool
}.

(** The requests sent to the catalog, in order. *)
Inductive ApiCall : Type :=
| LookupVersion (platformID internalVersion : Z)
| Download (platformId : Z) (version : string) (omitUserPart : bool).

Definition isDownload (c : ApiCall) : bool :=
  match c with
  | Download _ _ _ => true
  | LookupVersion _ _ => false
  end.

(** Truthiness of a string that may be [undefined] or [null]. *)
Definition truthy (s : option string) : bool :=
  match s with
  | Some str => negb (str =? "")%string
  | None => false
  end.

Section Resolution.

Variable api : Catalog.

(** [_pickApplicationBinary]: the first user part and the base-firmware
    version the catalog gives for it; the lookup error is caught. *)
Fixpoint _pickApplicationBinary (modules : list ParsedModule)
    : (option ParsedModule * option string) * list ApiCall :=
  match modules with
  | [] => ((None, None), [])
  | module :: rest =>
      if FunctionType_eqb (moduleFunction (prefixInfo module)) USER_PART then
        let internalVersion := depModuleVersion (prefixInfo module) in
        let applicationDeviceOsVersionData :=
          match getDeviceOsVersions api (platformID (prefixInfo module))
                  internalVersion with
          | Ok found => found
          | Throw _ => {| version := None |}
          end in
        ((Some module, version applicationDeviceOsVersionData),
         [LookupVersion (platformID (prefixInfo module)) internalVersion])
      else _pickApplicationBinary rest
  end.

Definition download (platformId : Z) (v : string) (omitUserPart : bool)
    (log : list ApiCall) : result (list string) * list ApiCall :=
  (downloadDeviceOsVersionBinaries api platformId v omitUserPart,
   log ++ [Download platformId v omitUserPart]).

Definition _getDeviceOsBinaries (skipDeviceOSFlash : bool)
    (target : option string) (modules : list ParsedModule)
    (currentDeviceOsVersion : option string) (platformId : Z)
    (applicationOnly : bool) : result (list string) * list ApiCall :=
  let '((application, applicationDeviceOsVersion), log) :=
    _pickApplicationBinary modules in
  let systemPartBinaries :=
    filter (fun m =>
              FunctionType_eqb (moduleFunction (prefixInfo m)) SYSTEM_PART
              || FunctionType_eqb (moduleFunction (prefixInfo m)) BOOTLOADER)
           modules in
  match systemPartBinaries with
  | _ :: _ => (Ok [], log)
  | [] =>
      match application with
      | None => (Ok [], log)
      | Some _ =>
          if applicationOnly then (Ok [], log)
          else if truthy target then
            match target with
            | Some t => download platformId t true log
            | None => (Ok [], log)
            end
          else if skipDeviceOSFlash then (Ok [], log)
          else if truthy applicationDeviceOsVersion
                  && truthy currentDeviceOsVersion then
            match applicationDeviceOsVersion, currentDeviceOsVersion with
            | Some appVersion, Some current =>
                match semver_lt api current appVersion with
                | Ok true => download platformId appVersion false log
                | Ok false => (Ok [], log)
                | Throw e => (Throw e, log)
                end
            | _, _ => (Ok [], log)
            end
          else (Ok [], log)
      end
  end.

End Resolution.

(** * The progress handler ([_createFlashProgress]) *)

Inductive Payload : Type :=
| FlashFile (filename : string)      (* event 'flash-file' *)
| SwitchMode (mode : string)         (* event 'switch-mode' *)
| Erased (bytes : Z)                 (* event 'erased' *)
| Downloaded (bytes : Z)             (* event 'downloaded' *)
| Finish.                            (* event 'finish' *)

(** The progress bar of the user interface; it is created, and touched, in
    interactive mode only. *)
Record ProgressBar : Type := {
  barActive : bool;
  barTotal : Z;
  barValue : Z;
  barDescription : string
}.

(** The variables the handler closes over, with the lines it has written to
    the standard output. *)
Record Progress : Type := {
  progressBar : ProgressBar;
  flashMultiplier : Z;
  eraseSize : Z;
  step : option FlashStep;
  description : option string;
  stdout : list string
}.

Definition NORMAL_MULTIPLIER : Z := 10.

Definition EOL : string := String (ascii_of_nat 10) EmptyString.

Definition multiplierOf (s : FlashStep) : Z :=
  match flashMode s with
  | normal => NORMAL_MULTIPLIER
  | dfu => 1
  end.

(** [flashSteps.reduce(...)]: twice the payload, weighted by the mode. *)
Definition progressTotal (flashSteps : list FlashStep) : Z :=
  fold_left
    (fun total s => total + Buffer_length (data s) * 2 * multiplierOf s)
    flashSteps 0.

Definition idleBar : ProgressBar :=
  {| barActive := false; barTotal := 0; barValue := 0;
     barDescription := "" |}.

(** The state of the closure when [_createFlashProgress] returns. *)
Definition _createFlashProgress (flashSteps : list FlashStep)
    (isInteractive : bool) : Progress :=
  {| progressBar :=
       if isInteractive
       then {| barActive := true; barTotal := progressTotal flashSteps;
               barValue := 0; barDescription := "Preparing to flash" |}
       else idleBar;
     flashMultiplier := 1;
     eraseSize := 0;
     step := None;
     description := None;
     stdout := [] |}.

Definition barUpdate (d : string) (b : ProgressBar) : ProgressBar :=
  {| barActive := barActive b; barTotal := barTotal b;
     barValue := barValue b; barDescription := d |}.

Definition barIncrement (n : Z) (b : ProgressBar) : ProgressBar :=
  {| barActive := barActive b; barTotal := barTotal b;
     barValue := barValue b + n; barDescription := barDescription b |}.

Definition barStop (b : ProgressBar) : ProgressBar :=
  {| barActive := false; barTotal := barTotal b;
     barValue := barValue b; barDescription := barDescription b |}.

(** The description is shown on the bar, or written out as a line. *)
Definition announce (isInteractive : bool) (d : string) (st : Progress)
    : Progress :=
  {| progressBar :=
       if isInteractive then barUpdate d (progressBar st) else progressBar st;
     flashMultiplier := flashMultiplier st;
     eraseSize := eraseSize st;
     step := step st;
     description := Some d;
     stdout :=
       if isInteractive then stdout st else stdout st ++ [(d ++ EOL)%string] |}.

Definition increment (n : Z) (newEraseSize : Z) (st : Progress) : Progress :=
  {| progressBar := barIncrement n (progressBar st);
     flashMultiplier := flashMultiplier st;
     eraseSize := newEraseSize;
     step := step st;
     description := description st;
     stdout := stdout st |}.

(** The function [_createFlashProgress] returns: one call on one payload.
    The state is returned also when the call throws. *)
Definition progressHandler (flashSteps : list FlashStep)
    (isInteractive : bool) (st : Progress) (payload : Payload)
    : result unit * Progress :=
  match payload with
  | FlashFile filename =>
      let st1 := announce isInteractive ("Flashing " ++ filename)%string st in
      match find (fun s => (name s =? filename)%string) flashSteps with
      | Some found =>
          (Ok tt,
           {| progressBar := progressBar st1;
              flashMultiplier := multiplierOf found;
              eraseSize := 0;
              step := Some found;
              description := description st1;
              stdout := stdout st1 |})
      | None =>
          (Throw (TypeError "step.flashMode"),
           {| progressBar := progressBar st1;
              flashMultiplier := flashMultiplier st1;
              eraseSize := eraseSize st1;
              step := None;
              description := description st1;
              stdout := stdout st1 |})
      end
  | SwitchMode mode =>
      (Ok tt,
       announce isInteractive
         ("Switching device to " ++ mode ++ " mode")%string st)
  | Erased bytes =>
      if isInteractive then
        match step st with
        | Some s =>
            if eraseSize st + bytes >? Buffer_length (data s) then
              (Ok tt,
               increment
                 ((Buffer_length (data s) - eraseSize st) * flashMultiplier st)
                 (Buffer_length (data s)) st)
            else
              (Ok tt,
               increment (bytes * flashMultiplier st) (eraseSize st + bytes) st)
        | None =>
            (Ok tt,
             increment (bytes * flashMultiplier st) (eraseSize st + bytes) st)
        end
      else (Ok tt, st)
  | Downloaded bytes =>
      if isInteractive
      then (Ok tt, increment (bytes * flashMultiplier st) (eraseSize st) st)
      else (Ok tt, st)
  | Finish =>
      if isInteractive then
        (Ok tt,
         {| progressBar := barStop (progressBar st);
            flashMultiplier := flashMultiplier st;
            eraseSize := eraseSize st;
            step := step st;
            description := description st;
            stdout := stdout st |})
      else (Ok tt, st)
  end.

(** The handler called on the erase reports of one write, in order. *)
Fixpoint reportErased (flashSteps : list FlashStep) (isInteractive : bool)
    (st : Progress) (reports : list Z) : Progress :=
  match reports with
  | [] => st
  | bytes :: rest =>
      reportErased flashSteps isInteractive
        (snd (progressHandler flashSteps isInteractive st (Erased bytes))) rest
  end.

(** What the bar has advanced by for the erasure of the file [filename],
    announced by a 'flash-file' event and followed by the erase [reports]. *)
Definition erasedProgress (flashSteps : list FlashStep) (isInteractive : bool)
    (st : Progress) (filename : string) (reports : list Z) : Z :=
  let st1 :=
    snd (progressHandler flashSteps isInteractive st (FlashFile filename)) in
  barValue (progressBar (reportErased flashSteps isInteractive st1 reports))
  - barValue (progressBar st1).

Definition sum (l : list Z) : Z := fold_right Z.add 0 l.

(** * The device and the mode-switch executor *)

(** A device object: its handle and what it reports about the hardware. *)
Record Device : Type := {
  handle : nat;
  deviceId : string;
  devicePlatformId : Z;
  firmwareVersion : option string
}.

(** The mutable part of a device object. *)
Record HandleState : Type := {
  isOpen : bool;
  inDfuMode : bool
}.

(** The calls the code makes on its device-side collaborators
    ([cmd/usb-util], the device objects, [lib/utilities]), in order. *)
Inductive Call : Type :=
| GetOneUsbDevice
| ReopenInNormalMode (h : nat) (reset : bool)
| ReopenInDfuMode (h : nat)
| EnterListeningMode (h : nat)
| UpdateFirmware (h : nat) (payload : Buffer) (timeout : Z)
| WriteOverDfu (h : nat) (payload : Buffer) (altSetting : Z)
    (startAddr : option JSNum)
| ResetDevice (h : nat)
| CloseDevice (h : nat)
| Delay (ms : Z).

(** How one collaborator call ends, with the progress reports it makes on the
    way (a write only). *)
Inductive Outcome : Type :=
| Resolves (reports : list Payload)
| Rejects (reports : list Payload).

(** The world outside the program: the calls made so far, the outcomes of
    the calls to come, the device objects, the closure of the progress
    handler and the lines written through [ui.write]. *)
Record World : Type := {
  calls : list Call;
  script : list Outcome;
  handles : list HandleState;
  progress : Progress;
  written : list string
}.

Definition M (A : Type) : Type := World -> result A * World.

Definition ret {A : Type} (a : A) : M A := fun w => (Ok a, w).

Definition throw {A : Type} (e : JSError) : M A := fun w => (Throw e, w).

Definition bind {A B : Type} (m : M A) (k : A -> M B) : M B :=
  fun w =>
    match m w with
    | (Ok a, w1) => k a w1
    | (Throw e, w1) => (Throw e, w1)
    end.

Notation "x <- m ;; k" := (bind m (fun x => k))
  (at level 61, m at next level, right associativity).
Notation "m ;;; k" := (bind m (fun _ => k))
  (at level 61, right associativity).

(** [try { m } catch (error) { h error }] *)
Definition tryCatch {A : Type} (m : M A) (h : JSError -> M A) : M A :=
  fun w =>
    match m w with
    | (Ok a, w1) => (Ok a, w1)
    | (Throw e, w1) => h e w1
    end.

Definition setCalls (w : World) (c : list Call) (s : list Outcome) : World :=
  {| calls := c; script := s; handles := handles w;
     progress := progress w; written := written w |}.

Definition setHandles (w : World) (hs : list HandleState) : World :=
  {| calls := calls w; script := script w; handles := hs;
     progress := progress w; written := written w |}.

Definition setProgress (w : World) (p : Progress) : World :=
  {| calls := calls w; script := script w; handles := handles w;
     progress := p; written := written w |}.

(** A call is recorded and its outcome read off the script; a call past the
    end of the script resolves. *)
Definition call (c : Call) : M Outcome :=
  fun w =>
    match script w with
    | o :: rest => (Ok o, setCalls w (calls w ++ [c]) rest)
    | [] => (Ok (Resolves []), setCalls w (calls w ++ [c]) [])
    end.

Definition settle (who : string) (o : Outcome) : M unit :=
  match o with
  | Resolves _ => ret tt
  | Rejects _ => throw (Rejected who)
  end.

Fixpoint setNth {A : Type} (n : nat) (a : A) (l : list A) : list A :=
  match n, l with
  | O, _ :: rest => a :: rest
  | S n', x :: rest => x :: setNth n' a rest
  | _, [] => []
  end.

Definition closedHandle : HandleState :=
  {| isOpen := false; inDfuMode := false |}.

Definition handleState (w : World) (h : nat) : HandleState :=
  nth h (handles w) closedHandle.

(** [device.isOpen] and [device.isInDfuMode] *)
Definition deviceIsOpen (device : Device) : M bool :=
  fun w => (Ok (isOpen (handleState w (handle device))), w).

Definition deviceIsInDfuMode (device : Device) : M bool :=
  fun w => (Ok (inDfuMode (handleState w (handle device))), w).

Definition markClosed (h : nat) : M unit :=
  fun w =>
    (Ok tt,
     setHandles w
       (setNth h {| isOpen := false;
                    inDfuMode := inDfuMode (handleState w h) |}
          (handles w))).

(** A new open device object for the same hardware. *)
Definition openHandle (device : Device) (dfuMode : bool) : M Device :=
  fun w =>
    (Ok {| handle := List.length (handles w);
           deviceId := deviceId device;
           devicePlatformId := devicePlatformId device;
           firmwareVersion := firmwareVersion device |},
     setHandles w (handles w ++ [{| isOpen := true; inDfuMode := dfuMode |}])).

(** [device.close()] *)
Definition close (device : Device) : M unit :=
  o <- call (CloseDevice (handle device)) ;;
  settle "device.close" o ;;;
  markClosed (handle device).

(** [device.reset()] *)
Definition reset (device : Device) : M unit :=
  o <- call (ResetDevice (handle device)) ;;
  settle "device.reset" o.

(** [device.enterListeningMode()] *)
Definition enterListeningMode (device : Device) : M unit :=
  o <- call (EnterListeningMode (handle device)) ;;
  settle "device.enterListeningMode" o.

(** [delay(ms)] *)
Definition delay (ms : Z) : M unit :=
  fun w => (Ok tt, setCalls w (calls w ++ [Delay ms]) (script w)).

(** Modelled from the spec: [usbUtils.reopenInNormalMode] and
    [usbUtils.reopenInDfuMode] of [cmd/usb-util], which the specification
    describes as asking the handle to reopen in the required mode.  The old
    device object is left closed; when the call resolves it yields a new open
    device object in that mode. *)
Definition reopenInNormalMode (device : Device) (withReset : bool) : M Device :=
  o <- call (ReopenInNormalMode (handle device) withReset) ;;
  markClosed (handle device) ;;;
  settle "usbUtils.reopenInNormalMode" o ;;;
  openHandle device false.

Definition reopenInDfuMode (device : Device) : M Device :=
  o <- call (ReopenInDfuMode (handle device)) ;;
  markClosed (handle device) ;;;
  settle "usbUtils.reopenInDfuMode" o ;;;
  openHandle device true.

Definition reportsOf (o : Outcome) : list Payload :=
  match o with
  | Resolves r => r
  | Rejects r => r
  end.

Section Executor.

(** The arguments of [_createFlashProgress], which the handler closes over. *)
Variable flashSteps : list FlashStep.
Variable isInteractive : bool.

(** One call of the handler [progress]. *)
Definition report (payload : Payload) : M unit :=
  fun w =>
    let '(r, p) :=
      progressHandler flashSteps isInteractive (progress w) payload in
    (r, setProgress w p).

Fixpoint reportAll (payloads : list Payload) : M unit :=
  match payloads with
  | [] => ret tt
  | payload :: rest => report payload ;;; reportAll rest
  end.

Definition FLASH_APPLY_DELAY : Z := 3000.
Definition FLASH_TIMEOUT : Z := 4 * 60000.

(** [device.updateFirmware(data, { progress, timeout })] *)
Definition updateFirmware (device : Device) (payload : Buffer) (timeout : Z)
    : M unit :=
  o <- call (UpdateFirmware (handle device) payload timeout) ;;
  reportAll (reportsOf o) ;;;
  settle "device.updateFirmware" o.

(** [device.writeOverDfu(data, { altSetting, startAddr, progress })] *)
Definition writeOverDfu (device : Device) (payload : Buffer) (altSetting : Z)
    (startAddr : option JSNum) : M unit :=
  o <- call (WriteOverDfu (handle device) payload altSetting startAddr) ;;
  reportAll (reportsOf o) ;;;
  settle "device.writeOverDfu" o.

Definition flashDeviceInNormalMode (device : Device) (payload : Buffer)
    (filename : string) : M Device :=
  isInDfuMode <- deviceIsInDfuMode device ;;
  device1 <-
    (if isInDfuMode
     then report (SwitchMode "normal") ;;; reopenInNormalMode device true
     else ret device) ;;
  tryCatch (enterListeningMode device1) (fun _ => ret tt) ;;;
  report (FlashFile filename) ;;;
  updateFirmware device1 payload FLASH_TIMEOUT ;;;
  delay FLASH_APPLY_DELAY ;;;
  reopenInNormalMode device1 false.

Definition flashDeviceInDfuMode (device : Device) (payload : Buffer)
    (filename : string) (altSetting : Z) (startAddr : option JSNum)
    : M Device :=
  isInDfuMode <- deviceIsInDfuMode device ;;
  device1 <-
    (if negb isInDfuMode
     then report (SwitchMode "DFU") ;;; reopenInDfuMode device
     else ret device) ;;
  report (FlashFile filename) ;;;
  writeOverDfu device1 payload altSetting startAddr ;;;
  ret device1.

(** The [for ... of] loop of [flashFiles]: the error that ended it, if any,
    and the device object the variable [device] then holds. *)
Fixpoint flashLoop (device : Device) (steps : list FlashStep)
    : World -> (option JSError * Device) * World :=
  fun w =>
    match steps with
    | [] => ((None, device), w)
    | s :: rest =>
        let run :=
          match flashMode s with
          | normal => flashDeviceInNormalMode device (data s) (name s)
          | dfu => flashDeviceInDfuMode device (data s) (name s) 0 (address s)
          end in
        match run w with
        | (Ok device', w1) => flashLoop device' rest w1
        | (Throw e, w1) => ((Some e, device), w1)
        end
    end.

(** The [finally] block of [flashFiles]. *)
Definition flashCleanup (device : Device) (resetAfterFlash : bool) : M unit :=
  report Finish ;;;
  open <- deviceIsOpen device ;;
  if open then
    (if resetAfterFlash
     then tryCatch (reset device) (fun _ => ret tt)
     else ret tt) ;;;
    close device
  else ret tt.

Definition flashFiles (device : Device) (resetAfterFlash : bool) : M unit :=
  fun w =>
    let w0 := setProgress w (_createFlashProgress flashSteps isInteractive) in
    let '((failure, device'), w1) := flashLoop device flashSteps w0 in
    match flashCleanup device' resetAfterFlash w1 with
    | (Throw e, w2) => (Throw e, w2)
    | (Ok _, w2) =>
        (match failure with Some e => Throw e | None => Ok tt end, w2)
    end.

End Executor.

(** * The USB entry point ([flashOverUsb]) *)

(** The collaborators of the entry point: [utilities.getFilenameExt],
    [platformForId(...).name], [knownAppsForPlatform], the module-binary
    parser, and the device [getOneUsbDevice] finds with the mode it is in.

    [validateDFUSupport] is what the call [validateDFUSupport({ device, ui })]
    does.  The command modules import the name from [lib/flash-helper], which
    does not export it: as the code stands the name is [undefined] and the
    call throws a TypeError (the host [sampleHost] below).  The field leaves
    room for a [lib/flash-helper] that defines the function. *)
Record Host : Type := {
  getFilenameExt : string -> string;
  platformForId : Z -> result string;
  validateDFUSupport : Device -> result unit;
  knownAppsForPlatform : string -> string -> option string;
  parseFile : string -> result ParsedModule;
  attached : Device;
  attachedInDfuMode : bool
}.

Definition lift {A : Type} (r : result A) : M A := fun w => (r, w).

Definition write (line : string) : M unit :=
  fun w =>
    (Ok tt,
     {| calls := calls w; script := script w; handles := handles w;
        progress := progress w; written := written w ++ [line] |}).

Section EntryPoint.

Variable env : PlannerEnv.
Variable host : Host.
Variable isInteractive : bool.

(** [usbUtils.getOneUsbDevice] *)
Definition getOneUsbDevice : M Device :=
  o <- call GetOneUsbDevice ;;
  settle "usbUtils.getOneUsbDevice" o ;;;
  openHandle (attached host) (attachedInDfuMode host).

(** [parseModulesToFlash] *)
Fixpoint parseModulesToFlash (files : list string)
    : result (list ParsedModule) :=
  match files with
  | [] => Ok []
  | file :: rest =>
      binary <-? parseFile host file ;;
      others <-? parseModulesToFlash rest ;;
      Ok (binary :: others)
  end.

(** The statements of the [try] block that follow the assignment of
    [device]. *)
Definition flashOverUsbWith (device : Device) (binary : string)
    (factory : bool) : M unit :=
  platformName <- lift (platformForId host (devicePlatformId device)) ;;
  lift (validateDFUSupport host device) ;;;
  let files :=
    match knownAppsForPlatform host platformName binary with
    | Some knownAppPath => [knownAppPath]
    | None => [binary]
    end in
  modulesToFlash <- lift (parseModulesToFlash files) ;;
  lift (_validateModulesForPlatform modulesToFlash
          (devicePlatformId device) platformName) ;;;
  isInDfuMode <- deviceIsInDfuMode device ;;
  flashSteps <-
    lift (createFlashSteps env modulesToFlash isInDfuMode
            (devicePlatformId device)) ;;
  write ("Flashing " ++ platformName ++ " device "
         ++ deviceId device)%string ;;;
  first <-
    lift (match modulesToFlash with
          | m :: _ => Ok m
          | [] => Throw (TypeError "modulesToFlash[0].prefixInfo")
          end) ;;
  let resetAfterFlash :=
    negb factory
    && FunctionType_eqb (moduleFunction (prefixInfo first)) USER_PART in
  flashFiles flashSteps isInteractive device resetAfterFlash.

Definition flashOverUsb (binary : string) (factory : bool) : M unit :=
  fun w =>
    if (getFilenameExt host binary =? ".zip")%string then
      (* the error is thrown inside [try]; [device] is still undefined *)
      (Ok tt, w)
    else
      match getOneUsbDevice w with
      | (Throw _, w1) => (Ok tt, w1)
      | (Ok device, w1) =>
          match flashOverUsbWith device binary factory w1 with
          | (Ok _, w2) => (Ok tt, w2)
          | (Throw _, w2) => close device w2
          end
      end.

(** The [try] block alone: what [flashOverUsb] would raise without its
    [catch]. *)
Definition flashOverUsbTry (binary : string) (factory : bool) : M unit :=
  if (getFilenameExt host binary =? ".zip")%string then
    throw (Error "Use 'particle flash --local' to flash a zipped bundle.")
  else
    device <- getOneUsbDevice ;;
    flashOverUsbWith device binary factory.

(** The [usb] branch of [flash], for a call that names a binary: the flash,
    then the closing message. *)
Definition flashViaUsb (binary : string) (factory : bool) : M unit :=
  flashOverUsb binary factory ;;;
  write "Flash success!".

End EntryPoint.

(** How many times [close] was called on a device object. *)
Definition closeCount (h : nat) (cs : list Call) : nat :=
  List.length
    (filter (fun c =>
               match c with
               | CloseDevice h' => Nat.eqb h' h
               | _ => false
               end) cs).

(** The calls that talk to the device once a handle has been obtained: mode
    switches, the pre-update state, writes and resets. *)
Definition isFlashIO (c : Call) : bool :=
  match c with
  | GetOneUsbDevice | CloseDevice _ | Delay _ => false
  | _ => true
  end.

Definition emptyWorld (outcomes : list Outcome) : World :=
  {| calls := []; script := outcomes; handles := [];
     progress := _createFlashProgress [] false; written := [] |}.

(** * The planner's buckets, as the specification words them *)

Section Routing.

Variable env : PlannerEnv.
Variable platform : Platform.

Definition typeOf (m : ParsedModule) : result string :=
  moduleTypeToString env (moduleFunction (prefixInfo m)).

Definition hasType (ty : string) (m : ParsedModule) : bool :=
  match typeOf m with
  | Ok t => (t =? ty)%string
  | Throw _ => false
  end.

(** The storage class the profile records for a module type. *)
Definition storageOf (ty : string) : option string :=
  option_map storage
    (find (fun fm => (fm_type fm =? ty)%string) (firmwareModules platform)).

Definition externalStorage (ty : string) : option bool :=
  option_map (fun st => (st =? "externalMcu")%string) (storageOf ty).

(** type = asset *)
Definition isAssetModule (m : ParsedModule) : bool := hasType "assets" m.

(** type = bootloader, or storage class external *)
Definition isNormalModule (m : ParsedModule) : bool :=
  match typeOf m with
  | Ok ty =>
      negb (ty =? "assets")%string
      && ((ty =? "bootloader")%string
          || match externalStorage ty with Some e => e | None => false end)
  | Throw _ => false
  end.

(** everything else that has a slot in the profile *)
Definition isBulkModule (m : ParsedModule) : bool :=
  match typeOf m with
  | Ok ty =>
      negb (ty =? "assets")%string && negb (ty =? "bootloader")%string
      && match externalStorage ty with Some e => negb e | None => false end
  | Throw _ => false
  end.

(** The planner can place the module: its type has a name and, unless it is
    an asset or a boot loader, the profile has a slot of that type. *)
Definition routable (m : ParsedModule) : bool :=
  isAssetModule m || isNormalModule m || isBulkModule m.

(** The module is a user part whose required base firmware is recent enough
    for a declared legacy region to need wiping. *)
Definition guardsLegacyRegion (m : ParsedModule) : bool :=
  hasType "userPart" m
  && match formerUserPart platform with
     | Some _ => 3103 <=? depModuleVersion (prefixInfo m)
     | None => false
     end.

Definition normalStep (m : ParsedModule) : FlashStep :=
  moduleStep env m normal None.

Definition bulkStep (m : ParsedModule) : FlashStep :=
  moduleStep env m dfu
    (Some (parseInt16 (moduleStartAddy (prefixInfo m)))).

(** The steps a bulk module contributes, in order. *)
Definition bulkSteps (m : ParsedModule) : list FlashStep :=
  match formerUserPart platform with
  | Some seg =>
      if guardsLegacyRegion m
      then [formerUserPartflashStep seg; bulkStep m]
      else [bulkStep m]
  | None => [bulkStep m]
  end.

(** What one routable module adds to each of the three arrays. *)
Definition assetPart (m : ParsedModule) : list FlashStep :=
  if isAssetModule m then [normalStep m] else [].

Definition normalPart (m : ParsedModule) : list FlashStep :=
  if isNormalModule m then [normalStep m] else [].

Definition bulkPart (m : ParsedModule) : list FlashStep :=
  if isBulkModule m then bulkSteps m else [].

(** The entries of the profile for a module type and index, in the order of
    the table; the slot of a module is the first of them. *)
Definition slotsFor (ty : string) (index : Z) : list FirmwareModule :=
  filter (fun fm => (fm_type fm =? ty)%string && (fm_index fm =? index))
         (firmwareModules platform).

(** The module's platform slot is marked encrypted. *)
Definition slotEncrypted (m : ParsedModule) : bool :=
  match typeOf m with
  | Ok ty =>
      match slotsFor ty (moduleIndex (prefixInfo m)) with
      | slot :: _ => encrypted slot
      | [] => false
      end
  | Throw _ => false
  end.

(** type radioStack, type ncpFirmware *)
Definition radioStackModule (m : ParsedModule) : bool :=
  match moduleFunction (prefixInfo m) with
  | RADIO_STACK => true
  | _ => false
  end.

Definition ncpFirmwareModule (m : ParsedModule) : bool :=
  match moduleFunction (prefixInfo m) with
  | NCP_FIRMWARE => true
  | _ => false
  end.

(** The drop condition of the filter. *)
Definition dropped (allowAll : bool) (m : ParsedModule) : bool :=
  slotEncrypted m
  || (radioStackModule m && negb allowAll)
  || (ncpFirmwareModule m && negb allowAll).

End Routing.

(** The profile of a platform id: the first entry of the platform table
    that has the id. *)
Definition isProfileOf (env : PlannerEnv) (platformId : Z)
    (platform : Platform) : Prop :=
  exists before after,
    PLATFORMS env = before ++ platform :: after
    /\ platform_id platform = platformId
    /\ Forall (fun p => platform_id p <> platformId) before.

(** An address as the profiles write it: [0x] and then hexadecimal digits,
    at least one; and the number it stands for. *)
Fixpoint allHexDigits (s : string) : bool :=
  match s with
  | EmptyString => true
  | String c rest =>
      match HexString.ascii_to_digit c with
      | Some _ => allHexDigits rest
      | None => false
      end
  end.

Definition isHexLiteral (s : string) : bool :=
  match s with
  | String "0" (String "x" (String c rest)) => allHexDigits (String c rest)
  | _ => false
  end.

Definition hexLiteralValue (s : string) : Z := Z.of_N (HexString.to_N s).

(** A step made from a module file (not the synthetic one). *)
Definition isModuleStep (s : FlashStep) : bool :=
  match moduleInfo s with Some _ => true | None => false end.

(** A step made from an asset module. *)
Definition fromAsset (env : PlannerEnv) (s : FlashStep) : bool :=
  match moduleInfo s with
  | Some mi =>
      match moduleTypeToString env (moduleFunction (smi_prefixInfo mi)) with
      | Ok ty => (ty =? "assets")%string
      | Throw _ => false
      end
  | None => false
  end.

(** The sorter's contract on one list: whatever a module depends on, if it is
    in the list at all, comes before the module and not after it. *)
Definition dependencyOrdered (dependsOn : ParsedModule -> ParsedModule -> bool)
    (l : list ParsedModule) : Prop :=
  forall l1 m l2 d,
    l = l1 ++ m :: l2 -> dependsOn m d = true -> In d l ->
    In d l1 /\ ~ In d l2.

(** * A small configuration to run the definitions on

    Two profiles in the shape of the platform table, the type names the
    planner compares against, and a handful of module descriptors. *)

Definition sampleTypeToString (f : FunctionType) : result string :=
  match f with
  | BOOTLOADER => Ok "bootloader"
  | SYSTEM_PART => Ok "systemPart"
  | USER_PART => Ok "userPart"
  | RADIO_STACK => Ok "radioStack"
  | NCP_FIRMWARE => Ok "ncpFirmware"
  | ASSET => Ok "assets"
  | _ => Throw (Error "Unknown module type")
  end.

Fixpoint hasSlash (s : string) : bool :=
  match s with
  | EmptyString => false
  | String c rest => (c =? "/")%char || hasSlash rest
  end.

Fixpoint sampleBasename (s : string) : string :=
  match s with
  | EmptyString => EmptyString
  | String c rest =>
      if hasSlash rest then sampleBasename rest
      else if (c =? "/")%char then rest else s
  end.

Definition slot (ty : string) (index : Z) (st : string) (enc : bool)
    : FirmwareModule :=
  {| fm_type := ty; fm_index := index; storage := st; encrypted := enc |}.

Definition argon : Platform :=
  {| platform_id := 12;
     platform_name := "argon";
     firmwareModules :=
       [ slot "bootloader" 0 "internalFlash" false;
         slot "systemPart" 1 "internalFlash" false;
         slot "userPart" 1 "internalFlash" false;
         slot "radioStack" 0 "internalFlash" false;
         slot "ncpFirmware" 0 "externalMcu" false ];
     formerUserPart := Some {| seg_address := "0xD4000"; seg_size := 16 |} |}.

Definition p2 : Platform :=
  {| platform_id := 32;
     platform_name := "p2";
     firmwareModules :=
       [ slot "bootloader" 0 "internalFlash" false;
         slot "bootloader" 1 "internalFlash" true;
         slot "systemPart" 1 "internalFlash" false;
         slot "userPart" 1 "internalFlash" false ];
     formerUserPart := None |}.

Definition sampleEnv : PlannerEnv :=
  {| PLATFORMS := [argon; p2];
     moduleTypeToString := sampleTypeToString;
     sortBinariesByDependency := fun modules => modules;
     basename := sampleBasename;
     DROP_MODULE_INFO := 1 |}.

Definition sampleModule (file : string) (crcOk : bool) (platform : Z)
    (f : FunctionType) (index : Z) (start : string)
    (dep : FunctionType) (depIndex depVersion : Z) : ParsedModule :=
  {| filename := file;
     fileBuffer := [x01; x02; x03; x04];
     crc := {| ok := crcOk; storedCrc := "a1b2c3d4"; actualCrc := "a1b2c3d4" |};
     prefixInfo :=
       {| moduleStartAddy := start; moduleEndAddy := "0";
          moduleFlags := 0; moduleVersion := 1; platformID := platform;
          moduleFunction := f; moduleIndex := index;
          depModuleFunction := dep; depModuleIndex := depIndex;
          depModuleVersion := depVersion; prefixSize := 24 |};
     suffixInfo :=
       {| productId := 0; productVersion := 0; fwUniqueId := "";
          suffixSize := 36; crcBlock := "a1b2c3d4" |} |}.

Definition tinker : ParsedModule :=
  sampleModule "fw/tinker.bin" true 12 USER_PART 1 "b4000" SYSTEM_PART 1 3200.

Definition oldTinker : ParsedModule :=
  sampleModule "fw/old-tinker.bin" true 12 USER_PART 1 "d4000"
    SYSTEM_PART 1 1512.

Definition systemPart1 : ParsedModule :=
  sampleModule "fw/system-part1.bin" true 12 SYSTEM_PART 1 "30000"
    BOOTLOADER 0 1200.

Definition bootloader0 : ParsedModule :=
  sampleModule "fw/bootloader.bin" true 12 BOOTLOADER 0 "f4000" NONE 0 0.

Definition ncp0 : ParsedModule :=
  sampleModule "fw/ncp.bin" true 12 NCP_FIRMWARE 0 "0" NONE 0 0.

Definition radio0 : ParsedModule :=
  sampleModule "fw/softdevice.bin" true 12 RADIO_STACK 0 "1000" NONE 0 0.

Definition logo : ParsedModule :=
  sampleModule "assets/logo.png" true 0 ASSET 0 "0" NONE 0 0.

Definition p2Preboot : ParsedModule :=
  sampleModule "fw/prebootloader-mbr.bin" true 32 BOOTLOADER 1 "8000000"
    NONE 0 0.

Definition p2App : ParsedModule :=
  sampleModule "fw/app.bin" true 32 USER_PART 1 "85f0000" SYSTEM_PART 1 5000.

(** A profile that declares a legacy user-part region and keeps its user
    part on the external MCU, the table that holds it, and an application
    for it that requires a recent base firmware. *)
Definition externalUser : Platform :=
  {| platform_id := 77;
     platform_name := "external-user";
     firmwareModules :=
       [ slot "bootloader" 0 "internalFlash" false;
         slot "userPart" 1 "externalMcu" false ];
     formerUserPart := Some {| seg_address := "0xD4000"; seg_size := 16 |} |}.

Definition externalEnv : PlannerEnv :=
  {| PLATFORMS := [externalUser];
     moduleTypeToString := sampleTypeToString;
     sortBinariesByDependency := fun modules => modules;
     basename := sampleBasename;
     DROP_MODULE_INFO := 1 |}.

Definition externalApp : ParsedModule :=
  sampleModule "fw/external-app.bin" true 77 USER_PART 1 "0" SYSTEM_PART 1
    3200.

(** The three arrays the planner fills from a sorted module list. *)
Definition assetBucket (env : PlannerEnv) (sorted : list ParsedModule)
    : list FlashStep :=
  map (normalStep env) (filter (isAssetModule env) sorted).

Definition normalBucket (env : PlannerEnv) (platform : Platform)
    (sorted : list ParsedModule) : list FlashStep :=
  map (normalStep env) (filter (isNormalModule env platform) sorted).

Definition bulkBucket (env : PlannerEnv) (platform : Platform)
    (sorted : list ParsedModule) : list FlashStep :=
  flat_map (bulkSteps env platform) (filter (isBulkModule env platform) sorted).

(** Step lists in which every synthetic step is the profile's legacy step and
    is directly followed by the step of a module of [sorted] that guards the
    legacy region. *)
Inductive guarded (env : PlannerEnv) (platform : Platform)
    (sorted : list ParsedModule) : list FlashStep -> Prop :=
| guarded_nil : guarded env platform sorted []
| guarded_module (s : FlashStep) (l : list FlashStep) :
    isModuleStep s = true ->
    guarded env platform sorted l ->
    guarded env platform sorted (s :: l)
| guarded_legacy (seg : DfuSegment) (m : ParsedModule) (l : list FlashStep) :
    formerUserPart platform = Some seg ->
    In m sorted ->
    guardsLegacyRegion env platform m = true ->
    guarded env platform sorted l ->
    guarded env platform sorted
      (formerUserPartflashStep seg :: bulkStep env m :: l).

(** A dependency relation read off the descriptors: [m] names the function
    and index of [d] as its dependency. *)
Definition sampleDependsOn (m d : ParsedModule) : bool :=
  FunctionType_eqb (depModuleFunction (prefixInfo m))
                   (moduleFunction (prefixInfo d))
  && (depModuleIndex (prefixInfo m) =? moduleIndex (prefixInfo d)).

(** * The resolution, as the specification words it *)

(** The module set already includes a system part or a boot loader. *)
Definition includesDeviceOs (modules : list ParsedModule) : bool :=
  existsb (fun m =>
             FunctionType_eqb (moduleFunction (prefixInfo m)) SYSTEM_PART
             || FunctionType_eqb (moduleFunction (prefixInfo m)) BOOTLOADER)
          modules.

(** The application module of the set: its first user part. *)
Definition applicationOf (modules : list ParsedModule) : option ParsedModule :=
  find (fun m => FunctionType_eqb (moduleFunction (prefixInfo m)) USER_PART)
       modules.

(** The base-firmware version the catalog gives for what the application
    declares; absent when the lookup fails. *)
Definition requiredVersion (api : Catalog) (app : ParsedModule)
    : option string :=
  match getDeviceOsVersions api (platformID (prefixInfo app))
          (depModuleVersion (prefixInfo app)) with
  | Ok found => version found
  | Throw _ => None
  end.

(** The lookup of the application's version is rejected by the catalog. *)
Definition lookupFails (api : Catalog) (app : ParsedModule) : Prop :=
  exists e,
    getDeviceOsVersions api (platformID (prefixInfo app))
      (depModuleVersion (prefixInfo app)) = Throw e.

(** Nothing is fetched: the result is the empty list and no download was
    requested. *)
Definition fetchesNothing (r : result (list string) * list ApiCall) : Prop :=
  fst r = Ok [] /\ filter isDownload (snd r) = [].

(** The binaries of one version are fetched, by one download request. *)
Definition fetchesVersion (api : Catalog) (platformId : Z) (v : string)
    (omitUserPart : bool) (r : result (list string) * list ApiCall) : Prop :=
  fst r = downloadDeviceOsVersionBinaries api platformId v omitUserPart
  /\ filter isDownload (snd r) = [Download platformId v omitUserPart].

(** ** A catalog to run the resolution on *)

Definition digitOf (c : ascii) : option Z :=
  let n := Z.of_nat (nat_of_ascii c) in
  if (48 <=? n) && (n <=? 57) then Some (n - 48) else None.

Fixpoint decimal (s : string) (acc : option Z) : option Z :=
  match s with
  | EmptyString => acc
  | String c rest =>
      match digitOf c with
      | Some d =>
          decimal rest
            (Some (10 * match acc with Some a => a | None => 0 end + d))
      | None => None
      end
  end.

Fixpoint splitDots (s : string) : list string :=
  match s with
  | EmptyString => [EmptyString]
  | String c rest =>
      if (c =? ".")%char then EmptyString :: splitDots rest
      else
        match splitDots rest with
        | x :: xs => String c x :: xs
        | [] => [String c EmptyString]
        end
  end.

(** A comparison of versions [major.minor.patch] that throws on anything
    else, as [semver.lt] does. *)
Definition sampleSemverLt (a b : string) : result bool :=
  match map (fun p => decimal p None) (splitDots a),
        map (fun p => decimal p None) (splitDots b) with
  | [Some a1; Some a2; Some a3], [Some b1; Some b2; Some b3] =>
      Ok ((a1 <? b1)
          || ((a1 =? b1) && ((a2 <? b2) || ((a2 =? b2) && (a3 <? b3)))))
  | _, _ => Throw (TypeError "Invalid Version")
  end.

Definition sampleDownload (platformId : Z) (v : string) (omitUserPart : bool)
    : result (list string) :=
  Ok (("bootloader@" ++ v ++ ".bin")%string
      :: ("system-part1@" ++ v ++ ".bin")%string
      :: (if omitUserPart then [] else [("tinker@" ++ v ++ ".bin")%string])).

Definition onlineCatalog : Catalog :=
  {| getDeviceOsVersions :=
       fun _ internalVersion =>
         Ok {| version :=
                 Some (if internalVersion =? 3200 then "4.0.0" else "1.5.2") |};
     downloadDeviceOsVersionBinaries := sampleDownload;
     semver_lt := sampleSemverLt |}.

Definition offlineCatalog : Catalog :=
  {| getDeviceOsVersions :=
       fun _ _ => Throw (Rejected "api.getDeviceOsVersions");
     downloadDeviceOsVersionBinaries := sampleDownload;
     semver_lt := sampleSemverLt |}.

(** * The validator's checks, as the specification words them *)




(** ** A host to run the entry point on *)

Fixpoint hasDot (s : string) : bool :=
  match s with
  | EmptyString => false
  | String c rest => (c =? ".")%char || hasDot rest
  end.

Fixpoint sampleExt (s : string) : string :=
  match s with
  | EmptyString => EmptyString
  | String c rest =>
      if hasDot rest then sampleExt rest
      else if (c =? ".")%char then s else EmptyString
  end.

Definition corruptTinker : ParsedModule :=
  sampleModule "fw/corrupt.bin" false 12 USER_PART 1 "d4000" SYSTEM_PART 1 1512.

Definition sampleFiles (file : string) : result ParsedModule :=
  if (file =? "fw/tinker.bin")%string then Ok tinker
  else if (file =? "fw/old-tinker.bin")%string then Ok oldTinker
  else if (file =? "fw/corrupt.bin")%string then Ok corruptTinker
  else if (file =? "fw/bootloader.bin")%string then Ok bootloader0
  else Throw (Rejected "parser.parseFile").

(** What calling the [undefined] that [validateDFUSupport] is bound to
    throws. *)
Definition notAFunction : JSError :=
  TypeError "validateDFUSupport is not a function".

(** The host as the code stands: [lib/flash-helper] exports no
    [validateDFUSupport] (its [module.exports] lists [flashFiles],
    [filterModulesToFlash], [parseModulesToFlash], [createFlashSteps],
    [flashDeviceInNormalMode] and [flashDeviceInDfuMode]), so the call
    throws. *)
Definition sampleHost : Host :=
  {| getFilenameExt := sampleExt;
     platformForId :=
       fun id =>
         match findPlatform sampleEnv id with
         | Some p => Ok (platform_name p)
         | None => Throw (Error "Unknown platform")
         end;
     validateDFUSupport := fun _ => Throw notAFunction;
     knownAppsForPlatform :=
       fun _ app =>
         if (app =? "tinker")%string then Some "fw/tinker.bin" else None;
     parseFile := sampleFiles;
     attached := {| handle := 0; deviceId := "e00fce68f15867a3c4762226";
                    devicePlatformId := 12;
                    firmwareVersion := Some "3.1.0" |};
     attachedInDfuMode := true |}.

(** The same host once [lib/flash-helper] defines [validateDFUSupport] and
    the function accepts the device: what the entry points go on to do
    then. *)
Definition sampleHostWithHelper : Host :=
  {| getFilenameExt := getFilenameExt sampleHost;
     platformForId := platformForId sampleHost;
     validateDFUSupport := fun _ => Ok tt;
     knownAppsForPlatform := knownAppsForPlatform sampleHost;
     parseFile := parseFile sampleHost;
     attached := attached sampleHost;
     attachedInDfuMode := attachedInDfuMode sampleHost |}.

(** Two application files of the same base name, of 4 bytes and of 1 byte,
    and the plan the planner makes of them for a device in DFU mode. *)
Definition appLong : ParsedModule :=
  sampleModule "a/app.bin" true 12 USER_PART 1 "d4000" SYSTEM_PART 1 1512.

Definition appShort : ParsedModule :=
  {| filename := "b/app.bin";
     fileBuffer := [x01];
     crc := crc appLong;
     prefixInfo := prefixInfo appLong;
     suffixInfo := suffixInfo appLong |}.

Definition twoAppsPlan : list FlashStep :=
  match createFlashSteps sampleEnv [appLong; appShort] true 12 with
  | Ok steps => steps
  | Throw _ => []
  end.

(** A device open in DFU mode whose two writes report the erasure of a whole
    4096-byte sector each, and then the bytes written. *)
Definition sectorEraseWorld : World :=
  {| calls := [];
     script := [Resolves [Erased 4096; Downloaded 4];
                Resolves [Erased 4096; Downloaded 1]];
     handles := [{| isOpen := true; inDfuMode := true |}];
     progress := _createFlashProgress [] false;
     written := [] |}.

(** * More of the code: what the properties below are stated with *)

(** Neither a radio stack nor coprocessor firmware. *)
Definition notCoprocessor (m : ParsedModule) : bool :=
  negb (radioStackModule m) && negb (ncpFirmwareModule m).

(** A step has an address exactly when it is a [dfu] step. *)
Definition addressMatchesMode (s : FlashStep) : bool :=
  match flashMode s, address s with
  | normal, None => true
  | dfu, Some _ => true
  | _, _ => false
  end.

(** The catalog lookup the resolution makes for a module set: one, for its
    first user part. *)
Definition lookupOf (modules : list ParsedModule) : list ApiCall :=
  match applicationOf modules with
  | Some app =>
      [LookupVersion (platformID (prefixInfo app))
                     (depModuleVersion (prefixInfo app))]
  | None => []
  end.

(** The line the handler writes for an event when there is no bar. *)
Definition linesOf (payload : Payload) : list string :=
  match payload with
  | FlashFile filename => [(("Flashing " ++ filename) ++ EOL)%string]
  | SwitchMode mode =>
      [(("Switching device to " ++ mode ++ " mode") ++ EOL)%string]
  | _ => []
  end.

(** The handler called on a sequence of events; a call that throws leaves
    its state behind like any other. *)
Fixpoint handleAll (flashSteps : list FlashStep) (isInteractive : bool)
    (st : Progress) (payloads : list Payload) : Progress :=
  match payloads with
  | [] => st
  | payload :: rest =>
      handleAll flashSteps isInteractive
        (snd (progressHandler flashSteps isInteractive st payload)) rest
  end.

(** The events of one write: the file is announced, then come the erase
    reports, then the reports of bytes written. *)
Definition writeEvents (w : FlashStep * (list Z * list Z)) : list Payload :=
  FlashFile (name (fst w))
  :: map Erased (fst (snd w)) ++ map Downloaded (snd (snd w)).

(** What a write adds to the bar: its erase reports up to the payload's
    length and its write reports, weighted by the mode. *)
Definition writeProgress (w : FlashStep * (list Z * list Z)) : Z :=
  multiplierOf (fst w)
  * (Z.min (sum (fst (snd w))) (Buffer_length (data (fst w)))
     + sum (snd (snd w))).

(** A write that erases at least its payload and writes exactly it. *)
Definition completeWrite (w : FlashStep * (list Z * list Z)) : Prop :=
  Forall (fun b => 0 <= b) (fst (snd w))
  /\ Buffer_length (data (fst w)) <= sum (fst (snd w))
  /\ sum (snd (snd w)) = Buffer_length (data (fst w)).

(** Every call a computation adds to the record of calls satisfies [P]. *)
Definition emits {A : Type} (P : Call -> bool) (m : M A) : Prop :=
  forall w,
    exists cs, calls (snd (m w)) = calls w ++ cs /\ forallb P cs = true.

(** Neither [device.reset()] nor [device.close()]. *)
Definition notCleanupCall (c : Call) : bool :=
  match c with
  | ResetDevice _ | CloseDevice _ => false
  | _ => true
  end.

(** The calls of the [finally] block of [flashFiles] on a device object. *)
Definition cleanupCalls (open resetAfterFlash : bool) (h : nat) : list Call :=
  if open
  then (if resetAfterFlash then [ResetDevice h] else []) ++ [CloseDevice h]
  else [].

Definition isDfuStep (s : FlashStep) : bool :=
  match flashMode s with
  | dfu => true
  | normal => false
  end.

(** The write of a [dfu] step, as [flashFiles] asks for it. *)
Definition dfuWrite (h : nat) (s : FlashStep) : Call :=
  WriteOverDfu h (data s) 0 (address s).

Definition withScript (w : World) (outcomes : list Outcome) : World :=
  setCalls w (calls w) outcomes.


(** The mode switch a step asks for on a device that is in the other mode,
    and the error it is rejected with. *)
Definition switchCall (h : nat) (s : FlashStep) : Call :=
  match flashMode s with
  | dfu => ReopenInDfuMode h
  | normal => ReopenInNormalMode h true
  end.

Definition switchError (s : FlashStep) : JSError :=
  match flashMode s with
  | dfu => Rejected "usbUtils.reopenInDfuMode"
  | normal => Rejected "usbUtils.reopenInNormalMode"
  end.

(** A device object in DFU mode, and the state of a run that has it. *)
Definition dfuModeWorld (outcomes : list Outcome) : World :=
  {| calls := []; script := outcomes;
     handles := [{| isOpen := true; inDfuMode := true |}];
     progress := _createFlashProgress [] false;
     written := [] |}.

Definition normalModeWorld (outcomes : list Outcome) : World :=
  {| calls := []; script := outcomes;
     handles := [{| isOpen := true; inDfuMode := false |}];
     progress := _createFlashProgress [] false;
     written := [] |}.

(** The plan for an application and a bootloader on a device in DFU mode. *)
Definition repairPlan : list FlashStep :=
  match createFlashSteps sampleEnv [bootloader0; tinker] true 12 with
  | Ok steps => steps
  | Throw _ => []
  end.

Definition notReset (c : Call) : bool :=
  match c with
  | ResetDevice _ => false
  | _ => true
  end.

(** * The file arguments of a local flash ([_analyzeFiles],
      [_prepareFilesToFlash], [_findBinaries], [_processBundle]) *)

(** What [fs.stat] resolves to, as far as the command looks at it. *)
Record Stats : Type := {
  isDirectory : bool
}.

(** The collaborators of the file handling: [fs.stat] (rejecting for a path
    it cannot find), [utilities.globList] with the binary and with the source
    patterns of [lib/file-types], [path.extname], the extensions and the
    application names of [lib/file-types] and [lib/known-apps], the bundle
    extractor of [cmd/bundle] and the compiler of [cmd/cloud]. *)
Record FileSystem : Type := {
  stat : string -> option Stats;
  globBinaries : string -> result (list string);
  globSources : string -> result (list string);
  extname : string -> string;
  binaryExtensions : list string;
  knownAppNames : list string;
  extractModulesFromBundle : string -> result (list string);
  compileCodeImpl : option string -> Z -> list string -> result string
}.

(** [Array.prototype.includes] on strings *)
Definition includes (x : string) (l : list string) : bool :=
  existsb (String.eqb x) l.

(** The object [_analyzeFiles] returns; [null] is [None]. *)
Record Analysis : Type := {
  files : list string;
  deviceIdOrName : option string;
  knownApp : option string
}.

Definition _analyzeFiles (fs : FileSystem) (args : list string) : Analysis :=
  match args with
  | [] => {| files := ["."]; deviceIdOrName := None; knownApp := None |}
  | first :: remainingFiles =>
      if includes first (knownAppNames fs) then
        {| files := []; deviceIdOrName := None; knownApp := Some first |}
      else
        let byFileSystem :=
          match stat fs first with
          | Some _ =>
              {| files := args; deviceIdOrName := None; knownApp := None |}
          | None =>
              {| files := remainingFiles; deviceIdOrName := Some first;
                 knownApp := None |}
          end in
        match remainingFiles with
        | second :: _ =>
            if includes second (knownAppNames fs) then
              {| files := []; deviceIdOrName := Some first;
                 knownApp := Some second |}
            else byFileSystem
        | [] => byFileSystem
        end
  end.

(** [Set.prototype.add]: a set keeps its members in the order they were
    first added. *)
Definition setAdd (binaries : list string) (binary : string) : list string :=
  if includes binary binaries then binaries else binaries ++ [binary].

Definition notFound (filePath : string) : JSError :=
  Error ("I couldn't find that: " ++ filePath).

(** The loop of [_findBinaries] over the set [binaries]. *)
Fixpoint findLoop (fs : FileSystem) (parsedFiles : list string)
    (binaries : list string) : result (list string) :=
  match parsedFiles with
  | [] => Ok binaries
  | filePath :: rest =>
      match stat fs filePath with
      | Some stats =>
          if isDirectory stats then
            match globBinaries fs filePath with
            | Ok found => findLoop fs rest (fold_left setAdd found binaries)
            | Throw _ => Throw (notFound filePath)
            end
          else findLoop fs rest (setAdd binaries filePath)
      | None => Throw (notFound filePath)
      end
  end.

Definition _findBinaries (fs : FileSystem) (parsedFiles : list string)
    : result (list string) :=
  findLoop fs parsedFiles [].

(** What one path contributes to the set: itself, or the binaries found in
    it when it is a directory; nothing when it cannot be read. *)
Definition binariesAt (fs : FileSystem) (filePath : string)
    : option (list string) :=
  match stat fs filePath with
  | Some stats =>
      if isDirectory stats then
        match globBinaries fs filePath with
        | Ok found => Some found
        | Throw _ => None
        end
      else Some [filePath]
  | None => None
  end.

Definition unreadable (fs : FileSystem) (filePath : string) : bool :=
  match binariesAt fs filePath with
  | Some _ => false
  | None => true
  end.

Definition toList {A : Type} (o : option A) : list A :=
  match o with
  | Some a => [a]
  | None => []
  end.

(** [_compileCode] *)
Definition _compileCode (fs : FileSystem) (parsedFiles : list string)
    (platformId : Z) (target : option string) : result (list string) :=
  compiled <-? compileCodeImpl fs target platformId parsedFiles ;;
  Ok [compiled].

(** [_processBundle]: each bundle is replaced by the modules extracted from
    it. *)
Fixpoint _processBundle (fs : FileSystem) (filesToFlash : list string)
    : result (list string) :=
  match filesToFlash with
  | [] => Ok []
  | file :: rest =>
      processed <-?
        (if (extname fs file =? ".zip")%string
         then extractModulesFromBundle fs file
         else Ok [file]) ;;
      others <-? _processBundle fs rest ;;
      Ok (processed ++ others)
  end.

(** The object [_prepareFilesToFlash] returns. *)
Record Prepared : Type := {
  skipDeviceOSFlash : bool;
  filesToFlash : list string
}.

(** A string that passes an [if (...)] test. *)
Definition whenTruthy (s : option string) : option string :=
  match s with
  | Some str => if (str =? "")%string then None else Some str
  | None => None
  end.

(** [_prepareFilesToFlash] when no known application is asked for.  With no
    path at all [fs.stat(undefined)] rejects, which is caught, and
    [path.extname(undefined)] throws. *)
Definition prepareFromDisk (fs : FileSystem) (parsedFiles : list string)
    (platformId : Z) (target : option string) : result Prepared :=
  let fromBinaries :=
    binaries <-? _findBinaries fs parsedFiles ;;
    Ok {| skipDeviceOSFlash := false; filesToFlash := binaries |} in
  let fromSources :=
    compileResult <-? _compileCode fs parsedFiles platformId target ;;
    Ok {| skipDeviceOSFlash := false; filesToFlash := compileResult |} in
  let byExtension (filePath : string) :=
    if includes (extname fs filePath) (binaryExtensions fs)
    then fromBinaries else fromSources in
  match parsedFiles with
  | [] => Throw (TypeError "path.extname")
  | filePath :: _ =>
      match stat fs filePath with
      | Some stats =>
          if isDirectory stats then
            binaries <-? globBinaries fs filePath ;;
            sources <-? globSources fs filePath ;;
            if (0 <? List.length binaries)%nat
               && (List.length sources =? 0)%nat
            then fromBinaries
            else if (0 <? List.length sources)%nat then fromSources
            else Throw (Error "No files found to flash")
          else byExtension filePath
      | None => byExtension filePath
      end
  end.

Definition unavailable (appName platformName : string) : JSError :=
  Error ("Known app " ++ appName ++ " is not available for " ++ platformName).

Definition _prepareFilesToFlash (fs : FileSystem) (host : Host)
    (app : option string) (parsedFiles : list string) (platformId : Z)
    (platformName : string) (target : option string) : result Prepared :=
  match whenTruthy app with
  | Some appName =>
      match whenTruthy (knownAppsForPlatform host platformName appName) with
      | Some knownAppPath =>
          Ok {| skipDeviceOSFlash := true; filesToFlash := [knownAppPath] |}
      | None => Throw (unavailable appName platformName)
      end
  | None => prepareFromDisk fs parsedFiles platformId target
  end.

(** * The local flash ([flashLocal]) and the update command ([updateDevice]) *)

Section LocalFlash.

Variable env : PlannerEnv.
Variable fs : FileSystem.
Variable host : Host.
Variable api : Catalog.
Variable isInteractive : bool.

(** [deviceIdOrName || device.id] *)
Definition shownName (idOrName : option string) (device : Device) : string :=
  match whenTruthy idOrName with
  | Some given => given
  | None => deviceId device
  end.

(** [flashLocal] up to the validation of the modules named on the command
    line: the device found and what is to be flashed from disk.  The search
    for the device is recorded as one call; the device it finds for
    [deviceIdOrName] is the host's. *)
Definition flashLocalFiles (args : list string) (target : option string)
    : M (Device * bool * list ParsedModule) :=
  let analysis := _analyzeFiles fs args in
  device <- getOneUsbDevice host ;;
  platformName <- lift (platformForId host (devicePlatformId device)) ;;
  write ("Flashing " ++ platformName ++ " "
         ++ shownName (deviceIdOrName analysis) device)%string ;;;
  lift (validateDFUSupport host device) ;;;
  prepared <-
    lift (_prepareFilesToFlash fs host (knownApp analysis) (files analysis)
            (devicePlatformId device) platformName target) ;;
  processed <- lift (_processBundle fs (filesToFlash prepared)) ;;
  fileModules <- lift (parseModulesToFlash host processed) ;;
  lift (_validateModulesForPlatform fileModules (devicePlatformId device)
          platformName) ;;;
  ret (device, skipDeviceOSFlash prepared, fileModules).

(** The rest of [flashLocal], once the base firmware is resolved. *)
Definition flashLocalModules (device : Device)
    (fileModules : list ParsedModule) (deviceOsBinaries : result (list string))
    : M unit :=
  binaries <- lift deviceOsBinaries ;;
  deviceOsModules <- lift (parseModulesToFlash host binaries) ;;
  modulesToFlash <-
    lift (filterModulesToFlash env (fileModules ++ deviceOsModules)
            (devicePlatformId device) false) ;;
  isInDfuMode <- deviceIsInDfuMode device ;;
  flashSteps <-
    lift (createFlashSteps env modulesToFlash isInDfuMode
            (devicePlatformId device)) ;;
  flashFiles flashSteps isInteractive device true.

(** [flashLocal]: its outcome and the requests it sent to the catalog. *)
Definition flashLocal (args : list string) (applicationOnly : bool)
    (target : option string) : World -> (result unit * list ApiCall) * World :=
  fun w =>
    match flashLocalFiles args target w with
    | (Throw e, w1) => ((Throw e, []), w1)
    | (Ok (device, skip, fileModules), w1) =>
        let '(deviceOsBinaries, log) :=
          _getDeviceOsBinaries api skip target fileModules
            (firmwareVersion device) (devicePlatformId device)
            applicationOnly in
        let '(r, w2) :=
          flashLocalModules device fileModules deviceOsBinaries w1 in
        ((r, log), w2)
    end.

(** [semver.valid], as a test *)
Variable valid : string -> bool.

(** [updateDevice] from the search for the device to the message that
    announces the update. *)
Definition updateDeviceFind (idOrName : option string) (v : string)
    : M Device :=
  device <- getOneUsbDevice host ;;
  lift (validateDFUSupport host device) ;;;
  platformName <- lift (platformForId host (devicePlatformId device)) ;;
  let versionText :=
    if (v =? "latest")%string then "latest Device OS version"
    else ("Device OS version " ++ v)%string in
  write ("Updating " ++ platformName ++ " " ++ shownName idOrName device
         ++ " to " ++ versionText)%string ;;;
  ret device.

Definition updateDeviceModules (device : Device)
    (deviceOsBinaries : result (list string)) : M unit :=
  binaries <- lift deviceOsBinaries ;;
  deviceOsModules <- lift (parseModulesToFlash host binaries) ;;
  modulesToFlash <-
    lift (filterModulesToFlash env deviceOsModules (devicePlatformId device)
            true) ;;
  isInDfuMode <- deviceIsInDfuMode device ;;
  flashSteps <-
    lift (createFlashSteps env modulesToFlash isInDfuMode
            (devicePlatformId device)) ;;
  flashFiles flashSteps isInteractive device true ;;;
  write "Update success!".

(** [updateDevice] for the version [v] it settled on. *)
Definition updateDeviceTo (idOrName : option string) (v : string)
    : World -> (result unit * list ApiCall) * World :=
  fun w =>
    match updateDeviceFind idOrName v w with
    | (Throw e, w1) => ((Throw e, []), w1)
    | (Ok device, w1) =>
        let '(deviceOsBinaries, log) :=
          download api (devicePlatformId device) v true [] in
        let '(r, w2) := updateDeviceModules device deviceOsBinaries w1 in
        ((r, log), w2)
    end.

(** [updateDevice]: its outcome and the requests it sent to the catalog. *)
Definition updateDevice (idOrName : option string) (target : option string)
    : World -> (result unit * list ApiCall) * World :=
  fun w =>
    match whenTruthy target with
    | Some t =>
        if negb (valid t) then
          let '(r, w1) := write ("Invalid version: " ++ t) w in ((r, []), w1)
        else updateDeviceTo idOrName t w
    | None => updateDeviceTo idOrName "latest" w
    end.

End LocalFlash.

(** ** Files to run the local flash on *)

Definition sampleFs : FileSystem :=
  {| stat :=
       fun filePath =>
         if (filePath =? "fw")%string then Some {| isDirectory := true |}
         else if includes filePath
                   ["fw/tinker.bin"; "fw/bootloader.bin"; "fw/corrupt.bin";
                    "bundle.zip"]
         then Some {| isDirectory := false |}
         else None;
     globBinaries :=
       fun filePath =>
         if (filePath =? "fw")%string
         then Ok ["fw/tinker.bin"; "fw/bootloader.bin"]
         else Ok [];
     globSources := fun _ => Ok [];
     extname := sampleExt;
     binaryExtensions := [".bin"; ".zip"];
     knownAppNames := ["tinker"; "doctor"];
     extractModulesFromBundle :=
       fun _ => Ok ["fw/tinker.bin"; "assets/logo.png"];
     compileCodeImpl := fun _ _ _ => Throw (Rejected "compileCodeImpl") |}.

(** The plan of a local flash of an application given with the firmware of
    the network coprocessor. *)
Definition localPlan : list FlashStep :=
  match createFlashSteps sampleEnv [tinker] false 12 with
  | Ok steps => steps
  | Throw _ => []
  end.

(** ** The calls of a whole command *)

(** Every run of a computation adds calls of the shape [P] to the record. *)
Definition makes {A : Type} (P : list Call -> Prop) (m : M A) : Prop :=
  forall w, exists cs, calls (snd (m w)) = calls w ++ cs /\ P cs.

(** Calls that neither reset nor close a device, followed by nothing or by
    one reset and one close of the same device object. *)
Definition cleanupLast (cs : list Call) : Prop :=
  exists body tail,
    cs = body ++ tail
    /\ forallb notCleanupCall body = true
    /\ (tail = [] \/ exists h, tail = [ResetDevice h; CloseDevice h]).

(** The search for the device, then a flash as above. *)
Definition searchThenFlash (cs : list Call) : Prop :=
  exists rest, cs = GetOneUsbDevice :: rest /\ cleanupLast rest.

(** The version [updateDevice] asks the catalog for. *)
Definition updateVersion (target : option string) : string :=
  match whenTruthy target with
  | Some t => t
  | None => "latest"
  end.
(** * Properties *)

(** ** The module filter *)

Section FilterFacts.

Variable env : PlannerEnv.
Variable platform : Platform.
Variable allowAll : bool.

(** [Array.prototype.find] returns the first of the entries that pass the
    test. *)
Lemma find_first_of_filter {A : Type} (f : A -> bool) (l : list A) :
  find f l = match filter f l with
             | a :: _ => Some a
             | [] => None
             end.
Proof.
  induction l as [|a rest IH]; simpl; [reflexivity|].
  destruct (f a); [reflexivity|exact IH].
Qed.

Lemma keepModule_dropped (m : ParsedModule) (ty : string) :
  typeOf env m = Ok ty ->
  keepModule platform allowAll ty m = negb (dropped env platform allowAll m).
Proof.
  intros Hty.
  unfold keepModule, dropped, slotEncrypted, findPlatformModule, slotsFor,
    radioStackModule, ncpFirmwareModule.
  rewrite Hty, find_first_of_filter.
  destruct (filter _ (firmwareModules platform)) as [|slot others];
    [|destruct (encrypted slot)];
    destruct (moduleFunction (prefixInfo m)), allowAll; reflexivity.
Qed.

Lemma filterLoop_filter (modules acc : list ParsedModule) :
  (forall m, In m modules -> exists ty, typeOf env m = Ok ty) ->
  filterLoop env (Some platform) allowAll modules acc
  = Ok (acc
        ++ filter (fun m => negb (dropped env platform allowAll m)) modules).
Proof.
  revert acc. induction modules as [|m rest IH]; intros acc Hty; simpl.
  - now rewrite app_nil_r.
  - destruct (Hty m (or_introl eq_refl)) as [ty Hm].
    unfold typeOf in Hm. rewrite Hm. simpl.
    rewrite IH by (intros x Hx; apply Hty; now right).
    rewrite (keepModule_dropped m ty Hm).
    destruct (negb (dropped env platform allowAll m)); simpl.
    + now rewrite <- app_assoc.
    + reflexivity.
Qed.

(** Without a profile the loop fails on its first module. *)
Lemma filterLoop_no_platform (m : ParsedModule) (rest acc : list ParsedModule) :
  exists e, filterLoop env None allowAll (m :: rest) acc = Throw e.
Proof.
  simpl. destruct (moduleTypeToString env (moduleFunction (prefixInfo m)));
    simpl; eauto.
Qed.

End FilterFacts.

Lemma isProfileOf_find (env : PlannerEnv) (platformId : Z)
    (platform : Platform) :
  isProfileOf env platformId platform ->
  findPlatform env platformId = Some platform.
Proof.
  intros [before [after [Htable [Hid Hbefore]]]].
  unfold findPlatform. rewrite Htable. clear Htable.
  induction before as [|p before IH]; simpl.
  - apply Z.eqb_eq in Hid. now rewrite Hid.
  - inversion Hbefore as [|p' l Hp Hrest]; subst p' l.
    apply Z.eqb_neq in Hp. rewrite Hp. exact (IH Hrest).
Qed.




(** ** The planner *)

Section PlannerFacts.

Variable env : PlannerEnv.
Variable platform : Platform.

Lemma planModule_routable (b : Buckets) (m : ParsedModule) :
  routable env platform m = true ->
  planModule env (Some platform) b m
  = Ok {| assetModules := assetModules b ++ assetPart env m;
          normalModules := normalModules b ++ normalPart env platform m;
          dfuModules := dfuModules b ++ bulkPart env platform m |}.
Proof.
  unfold routable, assetPart, normalPart, bulkPart, bulkSteps,
    guardsLegacyRegion, isAssetModule, isNormalModule, isBulkModule, hasType,
    externalStorage, storageOf, planModule, typeOf.
  destruct (moduleTypeToString env (moduleFunction (prefixInfo m)))
    as [ty|e]; simpl; [|discriminate].
  destruct (ty =? "assets")%string; simpl.
  { intros _. now rewrite !app_nil_r. }
  destruct (ty =? "bootloader")%string; simpl.
  { intros _. now rewrite !app_nil_r. }
  destruct (find (fun fm => (fm_type fm =? ty)%string)
                 (firmwareModules platform)) as [st|]; simpl;
    [|discriminate].
  intros _.
  destruct (storage st =? "externalMcu")%string; simpl.
  { now rewrite !app_nil_r. }
  rewrite !app_nil_r.
  destruct (ty =? "userPart")%string; simpl.
  - destruct (formerUserPart platform) as [seg|]; [|reflexivity].
    unfold DEVICE_OS_MIN_VERSION_TO_FORMAT_128K_USER.
    rewrite Z.geb_leb.
    destruct (3103 <=? depModuleVersion (prefixInfo m)); [|reflexivity].
    now rewrite <- app_assoc.
  - destruct (formerUserPart platform); reflexivity.
Qed.

Lemma planLoop_routable (l : list ParsedModule) (b : Buckets) :
  forallb (routable env platform) l = true ->
  planLoop env (Some platform) l b
  = Ok {| assetModules :=
            assetModules b
            ++ map (normalStep env) (filter (isAssetModule env) l);
          normalModules :=
            normalModules b
            ++ map (normalStep env) (filter (isNormalModule env platform) l);
          dfuModules :=
            dfuModules b
            ++ flat_map (bulkSteps env platform)
                 (filter (isBulkModule env platform) l) |}.
Proof.
  revert b. induction l as [|m l IH]; intros b Hr; simpl.
  - rewrite !app_nil_r. now destruct b.
  - simpl in Hr. apply andb_true_iff in Hr. destruct Hr as [Hm Hl].
    rewrite (planModule_routable b m Hm). simpl.
    rewrite (IH _ Hl). simpl.
    unfold assetPart, normalPart, bulkPart.
    destruct (isAssetModule env m), (isNormalModule env platform m),
      (isBulkModule env platform m); simpl;
      rewrite <- ?app_assoc, ?app_nil_r; reflexivity.
Qed.

Lemma planModule_ok_routable (b b' : Buckets) (m : ParsedModule) :
  planModule env (Some platform) b m = Ok b' ->
  routable env platform m = true.
Proof.
  unfold routable, isAssetModule, isNormalModule, isBulkModule, hasType,
    externalStorage, storageOf, planModule, typeOf.
  destruct (moduleTypeToString env (moduleFunction (prefixInfo m)))
    as [ty|e]; simpl; [|discriminate].
  destruct (ty =? "assets")%string; simpl; [reflexivity|].
  destruct (ty =? "bootloader")%string; simpl; [reflexivity|].
  destruct (find (fun fm => (fm_type fm =? ty)%string)
                 (firmwareModules platform)) as [st|]; simpl;
    [|discriminate].
  intros _. now destruct (storage st =? "externalMcu")%string.
Qed.

Lemma planLoop_ok_routable (l : list ParsedModule) (b b' : Buckets) :
  planLoop env (Some platform) l b = Ok b' ->
  forallb (routable env platform) l = true.
Proof.
  revert b. induction l as [|m l IH]; intros b Hrun; simpl in *;
    [reflexivity|].
  destruct (planModule env (Some platform) b m) as [b1|e] eqn:Hm;
    simpl in Hrun; [|discriminate].
  rewrite (planModule_ok_routable b b1 m Hm). simpl. exact (IH b1 Hrun).
Qed.

(** Without a profile the planner can place no module at all. *)
Lemma planLoop_no_platform (l : list ParsedModule) (b : Buckets) :
  l <> [] -> exists e, planLoop env None l b = Throw e.
Proof.
  destruct l as [|m l]; [congruence|]. intros _. simpl.
  unfold planModule.
  destruct (moduleTypeToString env (moduleFunction (prefixInfo m)));
    simpl; eauto.
Qed.

End PlannerFacts.

Section PlannerOrder.

Variable env : PlannerEnv.
Variable platform : Platform.

Lemma createFlashSteps_routable (modules : list ParsedModule)
    (isInDfuMode : bool) (platformId : Z) :
  findPlatform env platformId = Some platform ->
  forallb (routable env platform) (sortBinariesByDependency env modules)
    = true ->
  createFlashSteps env modules isInDfuMode platformId
  = Ok (if isInDfuMode
        then bulkBucket env platform (sortBinariesByDependency env modules)
             ++ normalBucket env platform (sortBinariesByDependency env modules)
             ++ assetBucket env (sortBinariesByDependency env modules)
        else normalBucket env platform (sortBinariesByDependency env modules)
             ++ bulkBucket env platform (sortBinariesByDependency env modules)
             ++ assetBucket env (sortBinariesByDependency env modules)).
Proof.
  intros Hp Hr. unfold createFlashSteps. rewrite Hp.
  rewrite (planLoop_routable env platform _ emptyBuckets Hr). simpl.
  now destruct isInDfuMode.
Qed.

Lemma createFlashSteps_ok_routable (modules : list ParsedModule)
    (isInDfuMode : bool) (platformId : Z) (steps : list FlashStep) :
  findPlatform env platformId = Some platform ->
  createFlashSteps env modules isInDfuMode platformId = Ok steps ->
  forallb (routable env platform) (sortBinariesByDependency env modules)
    = true.
Proof.
  intros Hp. unfold createFlashSteps. rewrite Hp.
  destruct (planLoop env (Some platform)
              (sortBinariesByDependency env modules) emptyBuckets)
    as [b|e] eqn:Hrun; simpl; [|discriminate].
  intros _. exact (planLoop_ok_routable env platform _ _ _ Hrun).
Qed.

Lemma fromAsset_moduleStep (m : ParsedModule) (mode : FlashMode)
    (addr : option JSNum) :
  fromAsset env (moduleStep env m mode addr) = isAssetModule env m.
Proof. reflexivity. Qed.

Lemma asset_not_normal (m : ParsedModule) :
  isNormalModule env platform m = true -> isAssetModule env m = false.
Proof.
  unfold isNormalModule, isAssetModule, hasType.
  destruct (typeOf env m) as [ty|]; [|discriminate].
  destruct (ty =? "assets")%string; [discriminate|reflexivity].
Qed.

Lemma asset_not_bulk (m : ParsedModule) :
  isBulkModule env platform m = true -> isAssetModule env m = false.
Proof.
  unfold isBulkModule, isAssetModule, hasType.
  destruct (typeOf env m) as [ty|]; [|discriminate].
  destruct (ty =? "assets")%string; [discriminate|reflexivity].
Qed.

Lemma normal_not_bulk (m : ParsedModule) :
  isBulkModule env platform m = true -> isNormalModule env platform m = false.
Proof.
  unfold isBulkModule, isNormalModule.
  destruct (typeOf env m) as [ty|]; [|discriminate].
  destruct (ty =? "assets")%string, (ty =? "bootloader")%string,
    (externalStorage platform ty) as [[|]|]; simpl; congruence.
Qed.

Lemma assetBucket_fromAsset (sorted : list ParsedModule) (s : FlashStep) :
  In s (assetBucket env sorted) -> fromAsset env s = true.
Proof.
  unfold assetBucket. intros Hin. apply in_map_iff in Hin.
  destruct Hin as [m [<- Hm]]. apply filter_In in Hm.
  unfold normalStep. rewrite fromAsset_moduleStep. tauto.
Qed.

Lemma normalBucket_not_fromAsset (sorted : list ParsedModule) (s : FlashStep) :
  In s (normalBucket env platform sorted) -> fromAsset env s = false.
Proof.
  unfold normalBucket. intros Hin. apply in_map_iff in Hin.
  destruct Hin as [m [<- Hm]]. apply filter_In in Hm.
  unfold normalStep. rewrite fromAsset_moduleStep.
  apply asset_not_normal. tauto.
Qed.

Lemma bulkBucket_not_fromAsset (sorted : list ParsedModule) (s : FlashStep) :
  In s (bulkBucket env platform sorted) -> fromAsset env s = false.
Proof.
  unfold bulkBucket. intros Hin. apply in_flat_map in Hin.
  destruct Hin as [m [Hm Hs]]. apply filter_In in Hm.
  destruct Hm as [_ Hb]. apply asset_not_bulk in Hb.
  unfold bulkSteps in Hs.
  destruct (formerUserPart platform) as [seg|];
    [destruct (guardsLegacyRegion env platform m)|]; simpl in Hs;
    repeat (destruct Hs as [<-|Hs]; [try reflexivity|]); try contradiction;
    unfold bulkStep; now rewrite fromAsset_moduleStep.
Qed.

End PlannerOrder.

(** In a list made of a part without asset steps followed by asset steps
    only, no asset step comes before a step that is not one. *)
Lemma assets_after_others (env : PlannerEnv) (others assets : list FlashStep) :
  (forall s, In s others -> fromAsset env s = false) ->
  (forall s, In s assets -> fromAsset env s = true) ->
  forall (i j : nat) (s t : FlashStep),
    nth_error (others ++ assets) i = Some s ->
    nth_error (others ++ assets) j = Some t ->
    fromAsset env s = true -> fromAsset env t = false ->
    (j < i)%nat.
Proof.
  intros Ho Ha i j s t Hi Hj Hs Ht.
  assert (Hi' : (List.length others <= i)%nat).
  { destruct (Nat.le_gt_cases (List.length others) i) as [H|H]; [exact H|].
    rewrite nth_error_app1 in Hi by exact H.
    apply nth_error_In in Hi. apply Ho in Hi. congruence. }
  assert (Hj' : (j < List.length others)%nat).
  { destruct (Nat.le_gt_cases (List.length others) j) as [H|H]; [|exact H].
    rewrite nth_error_app2 in Hj by exact H.
    apply nth_error_In in Hj. apply Ha in Hj. congruence. }
  lia.
Qed.

(** C1. For a platform of the table, the planner returns exactly when every
    sorted module can be placed, and what it returns is the bulk array, then
    the normal array, then the asset array when the device is in DFU mode, and
    the normal array, then the bulk array, then the asset array otherwise; in
    both cases every step made from an asset module comes after every step
    that is not. *)
Theorem createFlashSteps_bucket_order
    (env : PlannerEnv) (modules : list ParsedModule) (isInDfuMode : bool)
    (platformId : Z) (platform : Platform) :
  findPlatform env platformId = Some platform ->
  let sorted := sortBinariesByDependency env modules in
  let bulkModules := bulkBucket env platform sorted in
  let normalModules := normalBucket env platform sorted in
  let assetModules := assetBucket env sorted in
  let concatenation :=
    if isInDfuMode
    then bulkModules ++ normalModules ++ assetModules
    else normalModules ++ bulkModules ++ assetModules in
  (forallb (routable env platform) sorted = true ->
   createFlashSteps env modules isInDfuMode platformId = Ok concatenation)
  /\ (forall steps,
        createFlashSteps env modules isInDfuMode platformId = Ok steps ->
        forallb (routable env platform) sorted = true
        /\ steps = concatenation
        /\ (forall (i j : nat) (s t : FlashStep),
              nth_error steps i = Some s -> nth_error steps j = Some t ->
              fromAsset env s = true -> fromAsset env t = false ->
              (j < i)%nat)).
Proof.
  intros Hp sorted bulkModules normalModules assetModules concatenation.
  split.
  - exact (createFlashSteps_routable env platform modules isInDfuMode
             platformId Hp).
  - intros steps Hrun.
    pose proof (createFlashSteps_ok_routable env platform modules isInDfuMode
                  platformId steps Hp Hrun) as Hr.
    pose proof (createFlashSteps_routable env platform modules isInDfuMode
                  platformId Hp Hr) as Hrun'.
    rewrite Hrun in Hrun'. inversion Hrun' as [Hsteps].
    split; [exact Hr|]. split; [reflexivity|].
    destruct isInDfuMode; rewrite app_assoc;
      apply assets_after_others;
      try (intros s Hs; now apply assetBucket_fromAsset in Hs);
      intros s Hs; apply in_app_or in Hs;
      destruct Hs as [Hs|Hs];
      solve [ now apply (normalBucket_not_fromAsset env platform) in Hs
            | now apply (bulkBucket_not_fromAsset env platform) in Hs ].
Qed.

Lemma createFlashSteps_bucket_order_witness :
  exists steps,
    createFlashSteps sampleEnv [logo; bootloader0; oldTinker] true 12
      = Ok steps
    /\ map name steps = ["old-tinker.bin"; "bootloader.bin"; "logo.png"].
Proof.
  destruct (createFlashSteps_bucket_order sampleEnv
              [logo; bootloader0; oldTinker] true 12 argon eq_refl)
    as [Hrun _].
  eexists. split; [exact (Hrun eq_refl)|reflexivity].
Defined.

(** ** The legacy-invalidation step *)

Section LegacyStep.

Variable env : PlannerEnv.
Variable platform : Platform.
Variable sorted : list ParsedModule.

Lemma guarded_app (l1 l2 : list FlashStep) :
  guarded env platform sorted l1 -> guarded env platform sorted l2 ->
  guarded env platform sorted (l1 ++ l2).
Proof.
  intros H1 H2. induction H1; simpl.
  - exact H2.
  - now apply guarded_module.
  - now apply guarded_legacy.
Qed.

Lemma guarded_normalSteps (l : list ParsedModule) :
  guarded env platform sorted (map (normalStep env) l).
Proof.
  induction l as [|m l IH]; simpl.
  - apply guarded_nil.
  - apply guarded_module; [reflexivity|exact IH].
Qed.

Lemma guarded_bulkSteps (l : list ParsedModule) :
  incl l sorted ->
  guarded env platform sorted (flat_map (bulkSteps env platform) l).
Proof.
  induction l as [|m l IH]; intros Hincl; simpl.
  - apply guarded_nil.
  - assert (Hm : In m sorted) by (apply Hincl; now left).
    assert (Hl : guarded env platform sorted
                   (flat_map (bulkSteps env platform) l)).
    { apply IH. intros x Hx. apply Hincl. now right. }
    unfold bulkSteps at 1.
    destruct (formerUserPart platform) as [seg|] eqn:Hseg.
    + destruct (guardsLegacyRegion env platform m) eqn:Hg; simpl.
      * now apply guarded_legacy.
      * apply guarded_module; [reflexivity|exact Hl].
    + simpl. apply guarded_module; [reflexivity|exact Hl].
Qed.

Lemma guarded_synthetic (l : list FlashStep) :
  guarded env platform sorted l ->
  forall pre s post,
    l = pre ++ s :: post -> isModuleStep s = false ->
    exists seg m post',
      formerUserPart platform = Some seg
      /\ s = formerUserPartflashStep seg
      /\ post = bulkStep env m :: post'
      /\ In m sorted
      /\ guardsLegacyRegion env platform m = true.
Proof.
  induction 1 as [|x l Hx Hl IH|seg m l Hseg Hm Hg Hl IH];
    intros pre s post Heq Hs.
  - destruct pre; discriminate.
  - destruct pre as [|y pre]; simpl in Heq; inversion Heq; subst.
    + congruence.
    + eapply IH; eauto.
  - destruct pre as [|y [|z pre]]; simpl in Heq; inversion Heq; subst.
    + exists seg, m, l. auto.
    + discriminate.
    + eapply IH; eauto.
Qed.

End LegacyStep.

Lemma guardsLegacyRegion_inv (env : PlannerEnv) (platform : Platform)
    (m : ParsedModule) :
  guardsLegacyRegion env platform m = true ->
  hasType env "userPart" m = true
  /\ 3103 <= depModuleVersion (prefixInfo m)
  /\ exists seg, formerUserPart platform = Some seg.
Proof.
  unfold guardsLegacyRegion. intros H. apply andb_true_iff in H.
  destruct H as [Ht Hv]. split; [exact Ht|].
  destruct (formerUserPart platform) as [seg|]; [|discriminate].
  split; [now apply Z.leb_le|now exists seg].
Qed.

Lemma userPart_is_bulk (env : PlannerEnv) (platform : Platform)
    (m : ParsedModule) :
  externalStorage platform "userPart" <> Some true ->
  routable env platform m = true ->
  hasType env "userPart" m = true ->
  isBulkModule env platform m = true.
Proof.
  unfold routable, isAssetModule, isNormalModule, isBulkModule, hasType.
  intros Hext Hr Ht.
  destruct (typeOf env m) as [ty|]; [|discriminate].
  apply String.eqb_eq in Ht. subst ty. simpl in *.
  destruct (externalStorage platform "userPart") as [[|]|]; simpl in *;
    congruence.
Qed.

Lemma createFlashSteps_guarded (env : PlannerEnv) (platform : Platform)
    (sorted : list ParsedModule) (isInDfuMode : bool) :
  guarded env platform sorted
    (if isInDfuMode
     then bulkBucket env platform sorted ++ normalBucket env platform sorted
          ++ assetBucket env sorted
     else normalBucket env platform sorted ++ bulkBucket env platform sorted
          ++ assetBucket env sorted).
Proof.
  assert (Hb : guarded env platform sorted (bulkBucket env platform sorted)).
  { apply guarded_bulkSteps. intros x Hx. apply filter_In in Hx. tauto. }
  destruct isInDfuMode; repeat apply guarded_app;
    solve [exact Hb | apply guarded_normalSteps].
Qed.

Lemma synthetic_in_bulkBucket (env : PlannerEnv) (platform : Platform)
    (sorted : list ParsedModule) (s : FlashStep) :
  In s (bulkBucket env platform sorted) ->
  isModuleStep s = false ->
  exists seg m,
    formerUserPart platform = Some seg
    /\ In m sorted
    /\ isBulkModule env platform m = true
    /\ guardsLegacyRegion env platform m = true.
Proof.
  unfold bulkBucket. rewrite in_flat_map.
  intros [m [Hm Hs]] Hsyn. apply filter_In in Hm. destruct Hm as [Hm Hbulk].
  unfold bulkSteps in Hs.
  destruct (formerUserPart platform) as [seg|] eqn:Hseg.
  - destruct (guardsLegacyRegion env platform m) eqn:Hg; simpl in Hs.
    + exists seg, m. auto.
    + destruct Hs as [<-|[]]. discriminate.
  - destruct Hs as [<-|[]]. discriminate.
Qed.

Lemma normalSteps_are_module_steps (env : PlannerEnv)
    (l : list ParsedModule) (s : FlashStep) :
  In s (map (normalStep env) l) -> isModuleStep s = true.
Proof.
  rewrite in_map_iff. intros [m [<- _]]. reflexivity.
Qed.

Lemma bulk_userPart_storage (env : PlannerEnv) (platform : Platform)
    (m : ParsedModule) :
  isBulkModule env platform m = true ->
  hasType env "userPart" m = true ->
  externalStorage platform "userPart" = Some false.
Proof.
  unfold isBulkModule, hasType.
  destruct (typeOf env m) as [ty|]; [|discriminate].
  intros Hbulk Hty. apply String.eqb_eq in Hty. subst ty.
  destruct (externalStorage platform "userPart") as [[|]|];
    simpl in Hbulk; try discriminate Hbulk; reflexivity.
Qed.

(** ** The address of the legacy region *)

Lemma hexDigit_agrees (c : ascii) (v : N) :
  HexString.ascii_to_digit c = Some v -> hexDigit c = Some (Z.of_N v).
Proof.
  destruct c as [[] [] [] [] [] [] [] []]; vm_compute; intros H;
    try discriminate H; inversion H; reflexivity.
Qed.

Lemma hexPrefix_digits (s : string) :
  allHexDigits s = true ->
  forall a : N,
    hexPrefix s (Some (Z.of_N a)) = Some (Z.of_N (HexString.Raw.to_N s a)).
Proof.
  induction s as [|c rest IH]; intros Hs a; [reflexivity|].
  cbn [allHexDigits] in Hs. cbn [hexPrefix HexString.Raw.to_N].
  destruct (HexString.ascii_to_digit c) as [v|] eqn:Hc; [|discriminate].
  rewrite (hexDigit_agrees c v Hc).
  replace (16 * Z.of_N a + Z.of_N v) with (Z.of_N (v + 16 * a)) by lia.
  apply IH. exact Hs.
Qed.

Lemma hexPrefix_first (c : ascii) (rest : string) :
  allHexDigits (String c rest) = true ->
  hexPrefix (String c rest) None
  = Some (Z.of_N (HexString.Raw.to_N (String c rest) 0)).
Proof.
  intros Hs. cbn [allHexDigits] in Hs.
  cbn [hexPrefix HexString.Raw.to_N].
  destruct (HexString.ascii_to_digit c) as [v|] eqn:Hc; [|discriminate].
  rewrite (hexDigit_agrees c v Hc).
  replace (16 * 0 + Z.of_N v) with (Z.of_N (v + 16 * 0)) by lia.
  now apply hexPrefix_digits.
Qed.

(** A run of hexadecimal digits is read whole: a digit is not white space,
    not a sign, and not the [x] of a prefix. *)
Lemma parseInt16_digits (c : ascii) (rest : string) :
  allHexDigits (String c rest) = true ->
  parseInt16 (String c rest)
  = Num (Z.of_N (HexString.Raw.to_N (String c rest) 0)).
Proof.
  intros Hs. pose proof (hexPrefix_first c rest Hs) as Hrest.
  assert (Hc : exists v, HexString.ascii_to_digit c = Some v).
  { cbn [allHexDigits] in Hs.
    destruct (HexString.ascii_to_digit c) as [v|]; [eauto|discriminate]. }
  assert (Hnext : forall c2 r2,
            rest = String c2 r2 ->
            exists v, HexString.ascii_to_digit c2 = Some v).
  { intros c2 r2 ->. cbn [allHexDigits] in Hs.
    destruct (HexString.ascii_to_digit c); [|discriminate].
    destruct (HexString.ascii_to_digit c2) as [v|]; [eauto|discriminate]. }
  destruct Hc as [v Hc]. revert Hrest.
  generalize (HexString.Raw.to_N (String c rest) 0). intros n Hrest.
  destruct c as [[] [] [] [] [] [] [] []]; try discriminate Hc; clear Hc;
    unfold parseInt16; cbn [trimStart];
    match goal with
    | |- context [isStrWhiteSpace ?x] =>
        change (isStrWhiteSpace x) with false
    end;
    cbv iota zeta beta; try (rewrite Hrest; reflexivity).
  all: destruct rest as [|c2 r2]; [rewrite Hrest; reflexivity|].
  all: destruct (Hnext c2 r2 eq_refl) as [v2 Hc2].
  all: destruct c2 as [[] [] [] [] [] [] [] []]; try discriminate Hc2;
    rewrite Hrest; reflexivity.
Qed.

Lemma parseInt16_hex_literal (s : string) :
  isHexLiteral s = true ->
  parseInt16 (replace_0x s) = Num (hexLiteralValue s).
Proof.
  unfold isHexLiteral, hexLiteralValue. intros Hs.
  destruct s as [|c0 [|c1 [|c rest]]]; try discriminate Hs;
    destruct c0 as [[] [] [] [] [] [] [] []]; try discriminate Hs;
    destruct c1 as [[] [] [] [] [] [] [] []]; try discriminate Hs.
  change (replace_0x (String "0" (String "x" (String c rest))))
    with (String c rest).
  change (HexString.to_N (String "0" (String "x" (String c rest))))
    with (HexString.Raw.to_N (String c rest) 0).
  now apply parseInt16_digits.
Qed.

(** Against C2 as stated: a profile that declares a legacy user-part region
    and a user part that requires base firmware 3200, yet no synthetic step
    in the plan.  The profile keeps its user part on the external MCU, so the
    module is written through the normal protocol and the planner never
    reaches the test for the legacy region. *)
Lemma legacy_region_without_invalidation :
  findPlatform externalEnv 77 = Some externalUser
  /\ formerUserPart externalUser
     = Some {| seg_address := "0xD4000"; seg_size := 16 |}
  /\ moduleFunction (prefixInfo externalApp) = USER_PART
  /\ depModuleVersion (prefixInfo externalApp) = 3200
  /\ createFlashSteps externalEnv [externalApp] false 77
     = Ok [normalStep externalEnv externalApp]
  /\ createFlashSteps externalEnv [externalApp] true 77
     = Ok [normalStep externalEnv externalApp]
  /\ isModuleStep (normalStep externalEnv externalApp) = true.
Proof. repeat split; reflexivity. Qed.

(** C2, amended. On a platform of the table, and with every sorted module
    placeable, the plan contains a synthetic step (one not made from a module
    file) if and only if the profile declares a legacy user-part region, some
    user part requires a base firmware of version 3103 or more, and the
    profile does not keep user parts on the external MCU.  Every such step is
    named for the invalidation, has mode [dfu], targets the legacy region's
    address (the number the profile writes as [0x] and hexadecimal digits),
    carries exactly the region's size in bytes, each 0xFF, and is directly
    followed by the step of a user part that requires it. *)
Theorem createFlashSteps_legacy_invalidation
    (env : PlannerEnv) (modules : list ParsedModule) (isInDfuMode : bool)
    (platformId : Z) (platform : Platform) :
  isProfileOf env platformId platform ->
  forallb (routable env platform) (sortBinariesByDependency env modules)
    = true ->
  exists steps,
    createFlashSteps env modules isInDfuMode platformId = Ok steps
    /\ ((exists s, In s steps /\ isModuleStep s = false)
        <->
        (exists seg m,
           formerUserPart platform = Some seg
           /\ In m (sortBinariesByDependency env modules)
           /\ hasType env "userPart" m = true
           /\ 3103 <= depModuleVersion (prefixInfo m)
           /\ externalStorage platform "userPart" = Some false))
    /\ (forall pre s post,
          steps = pre ++ s :: post -> isModuleStep s = false ->
          exists seg m post',
            formerUserPart platform = Some seg
            /\ name s = "invalidate-128k-user-part"
            /\ flashMode s = dfu
            /\ (isHexLiteral (seg_address seg) = true ->
                address s = Some (Num (hexLiteralValue (seg_address seg))))
            /\ Buffer_length (data s) = Z.of_N (seg_size seg)
            /\ Forall (eq xff) (data s)
            /\ post = bulkStep env m :: post'
            /\ In m (sortBinariesByDependency env modules)
            /\ hasType env "userPart" m = true
            /\ 3103 <= depModuleVersion (prefixInfo m)).
Proof.
  intros Hp Hr. apply isProfileOf_find in Hp.
  set (sorted := sortBinariesByDependency env modules) in *.
  pose proof (createFlashSteps_routable env platform modules isInDfuMode
                platformId Hp Hr) as Hrun.
  fold sorted in Hrun.
  pose proof (createFlashSteps_guarded env platform sorted isInDfuMode) as Hg.
  eexists. split; [exact Hrun|]. split; [split|].
  - intros [s [Hin Hs]].
    assert (Hbulk : In s (bulkBucket env platform sorted)).
    { destruct isInDfuMode;
        repeat (apply in_app_or in Hin; destruct Hin as [Hin|Hin]);
        try exact Hin;
        apply normalSteps_are_module_steps in Hin; congruence. }
    destruct (synthetic_in_bulkBucket env platform sorted s Hbulk Hs)
      as [seg [m [Hseg [Hm [Hb Hguard]]]]].
    apply guardsLegacyRegion_inv in Hguard.
    destruct Hguard as [Hty [Hv _]].
    exists seg, m. repeat split; auto.
    exact (bulk_userPart_storage env platform m Hb Hty).
  - intros [seg [m [Hseg [Hm [Hty [Hv Hext]]]]]].
    exists (formerUserPartflashStep seg). split; [|reflexivity].
    assert (Hin : In (formerUserPartflashStep seg)
                     (bulkBucket env platform sorted)).
    { unfold bulkBucket. apply in_flat_map. exists m. split.
      - apply filter_In. split; [exact Hm|].
        apply userPart_is_bulk; [rewrite Hext; discriminate| |exact Hty].
        unfold sorted in Hm.
        exact (proj1 (forallb_forall _ _) Hr m Hm).
      - unfold bulkSteps, guardsLegacyRegion. rewrite Hseg, Hty.
        apply Z.leb_le in Hv. rewrite Hv. simpl. now left. }
    destruct isInDfuMode; repeat (apply in_or_app; (now left) || right);
      try (apply in_or_app; now left); exact Hin.
  - intros pre s post Heq Hs.
    destruct (guarded_synthetic env platform sorted _ Hg pre s post Heq Hs)
      as [seg [m [post' [Hseg [-> [-> [Hm Hguard]]]]]]].
    apply guardsLegacyRegion_inv in Hguard.
    destruct Hguard as [Hty [Hv _]].
    exists seg, m, post'. repeat split; auto.
    + intros Hlit. simpl. now rewrite (parseInt16_hex_literal _ Hlit).
    + unfold Buffer_length, formerUserPartflashStep, Buffer_alloc. simpl.
      rewrite repeat_length. apply N_nat_Z.
    + simpl. unfold Buffer_alloc.
      apply Forall_forall. intros b Hb. apply repeat_spec in Hb. congruence.
Qed.

Lemma createFlashSteps_legacy_invalidation_witness :
  exists steps s,
    createFlashSteps sampleEnv [systemPart1; tinker] false 12 = Ok steps
    /\ In s steps
    /\ isModuleStep s = false
    /\ address s = Some (Num 868352).
Proof.
  destruct (createFlashSteps_legacy_invalidation sampleEnv
              [systemPart1; tinker] false 12 argon)
    as [steps [Hs [Hiff Hshape]]].
  - exists [], [p2]. split; [reflexivity|]. split; [reflexivity|].
    constructor.
  - reflexivity.
  - assert (Hsyn : exists s, In s steps /\ isModuleStep s = false).
    { apply Hiff.
      exists {| seg_address := "0xD4000"; seg_size := 16 |}, tinker.
      repeat split.
      - simpl. tauto.
      - simpl. lia. }
    destruct Hsyn as [s [Hin Hsyn]].
    destruct (in_split s steps Hin) as [pre [post Heq]].
    destruct (Hshape pre s post Heq Hsyn)
      as [seg [m [post' [Hseg [_ [_ [Haddr _]]]]]]].
    simpl in Hseg. inversion Hseg; subst seg.
    exists steps, s. split; [exact Hs|]. split; [exact Hin|].
    split; [exact Hsyn|]. exact (Haddr eq_refl).
Defined.

(** ** Order inside a bucket *)

Lemma filter_split {A : Type} (f : A -> bool) (l : list A) :
  forall ms1 m ms2,
    filter f l = ms1 ++ m :: ms2 ->
    exists l1 l2,
      l = l1 ++ m :: l2 /\ filter f l1 = ms1 /\ filter f l2 = ms2.
Proof.
  induction l as [|a l IH]; intros ms1 m ms2 Heq; simpl in Heq.
  - destruct ms1; discriminate.
  - destruct (f a) eqn:Hfa.
    + destruct ms1 as [|x ms1]; simpl in Heq; inversion Heq; subst.
      * exists [], l. auto.
      * destruct (IH _ _ _ H1) as [l1 [l2 [Hl [H1' H2']]]].
        exists (x :: l1), l2. simpl. rewrite Hfa. subst. auto.
    + destruct (IH _ _ _ Heq) as [l1 [l2 [Hl [H1' H2']]]].
      exists (a :: l1), l2. simpl. rewrite Hfa. subst. auto.
Qed.

Lemma dependencyOrdered_filter
    (dependsOn : ParsedModule -> ParsedModule -> bool)
    (f : ParsedModule -> bool) (l : list ParsedModule) :
  dependencyOrdered dependsOn l -> dependencyOrdered dependsOn (filter f l).
Proof.
  intros Hord ms1 m ms2 d Heq Hdep Hin.
  destruct (filter_split f l ms1 m ms2 Heq) as [l1 [l2 [Hl [H1 H2]]]].
  apply filter_In in Hin. destruct Hin as [Hin Hfd].
  destruct (Hord l1 m l2 d Hl Hdep Hin) as [Hbefore Hafter].
  subst ms1 ms2. split.
  - apply filter_In. auto.
  - intros Hd. apply filter_In in Hd. tauto.
Qed.

Lemma filter_isModuleStep_map (env : PlannerEnv) (mode : FlashMode)
    (addr : ParsedModule -> option JSNum) (l : list ParsedModule) :
  filter isModuleStep (map (fun m => moduleStep env m mode (addr m)) l)
  = map (fun m => moduleStep env m mode (addr m)) l.
Proof.
  induction l as [|m l IH]; simpl; [reflexivity|now rewrite IH].
Qed.

Lemma filter_isModuleStep_bulkSteps (env : PlannerEnv) (platform : Platform)
    (l : list ParsedModule) :
  filter isModuleStep (flat_map (bulkSteps env platform) l)
  = map (bulkStep env) l.
Proof.
  induction l as [|m l IH]; simpl; [reflexivity|].
  rewrite filter_app, IH. unfold bulkSteps.
  destruct (formerUserPart platform);
    [destruct (guardsLegacyRegion env platform m)|]; reflexivity.
Qed.

(** C3. For a platform of the table and sorted modules that can all be
    placed, each of the three arrays of the plan keeps the sorter's order: its
    steps made from modules are the steps of the sorted modules routed to it,
    in the order the sorter gave them.  Hence, when the sorter puts
    dependencies first, a dependency routed to the same array as a module lies
    before that module there, and never after it. *)
Theorem createFlashSteps_dependency_order
    (env : PlannerEnv) (dependsOn : ParsedModule -> ParsedModule -> bool)
    (modules : list ParsedModule) (isInDfuMode : bool)
    (platformId : Z) (platform : Platform) :
  findPlatform env platformId = Some platform ->
  forallb (routable env platform) (sortBinariesByDependency env modules)
    = true ->
  dependencyOrdered dependsOn (sortBinariesByDependency env modules) ->
  let sorted := sortBinariesByDependency env modules in
  let bulkModules := bulkBucket env platform sorted in
  let normalModules := normalBucket env platform sorted in
  let assetModules := assetBucket env sorted in
  let inAsset := filter (isAssetModule env) sorted in
  let inNormal := filter (isNormalModule env platform) sorted in
  let inBulk := filter (isBulkModule env platform) sorted in
  createFlashSteps env modules isInDfuMode platformId
    = Ok (if isInDfuMode
          then bulkModules ++ normalModules ++ assetModules
          else normalModules ++ bulkModules ++ assetModules)
  /\ filter isModuleStep assetModules = map (normalStep env) inAsset
  /\ filter isModuleStep normalModules = map (normalStep env) inNormal
  /\ filter isModuleStep bulkModules = map (bulkStep env) inBulk
  /\ dependencyOrdered dependsOn inAsset
  /\ dependencyOrdered dependsOn inNormal
  /\ dependencyOrdered dependsOn inBulk.
Proof.
  intros Hp Hr Hord. cbv zeta. split.
  - exact (createFlashSteps_routable env platform modules isInDfuMode
             platformId Hp Hr).
  - unfold assetBucket, normalBucket, bulkBucket, normalStep.
    rewrite !filter_isModuleStep_map, filter_isModuleStep_bulkSteps.
    do 3 (split; [reflexivity|]).
    split; [|split]; apply dependencyOrdered_filter; exact Hord.
Qed.

Lemma sample_dependencyOrdered :
  dependencyOrdered sampleDependsOn [bootloader0; systemPart1; tinker].
Proof.
  intros l1 m l2 d Heq Hdep Hin.
  destruct l1 as [|a [|b [|c l1]]]; simpl in Heq; inversion Heq; subst;
    try (destruct l1; discriminate);
    simpl in Hin; destruct Hin as [<-|[<-|[<-|[]]]];
    vm_compute in Hdep; try discriminate Hdep;
    (split; [simpl; tauto|intros Hd; vm_compute in Hd; intuition discriminate]).
Qed.

Lemma createFlashSteps_dependency_order_witness :
  dependencyOrdered sampleDependsOn
    (filter (isBulkModule sampleEnv argon) [bootloader0; systemPart1; tinker]).
Proof.
  pose proof (createFlashSteps_dependency_order sampleEnv sampleDependsOn
                [bootloader0; systemPart1; tinker] false 12 argon
                eq_refl eq_refl sample_dependencyOrdered) as H.
  cbv zeta in H. tauto.
Defined.

(** ** Base-firmware resolution *)

Section ResolutionFacts.

Variable api : Catalog.

Lemma _pickApplicationBinary_spec (modules : list ParsedModule) :
  _pickApplicationBinary api modules
  = match applicationOf modules with
    | Some app =>
        ((Some app, requiredVersion api app),
         [LookupVersion (platformID (prefixInfo app))
                        (depModuleVersion (prefixInfo app))])
    | None => ((None, None), [])
    end.
Proof.
  unfold applicationOf, requiredVersion.
  induction modules as [|m rest IH]; simpl; [reflexivity|].
  destruct (FunctionType_eqb (moduleFunction (prefixInfo m)) USER_PART);
    [|exact IH].
  now destruct (getDeviceOsVersions api (platformID (prefixInfo m))
                  (depModuleVersion (prefixInfo m))).
Qed.

Lemma pick_log_no_download (modules : list ParsedModule) :
  filter isDownload (snd (_pickApplicationBinary api modules)) = [].
Proof.
  rewrite _pickApplicationBinary_spec.
  destruct (applicationOf modules); reflexivity.
Qed.

Lemma systemPartBinaries_empty (modules : list ParsedModule) :
  includesDeviceOs modules = false ->
  filter (fun m =>
            FunctionType_eqb (moduleFunction (prefixInfo m)) SYSTEM_PART
            || FunctionType_eqb (moduleFunction (prefixInfo m)) BOOTLOADER)
         modules = [].
Proof.
  unfold includesDeviceOs. induction modules as [|m rest IH]; simpl;
    [reflexivity|].
  destruct (FunctionType_eqb (moduleFunction (prefixInfo m)) SYSTEM_PART
            || FunctionType_eqb (moduleFunction (prefixInfo m)) BOOTLOADER);
    simpl; [discriminate|exact IH].
Qed.

Lemma systemPartBinaries_nonempty (modules : list ParsedModule) :
  includesDeviceOs modules = true ->
  exists m rest,
    filter (fun m =>
              FunctionType_eqb (moduleFunction (prefixInfo m)) SYSTEM_PART
              || FunctionType_eqb (moduleFunction (prefixInfo m)) BOOTLOADER)
           modules = m :: rest.
Proof.
  unfold includesDeviceOs. induction modules as [|m rest IH]; simpl;
    [discriminate|].
  destruct (FunctionType_eqb (moduleFunction (prefixInfo m)) SYSTEM_PART
            || FunctionType_eqb (moduleFunction (prefixInfo m)) BOOTLOADER);
    simpl; [intros _; eauto|exact IH].
Qed.

Lemma download_fetches (platformId : Z) (v : string) (omit : bool)
    (log : list ApiCall) :
  filter isDownload log = [] ->
  fetchesVersion api platformId v omit (download api platformId v omit log).
Proof.
  intros Hlog. unfold fetchesVersion, download. simpl.
  rewrite filter_app, Hlog. auto.
Qed.

End ResolutionFacts.

(** The resolution, read through the application, its looked-up version and
    the presence of base-firmware modules. *)
Lemma resolution_unfold
    (api : Catalog) (skipDeviceOSFlash : bool) (target : option string)
    (modules : list ParsedModule) (currentDeviceOsVersion : option string)
    (platformId : Z) (applicationOnly : bool) :
  _getDeviceOsBinaries api skipDeviceOSFlash target modules
    currentDeviceOsVersion platformId applicationOnly
  = let log := snd (_pickApplicationBinary api modules) in
    if includesDeviceOs modules then (Ok [], log)
    else
      match applicationOf modules with
      | None => (Ok [], log)
      | Some app =>
          if applicationOnly then (Ok [], log)
          else if truthy target then
            match target with
            | Some t => download api platformId t true log
            | None => (Ok [], log)
            end
          else if skipDeviceOSFlash then (Ok [], log)
          else if truthy (requiredVersion api app)
                  && truthy currentDeviceOsVersion then
            match requiredVersion api app, currentDeviceOsVersion with
            | Some appVersion, Some current =>
                match semver_lt api current appVersion with
                | Ok true => download api platformId appVersion false log
                | Ok false => (Ok [], log)
                | Throw e => (Throw e, log)
                end
            | _, _ => (Ok [], log)
            end
          else (Ok [], log)
      end.
Proof.
  unfold _getDeviceOsBinaries. rewrite _pickApplicationBinary_spec.
  destruct (includesDeviceOs modules) eqn:Hos.
  - destruct (systemPartBinaries_nonempty modules Hos) as [m [rest Hm]].
    destruct (applicationOf modules); rewrite Hm; reflexivity.
  - rewrite (systemPartBinaries_empty modules Hos).
    destruct (applicationOf modules); reflexivity.
Qed.

(** C6. Base-firmware resolution decides in this order, the first match
    winning: (1) a system part or a boot loader in the set: nothing is
    fetched; (2) no application in the set: nothing; (3) application-only:
    nothing; (4) a target version given: that version's binaries are fetched;
    (5) the skip flag: nothing; (6) otherwise the version required by the
    application is fetched when the installed version compares strictly older,
    and nothing is fetched when it does not or when either version is
    unknown. *)
Theorem getDeviceOsBinaries_decision_order
    (api : Catalog) (skipDeviceOSFlash : bool) (target : option string)
    (modules : list ParsedModule) (currentDeviceOsVersion : option string)
    (platformId : Z) (applicationOnly : bool) :
  let r := _getDeviceOsBinaries api skipDeviceOSFlash target modules
             currentDeviceOsVersion platformId applicationOnly in
  (includesDeviceOs modules = true -> fetchesNothing r)
  /\ (includesDeviceOs modules = false ->
      applicationOf modules = None -> fetchesNothing r)
  /\ (forall app,
        includesDeviceOs modules = false ->
        applicationOf modules = Some app ->
        (applicationOnly = true -> fetchesNothing r)
        /\ (applicationOnly = false ->
            forall t, target = Some t -> t <> "" ->
            fetchesVersion api platformId t true r)
        /\ (applicationOnly = false -> truthy target = false ->
            skipDeviceOSFlash = true -> fetchesNothing r)
        /\ (applicationOnly = false -> truthy target = false ->
            skipDeviceOSFlash = false ->
            (forall required installed,
               requiredVersion api app = Some required -> required <> "" ->
               currentDeviceOsVersion = Some installed -> installed <> "" ->
               (semver_lt api installed required = Ok true ->
                fetchesVersion api platformId required false r)
               /\ (semver_lt api installed required = Ok false ->
                   fetchesNothing r))
            /\ (truthy (requiredVersion api app)
                && truthy currentDeviceOsVersion = false ->
                fetchesNothing r))).
Proof.
  intros r. subst r. rewrite resolution_unfold. cbv zeta.
  pose proof (pick_log_no_download api modules) as Hlog.
  split; [|split].
  - intros ->. split; simpl; auto.
  - intros -> ->. split; simpl; auto.
  - intros app -> ->.
    split; [|split; [|split]].
    + intros ->. split; simpl; auto.
    + intros -> t -> Ht. simpl.
      apply String.eqb_neq in Ht. rewrite Ht. simpl.
      now apply download_fetches.
    + intros -> -> ->. split; simpl; auto.
    + intros -> -> ->. split.
      * intros required installed Hreq Hr Hcur Hi.
        rewrite Hreq, Hcur. simpl.
        apply String.eqb_neq in Hr, Hi. rewrite Hr, Hi. simpl.
        split; intros Hlt; rewrite Hlt.
        -- now apply download_fetches.
        -- split; simpl; auto.
      * intros ->. split; simpl; auto.
Qed.

Lemma getDeviceOsBinaries_decision_order_witness :
  fetchesVersion onlineCatalog 12 "4.0.0" false
    (_getDeviceOsBinaries onlineCatalog false None [tinker] (Some "3.1.0")
       12 false)
  /\ fetchesNothing
       (_getDeviceOsBinaries onlineCatalog false None [tinker; systemPart1]
          (Some "3.1.0") 12 false).
Proof.
  split.
  - destruct (getDeviceOsBinaries_decision_order onlineCatalog false None
                [tinker] (Some "3.1.0") 12 false) as [_ [_ H]].
    destruct (H tinker eq_refl eq_refl) as [_ [_ [_ H6]]].
    destruct (H6 eq_refl eq_refl eq_refl) as [Hcmp _].
    apply (Hcmp "4.0.0" "3.1.0"); try reflexivity; discriminate.
  - destruct (getDeviceOsBinaries_decision_order onlineCatalog false None
                [tinker; systemPart1] (Some "3.1.0") 12 false) as [H1 _].
    apply H1. reflexivity.
Defined.

(** Against C7 as stated: with the catalog lookup failing, a target version
    is fetched all the same, so the resolution does not come down to fetching
    nothing. *)
Lemma lookup_failure_target_still_fetched :
  applicationOf [tinker] = Some tinker
  /\ lookupFails offlineCatalog tinker
  /\ ~ fetchesNothing
         (_getDeviceOsBinaries offlineCatalog false (Some "5.0.0") [tinker]
            (Some "3.1.0") 12 false).
Proof.
  split; [reflexivity|split].
  - eexists. reflexivity.
  - intros [Hr _]. vm_compute in Hr. discriminate Hr.
Qed.

(** C7, amended. When the catalog lookup of the application's required
    version fails, the error is caught and the version is treated as absent;
    the resolution then fetches nothing, except that a target version given
    explicitly (with no system part or boot loader in the set and
    application-only off) is still fetched.  The lookup's error is never the
    result. *)
Theorem lookup_failure_is_not_fatal
    (api : Catalog) (skipDeviceOSFlash : bool) (target : option string)
    (modules : list ParsedModule) (currentDeviceOsVersion : option string)
    (platformId : Z) (applicationOnly : bool) (app : ParsedModule) :
  applicationOf modules = Some app ->
  lookupFails api app ->
  let r := _getDeviceOsBinaries api skipDeviceOSFlash target modules
             currentDeviceOsVersion platformId applicationOnly in
  fst (_pickApplicationBinary api modules) = (Some app, None)
  /\ (if negb (includesDeviceOs modules) && negb applicationOnly
         && truthy target
      then exists t, target = Some t /\ fetchesVersion api platformId t true r
      else fetchesNothing r).
Proof.
  intros Happ [e He] r.
  assert (Hreq : requiredVersion api app = None).
  { unfold requiredVersion. now rewrite He. }
  split.
  - rewrite _pickApplicationBinary_spec, Happ, Hreq. reflexivity.
  - subst r. rewrite resolution_unfold. cbv zeta.
    pose proof (pick_log_no_download api modules) as Hlog.
    rewrite Happ, Hreq.
    destruct (includesDeviceOs modules); simpl; [split; simpl; auto|].
    destruct applicationOnly; simpl; [split; simpl; auto|].
    destruct target as [t|]; simpl.
    + destruct (t =? "")%string; simpl.
      * destruct skipDeviceOSFlash; split; simpl; auto.
      * exists t. split; [reflexivity|]. now apply download_fetches.
    + destruct skipDeviceOSFlash; split; simpl; auto.
Qed.

Lemma lookup_failure_is_not_fatal_witness :
  fetchesNothing
    (_getDeviceOsBinaries offlineCatalog false None [tinker] (Some "3.1.0")
       12 false).
Proof.
  destruct (lookup_failure_is_not_fatal offlineCatalog false None [tinker]
              (Some "3.1.0") 12 false tinker) as [_ H].
  - reflexivity.
  - eexists. reflexivity.
  - exact H.
Defined.

(** ** The module validator *)

Lemma FunctionType_eqb_eq (f g : FunctionType) :
  FunctionType_eqb f g = true <-> f = g.
Proof.
  unfold FunctionType_eqb. split.
  - destruct f, g; simpl; intros H; try reflexivity; discriminate H.
  - intros ->. apply Z.eqb_refl.
Qed.




(** ** The entry point: the calls it records *)

Section EntryPointFacts.

Variable env : PlannerEnv.
Variable host : Host.
Variable isInteractive : bool.

Lemma call_calls (c : Call) (w w1 : World) (o : Outcome) :
  call c w = (Ok o, w1) -> calls w1 = calls w ++ [c].
Proof.
  unfold call. destruct (script w); intros H; inversion H; reflexivity.
Qed.

Lemma getOneUsbDevice_calls (w w1 : World) (device : Device) :
  getOneUsbDevice host w = (Ok device, w1) ->
  calls w1 = calls w ++ [GetOneUsbDevice].
Proof.
  unfold getOneUsbDevice, bind, call, settle, openHandle, ret, throw.
  destruct (script w) as [|[r|r] rest]; intros H; inversion H; reflexivity.
Qed.


Lemma close_error (device : Device) (w : World) (e : JSError) :
  fst (close device w) = Throw e -> e = Rejected "device.close".
Proof.
  unfold close, bind, call, settle, markClosed, ret, throw.
  destruct (script w) as [|[r|r] rest]; simpl; intros H;
    inversion H; reflexivity.
Qed.

(** The only error [flashOverUsb] lets out is a rejection of the [close] in
    its own [catch] block. *)
Lemma flashOverUsb_lets_out_close_only (binary : string) (factory : bool)
    (w : World) (e : JSError) :
  fst (flashOverUsb env host isInteractive binary factory w) = Throw e ->
  e = Rejected "device.close".
Proof.
  unfold flashOverUsb.
  destruct (getFilenameExt host binary =? ".zip")%string; [discriminate|].
  destruct (getOneUsbDevice host w) as [[device|e1] w1]; [|discriminate].
  destruct (flashOverUsbWith env host isInteractive device binary factory w1)
    as [[u|e2] w2]; [discriminate|].
  apply close_error.
Qed.

End EntryPointFacts.

(** ** Closing the device handle *)

Lemma closeCount_app (h : nat) (cs1 cs2 : list Call) :
  closeCount h (cs1 ++ cs2) = (closeCount h cs1 + closeCount h cs2)%nat.
Proof. unfold closeCount. now rewrite filter_app, length_app. Qed.

(** The [finally] block of [flashFiles] calls [close] once on the device
    object it holds when that object is open, and not at all otherwise. *)
Lemma flashCleanup_closes_open_handle (flashSteps : list FlashStep)
    (isInteractive : bool) (device : Device) (resetAfterFlash : bool)
    (w : World) :
  closeCount (handle device)
    (calls (snd (flashCleanup flashSteps isInteractive device
                   resetAfterFlash w)))
  = (closeCount (handle device) (calls w)
     + if isOpen (handleState w (handle device)) then 1 else 0)%nat.
Proof.
  unfold flashCleanup, bind, report, deviceIsOpen, handleState.
  assert (Hfin : forall p,
             fst (progressHandler flashSteps isInteractive p Finish) = Ok tt).
  { intros p. simpl. now destruct isInteractive. }
  specialize (Hfin (progress w)).
  destruct (progressHandler flashSteps isInteractive (progress w) Finish)
    as [r p]. simpl in Hfin. subst r. simpl.
  destruct (isOpen (nth (handle device) (handles w) closedHandle));
    [|simpl; lia].
  destruct resetAfterFlash.
  - unfold tryCatch, reset, close, bind, call, settle, markClosed, ret, throw.
    simpl.
    destruct (script w) as [|[r1|r1] [|[r2|r2] rest]]; simpl;
      rewrite ?closeCount_app; unfold closeCount; simpl;
      rewrite Nat.eqb_refl; simpl; lia.
  - unfold close, bind, call, settle, markClosed, ret, throw. simpl.
    destruct (script w) as [|[r1|r1] rest]; simpl;
      rewrite ?closeCount_app; unfold closeCount; simpl;
      rewrite Nat.eqb_refl; simpl; lia.
Qed.

(** With [validateDFUSupport] defined, a run that succeeds closes the device
    once. *)
Lemma flashOverUsb_success_closes_once :
  fst (flashOverUsb sampleEnv sampleHostWithHelper false "tinker" false
         (emptyWorld []))
  = Ok tt
  /\ closeCount 0
       (calls (snd (flashOverUsb sampleEnv sampleHostWithHelper false "tinker"
                      false (emptyWorld []))))
     = 1%nat.
Proof. split; reflexivity. Qed.

(** With [validateDFUSupport] defined, a device in DFU mode, one user part
    to write and the write rejected: [flashFiles] resets and closes the
    device in its [finally] block, and the [catch] block of [flashOverUsb]
    closes the same device object again. *)
Lemma flashOverUsb_closes_twice_with_helper :
  fst (flashOverUsbTry sampleEnv sampleHostWithHelper true "fw/old-tinker.bin"
         false (emptyWorld [Resolves []; Rejects []]))
  = Throw (Rejected "device.writeOverDfu")
  /\ calls (snd (flashOverUsb sampleEnv sampleHostWithHelper true
                   "fw/old-tinker.bin" false
                   (emptyWorld [Resolves []; Rejects []])))
     = [GetOneUsbDevice;
        WriteOverDfu 0 [x01; x02; x03; x04] 0 (Some (Num 868352));
        ResetDevice 0; CloseDevice 0; CloseDevice 0]
  /\ closeCount 0
       (calls (snd (flashOverUsb sampleEnv sampleHostWithHelper true
                      "fw/old-tinker.bin" false
                      (emptyWorld [Resolves []; Rejects []]))))
     = 2%nat.
Proof. repeat split; reflexivity. Qed.

(** With [validateDFUSupport] defined, a local flash of a file whose
    checksum does not validate: the validator's error leaves [flashLocal]
    with the device open and unclosed. *)
Lemma flashLocal_validation_failure_with_helper :
  fst (flashLocal sampleEnv sampleFs sampleHostWithHelper onlineCatalog false
         ["fw/corrupt.bin"] false None (emptyWorld []))
  = (Throw (Error "CRC check failed for module fw/corrupt.bin"), [])
  /\ calls (snd (flashLocal sampleEnv sampleFs sampleHostWithHelper
                   onlineCatalog false ["fw/corrupt.bin"] false None
                   (emptyWorld [])))
     = [GetOneUsbDevice]
  /\ isOpen
       (handleState
          (snd (flashLocal sampleEnv sampleFs sampleHostWithHelper
                  onlineCatalog false ["fw/corrupt.bin"] false None
                  (emptyWorld []))) 0)
     = true.
Proof. repeat split; reflexivity. Qed.

(** C8. A local flash of one binary, as the code stands: the device is
    found and opened, the line that announces the flash is written, and the
    call of [validateDFUSupport] throws.  [flashLocal] has neither [catch]
    nor [finally] around it: the error leaves [flashLocal] with the device
    object open, [close] was never called on it, and no request went to the
    catalog.  On the same failure [flashOverUsb] closes the device once, in
    its [catch] block. *)
Theorem flashLocal_leaves_device_open :
  fst (flashLocal sampleEnv sampleFs sampleHost onlineCatalog false
         ["fw/tinker.bin"] false None (emptyWorld []))
  = (Throw (TypeError "validateDFUSupport is not a function"), [])
  /\ calls (snd (flashLocal sampleEnv sampleFs sampleHost onlineCatalog false
                   ["fw/tinker.bin"] false None (emptyWorld [])))
     = [GetOneUsbDevice]
  /\ closeCount 0
       (calls (snd (flashLocal sampleEnv sampleFs sampleHost onlineCatalog
                      false ["fw/tinker.bin"] false None (emptyWorld []))))
     = 0%nat
  /\ isOpen
       (handleState
          (snd (flashLocal sampleEnv sampleFs sampleHost onlineCatalog false
                  ["fw/tinker.bin"] false None (emptyWorld []))) 0)
     = true
  /\ written (snd (flashLocal sampleEnv sampleFs sampleHost onlineCatalog
                     false ["fw/tinker.bin"] false None (emptyWorld [])))
     = ["Flashing argon e00fce68f15867a3c4762226"]
  /\ calls (snd (flashOverUsb sampleEnv sampleHost false "fw/tinker.bin"
                   false (emptyWorld [])))
     = [GetOneUsbDevice; CloseDevice 0].
Proof. repeat split; reflexivity. Qed.

(** ** Errors at the entry point *)

(** C9. As the code stands the [try] block of [flashOverUsb] raises the
    TypeError of the call of [validateDFUSupport] (or, for a zipped bundle,
    its own error about bundles), yet [flashOverUsb] returns normally and
    [flash] goes on to write its success message.  With [validateDFUSupport]
    defined the failures that follow are lost the same way: the CRC failure
    of a module whose checksum does not validate, raised with the name of the
    file, and a rejected write.  Nothing reaches the caller. *)
Theorem flashOverUsb_swallows_failures :
  (fst (flashOverUsbTry sampleEnv sampleHost true "fw/corrupt.bin" false
          (emptyWorld []))
   = Throw (TypeError "validateDFUSupport is not a function")
   /\ fst (flashOverUsb sampleEnv sampleHost true "fw/corrupt.bin" false
             (emptyWorld []))
      = Ok tt
   /\ fst (flashViaUsb sampleEnv sampleHost true "fw/corrupt.bin" false
             (emptyWorld []))
      = Ok tt
   /\ written (snd (flashViaUsb sampleEnv sampleHost true "fw/corrupt.bin"
                      false (emptyWorld [])))
      = ["Flash success!"]
   /\ fst (flashOverUsbTry sampleEnv sampleHost true "bundle.zip" false
             (emptyWorld []))
      = Throw (Error "Use 'particle flash --local' to flash a zipped bundle.")
   /\ fst (flashViaUsb sampleEnv sampleHost true "bundle.zip" false
             (emptyWorld []))
      = Ok tt
   /\ written (snd (flashViaUsb sampleEnv sampleHost true "bundle.zip" false
                      (emptyWorld [])))
      = ["Flash success!"])
  /\ (fst (flashOverUsbTry sampleEnv sampleHostWithHelper true "fw/corrupt.bin"
             false (emptyWorld []))
      = Throw (Error "CRC check failed for module fw/corrupt.bin")
      /\ fst (flashOverUsb sampleEnv sampleHostWithHelper true "fw/corrupt.bin"
                false (emptyWorld []))
         = Ok tt
      /\ written (snd (flashViaUsb sampleEnv sampleHostWithHelper true
                         "fw/corrupt.bin" false (emptyWorld [])))
         = ["Flash success!"]
      /\ fst (flashOverUsbTry sampleEnv sampleHostWithHelper true
                "fw/old-tinker.bin" false
                (emptyWorld [Resolves []; Rejects []]))
         = Throw (Rejected "device.writeOverDfu")
      /\ fst (flashViaUsb sampleEnv sampleHostWithHelper true
                "fw/old-tinker.bin" false
                (emptyWorld [Resolves []; Rejects []]))
         = Ok tt).
Proof. repeat split; reflexivity. Qed.

(** ** The progress handler: the cap on erase progress *)

Lemma sum_nonneg (l : list Z) : Forall (fun b => 0 <= b) l -> 0 <= sum l.
Proof.
  induction 1 as [|b l Hb Hl IH]; simpl; lia.
Qed.

Lemma Buffer_length_nonneg (buf : Buffer) : 0 <= Buffer_length buf.
Proof. unfold Buffer_length. lia. Qed.

Lemma multiplierOf_pos (s : FlashStep) : 1 <= multiplierOf s.
Proof.
  unfold multiplierOf, NORMAL_MULTIPLIER. destruct (flashMode s); lia.
Qed.

Lemma reportErased_not_interactive (flashSteps : list FlashStep)
    (st : Progress) (reports : list Z) :
  reportErased flashSteps false st reports = st.
Proof.
  revert st. induction reports as [|b rest IH]; intros st; simpl;
    [reflexivity|apply IH].
Qed.

(** Once a step is being tracked, the erased size follows the reports up to
    the length of that step's payload and stays there; the bar advances by
    what the erased size has gained, weighted by the multiplier. *)
Lemma reportErased_capped (flashSteps : list FlashStep) (s : FlashStep)
    (reports : list Z) :
  Forall (fun b => 0 <= b) reports ->
  forall st,
    step st = Some s ->
    0 <= eraseSize st <= Buffer_length (data s) ->
    let st' := reportErased flashSteps true st reports in
    step st' = Some s
    /\ flashMultiplier st' = flashMultiplier st
    /\ eraseSize st'
       = Z.min (eraseSize st + sum reports) (Buffer_length (data s))
    /\ barValue (progressBar st')
       = barValue (progressBar st)
         + (eraseSize st' - eraseSize st) * flashMultiplier st.
Proof.
  induction 1 as [|b rest Hb Hrest IH]; intros st Hstep Hsize; simpl.
  - repeat split; auto; lia.
  - pose proof (sum_nonneg rest Hrest) as Hsum.
    rewrite Hstep. rewrite Z.gtb_ltb.
    destruct (Z.ltb_spec (Buffer_length (data s)) (eraseSize st + b))
      as [Hover|Hfits]; cbn [snd].
    + specialize (IH (increment
                        ((Buffer_length (data s) - eraseSize st)
                         * flashMultiplier st)
                        (Buffer_length (data s)) st)).
      simpl in IH. destruct (IH Hstep ltac:(lia)) as [H1 [H2 [H3 H4]]].
      repeat split; auto.
      * rewrite H3. lia.
      * rewrite H4, H3. lia.
    + specialize (IH (increment (b * flashMultiplier st)
                        (eraseSize st + b) st)).
      simpl in IH. destruct (IH Hstep ltac:(lia)) as [H1 [H2 [H3 H4]]].
      repeat split; auto.
      * rewrite H3. f_equal. lia.
      * rewrite H4, H3. lia.
Qed.

(** The erase progress shown for a file is the reported bytes, cut off at the
    payload length of the step the handler finds under the file's name. *)
Lemma erasedProgress_capped (flashSteps : list FlashStep)
    (isInteractive : bool) (st : Progress) (filename : string)
    (s : FlashStep) (reports : list Z) :
  find (fun x => (name x =? filename)%string) flashSteps = Some s ->
  Forall (fun b => 0 <= b) reports ->
  erasedProgress flashSteps isInteractive st filename reports
  = if isInteractive
    then Z.min (sum reports) (Buffer_length (data s)) * multiplierOf s
    else 0.
Proof.
  intros Hfind Hreports. unfold erasedProgress. simpl. rewrite Hfind. simpl.
  destruct isInteractive.
  - match goal with
    | |- context [reportErased _ _ ?st1 _] =>
        destruct (reportErased_capped flashSteps s reports Hreports st1
                    eq_refl) as [_ [_ [H3 H4]]]
    end.
    + simpl. pose proof (Buffer_length_nonneg (data s)). lia.
    + rewrite H4, H3. simpl. lia.
  - rewrite reportErased_not_interactive. simpl. lia.
Qed.

Lemma progressTotal_from (flashSteps : list FlashStep) (acc : Z) :
  fold_left
    (fun total s => total + Buffer_length (data s) * 2 * multiplierOf s)
    flashSteps acc
  = acc + progressTotal flashSteps.
Proof.
  unfold progressTotal. revert acc.
  induction flashSteps as [|s rest IH]; intros acc; simpl; [lia|].
  rewrite IH. rewrite (IH (Buffer_length (data s) * 2 * multiplierOf s)). lia.
Qed.

Lemma progressTotal_bounds_step (flashSteps : list FlashStep) (s : FlashStep) :
  In s flashSteps ->
  0 <= progressTotal flashSteps
  /\ Buffer_length (data s) * 2 * multiplierOf s <= progressTotal flashSteps.
Proof.
  assert (Hterm : forall x, 0 <= Buffer_length (data x) * 2 * multiplierOf x).
  { intros x. pose proof (Buffer_length_nonneg (data x)).
    pose proof (multiplierOf_pos x). nia. }
  assert (Hnonneg : forall l, 0 <= progressTotal l).
  { induction l as [|x l IH]; [unfold progressTotal; simpl; lia|].
    unfold progressTotal. simpl. rewrite progressTotal_from.
    pose proof (Hterm x). lia. }
  induction flashSteps as [|x rest IH]; intros Hin; [contradiction|].
  unfold progressTotal. simpl. rewrite progressTotal_from.
  pose proof (Hterm x). pose proof (Hnonneg rest).
  destruct Hin as [->|Hin].
  - lia.
  - destruct (IH Hin). lia.
Qed.

(** When the names of the steps are distinct, the handler finds each step
    under its own name. *)
Lemma find_by_name_distinct (flashSteps : list FlashStep) (s : FlashStep) :
  NoDup (map name flashSteps) -> In s flashSteps ->
  find (fun x => (name x =? name s)%string) flashSteps = Some s.
Proof.
  induction flashSteps as [|x rest IH]; intros Hnd Hin; [contradiction|].
  simpl in *. inversion Hnd as [|? ? Hx Hrest]; subst.
  destruct Hin as [->|Hin].
  - now rewrite String.eqb_refl.
  - destruct (String.eqb_spec (name x) (name s)) as [Heq|Hneq].
    + exfalso. apply Hx. rewrite Heq. now apply in_map.
    + now apply IH.
Qed.

(** With distinct step names the erase progress of every step stays within
    its own payload, grows with the reports, and stays within the total. *)
Lemma erase_progress_bounded_distinct_names (flashSteps : list FlashStep)
    (isInteractive : bool) (st : Progress) (s : FlashStep)
    (reports more : list Z) :
  NoDup (map name flashSteps) -> In s flashSteps ->
  Forall (fun b => 0 <= b) reports -> Forall (fun b => 0 <= b) more ->
  0 <= erasedProgress flashSteps isInteractive st (name s) reports
  /\ erasedProgress flashSteps isInteractive st (name s) reports
     <= Buffer_length (data s) * multiplierOf s
  /\ erasedProgress flashSteps isInteractive st (name s) reports
     <= erasedProgress flashSteps isInteractive st (name s) (reports ++ more)
  /\ erasedProgress flashSteps isInteractive st (name s) reports
     <= progressTotal flashSteps.
Proof.
  intros Hnd Hin Hr Hm.
  pose proof (find_by_name_distinct flashSteps s Hnd Hin) as Hfind.
  rewrite !(erasedProgress_capped flashSteps isInteractive st (name s) s)
    by (auto; apply Forall_app; auto).
  pose proof (sum_nonneg reports Hr) as Hs1.
  pose proof (sum_nonneg more Hm) as Hs2.
  pose proof (Buffer_length_nonneg (data s)) as Hlen.
  pose proof (multiplierOf_pos s) as Hmul.
  destruct (progressTotal_bounds_step flashSteps s Hin) as [Ht0 Ht].
  assert (Hsum : sum (reports ++ more) = sum reports + sum more).
  { clear. induction reports as [|b l IH]; simpl; [reflexivity|].
    rewrite IH. lia. }
  rewrite Hsum.
  destruct isInteractive; [|lia].
  repeat split; nia.
Qed.

(** C10. Two files of one base name, 4 bytes and 1 byte long, make a plan
    of two steps of the same name.  While the second is written the handler
    looks the step up by name, finds the first, and lets an erase report
    through up to the first payload's length: the erase progress shown for the
    1-byte step is 4, and the run ends with the bar at 13 of a total of 10. *)
Theorem erase_cap_uses_first_step_of_that_name :
  createFlashSteps sampleEnv [appLong; appShort] true 12 = Ok twoAppsPlan
  /\ map name twoAppsPlan = ["app.bin"; "app.bin"]
  /\ map (fun s => Buffer_length (data s) * multiplierOf s) twoAppsPlan
     = [4; 1]
  /\ erasedProgress twoAppsPlan true (_createFlashProgress twoAppsPlan true)
       "app.bin" [4096]
     = 4
  /\ (let bar :=
        progressBar
          (progress
             (snd (flashFiles twoAppsPlan true (attached sampleHost) false
                     sectorEraseWorld))) in
      barTotal bar = 10 /\ barValue bar = 13).
Proof. repeat split; reflexivity. Qed.

(** ** Worked examples *)

Example parseInt16_region_address :
  parseInt16 (replace_0x "0x08000000") = Num 134217728.
Proof. reflexivity. Qed.

Example parseInt16_module_address : parseInt16 "b4000" = Num 737280.
Proof. reflexivity. Qed.

Example parseInt16_no_digits : parseInt16 "0x" = NaN.
Proof. reflexivity. Qed.

(** Only the first [0x] is removed. *)
Example replace_0x_first_occurrence :
  replace_0x "0x0x10" = "0x10" /\ replace_0x "120x34" = "1234".
Proof. split; reflexivity. Qed.

(** An encrypted slot is dropped whatever the override says. *)
Example filter_drops_encrypted_slot :
  filterModulesToFlash sampleEnv [p2Preboot; p2App] 32 true = Ok [p2App].
Proof. reflexivity. Qed.

Example filter_override_keeps_coprocessor_firmware :
  filterModulesToFlash sampleEnv [tinker; ncp0; radio0] 12 true
  = Ok [tinker; ncp0; radio0].
Proof. reflexivity. Qed.

(** A user part that requires base firmware 3200 on a platform with a legacy
    region: the region is wiped just before the user part, after the system
    part the sorter put first. *)
Example plan_with_legacy_step :
  option_map (map (fun s => (name s, flashMode s, address s, data s)))
    (match createFlashSteps sampleEnv [systemPart1; tinker] false 12 with
     | Ok steps => Some steps
     | Throw _ => None
     end)
  = Some [("system-part1.bin", dfu, Some (Num 196608), [x01; x02; x03; x04]);
          ("invalidate-128k-user-part", dfu, Some (Num 868352),
           repeat xff 16);
          ("tinker.bin", dfu, Some (Num 737280), [x01; x02; x03; x04])].
Proof. reflexivity. Qed.

(** The same on a platform without a legacy region, and for an older
    requirement: no synthetic step. *)
Example plan_without_legacy_step :
  (exists steps,
     createFlashSteps sampleEnv [p2App] false 32 = Ok steps
     /\ map name steps = ["app.bin"])
  /\ (exists steps,
        createFlashSteps sampleEnv [oldTinker] false 12 = Ok steps
        /\ map name steps = ["old-tinker.bin"]).
Proof. split; eexists; split; reflexivity. Qed.

(** Coprocessor firmware goes through the normal protocol, assets last. *)
Example plan_routes_by_storage :
  option_map (map (fun s => (name s, flashMode s)))
    (match createFlashSteps sampleEnv [logo; oldTinker; ncp0; bootloader0]
             false 12 with
     | Ok steps => Some steps
     | Throw _ => None
     end)
  = Some [("ncp.bin", normal); ("bootloader.bin", normal);
          ("old-tinker.bin", dfu); ("logo.png", normal)].
Proof. reflexivity. Qed.

(** A module of another platform is refused, an asset of another platform is
    not. *)
Example validator_platform_mismatch :
  _validateModulesForPlatform [logo; tinker; p2App] 12 "argon"
  = Throw (Error "Module fw/app.bin is not compatible with platform argon").
Proof. reflexivity. Qed.

(** An application that requires 4.0.0 on a device that runs 3.1.0. *)
Example resolution_upgrades_older_device :
  _getDeviceOsBinaries onlineCatalog false None [tinker] (Some "3.1.0") 12 false
  = (Ok ["bootloader@4.0.0.bin"; "system-part1@4.0.0.bin"; "tinker@4.0.0.bin"],
     [LookupVersion 12 3200; Download 12 "4.0.0" false]).
Proof. reflexivity. Qed.

Example resolution_keeps_newer_device :
  _getDeviceOsBinaries onlineCatalog false None [tinker] (Some "5.3.0") 12 false
  = (Ok [], [LookupVersion 12 3200]).
Proof. reflexivity. Qed.

(** With [validateDFUSupport] defined, a boot loader written to a device
    found in DFU mode: the device is switched to normal mode, put in
    listening mode, written, reopened after the settle delay, and closed
    once. *)
Example flashOverUsb_switches_mode :
  calls (snd (flashOverUsb sampleEnv sampleHostWithHelper false
                "fw/bootloader.bin" false (emptyWorld [])))
  = [GetOneUsbDevice; ReopenInNormalMode 0 true; EnterListeningMode 1;
     UpdateFirmware 1 [x01; x02; x03; x04] 240000; Delay 3000;
     ReopenInNormalMode 1 false; CloseDevice 2].
Proof. reflexivity. Qed.

(** * Further properties of the code *)

(** ** The module filter over several lists *)

Section FilterLaws.

Variable env : PlannerEnv.
Variable allowAll : bool.

(** The loop only ever appends to the array it is given. *)
Lemma filterLoop_acc (platform : option Platform)
    (modules acc : list ParsedModule) :
  filterLoop env platform allowAll modules acc
  = kept <-? filterLoop env platform allowAll modules [] ;; Ok (acc ++ kept).
Proof.
  revert acc. induction modules as [|m rest IH]; intros acc; simpl.
  - now rewrite app_nil_r.
  - destruct (moduleTypeToString env (moduleFunction (prefixInfo m)))
      as [ty|e]; simpl; [|reflexivity].
    destruct platform as [p|]; [|reflexivity].
    rewrite IH. rewrite (IH (if keepModule p allowAll ty m then _ else _)).
    destruct (filterLoop env (Some p) allowAll rest []) as [kept|e]; simpl;
      [|reflexivity].
    destruct (keepModule p allowAll ty m); simpl;
      now rewrite <- ?app_assoc.
Qed.

Lemma filterLoop_app (platform : option Platform)
    (a b acc : list ParsedModule) :
  filterLoop env platform allowAll (a ++ b) acc
  = acc' <-? filterLoop env platform allowAll a acc ;;
    filterLoop env platform allowAll b acc'.
Proof.
  revert acc. induction a as [|m rest IH]; intros acc; simpl; [reflexivity|].
  destruct (moduleTypeToString env (moduleFunction (prefixInfo m)))
    as [ty|e]; simpl; [|reflexivity].
  destruct platform as [p|]; [|reflexivity].
  apply IH.
Qed.

End FilterLaws.

(** X1. Filtering two lists put end to end is filtering each and putting the
    results end to end; when one of them fails, the first failure is the
    result. *)
Theorem filterModulesToFlash_app
    (env : PlannerEnv) (a b : list ParsedModule) (platformId : Z)
    (allowAll : bool) :
  filterModulesToFlash env (a ++ b) platformId allowAll
  = ka <-? filterModulesToFlash env a platformId allowAll ;;
    kb <-? filterModulesToFlash env b platformId allowAll ;;
    Ok (ka ++ kb).
Proof.
  unfold filterModulesToFlash. rewrite filterLoop_app.
  destruct (filterLoop env (findPlatform env platformId) allowAll a [])
    as [ka|e]; simpl; [|reflexivity].
  apply filterLoop_acc.
Qed.

Lemma filterLoop_ok_typed (env : PlannerEnv) (platform : option Platform)
    (allowAll : bool) (modules acc kept : list ParsedModule) :
  filterLoop env platform allowAll modules acc = Ok kept ->
  forall m, In m modules -> exists ty, typeOf env m = Ok ty.
Proof.
  revert acc. induction modules as [|x rest IH]; intros acc Hrun m Hin;
    [contradiction|].
  simpl in Hrun. unfold typeOf.
  destruct (moduleTypeToString env (moduleFunction (prefixInfo x)))
    as [ty|e] eqn:Hx; simpl in Hrun; [|discriminate].
  destruct platform as [p|]; [|discriminate].
  destruct Hin as [<-|Hin]; [eauto|].
  exact (IH _ Hrun m Hin).
Qed.

Lemma filter_filter_same {A : Type} (f : A -> bool) (l : list A) :
  filter f (filter f l) = filter f l.
Proof.
  induction l as [|a l IH]; simpl; [reflexivity|].
  destruct (f a) eqn:Hfa; simpl; [rewrite Hfa, IH|]; auto.
Qed.

(** X2. Filtering what the filter returned returns it unchanged. *)
Theorem filterModulesToFlash_idempotent
    (env : PlannerEnv) (modules kept : list ParsedModule) (platformId : Z)
    (allowAll : bool) :
  filterModulesToFlash env modules platformId allowAll = Ok kept ->
  filterModulesToFlash env kept platformId allowAll = Ok kept.
Proof.
  unfold filterModulesToFlash. intros Hrun.
  destruct (findPlatform env platformId) as [p|].
  - pose proof (filterLoop_ok_typed env (Some p) allowAll modules [] kept Hrun)
      as Hty.
    rewrite (filterLoop_filter env p allowAll modules [] Hty) in Hrun.
    inversion Hrun as [Hkept]. simpl.
    rewrite (filterLoop_filter env p allowAll).
    + simpl. now rewrite filter_filter_same.
    + intros m Hin. apply filter_In in Hin. apply Hty. tauto.
  - destruct modules as [|m rest].
    + simpl in Hrun. inversion Hrun. reflexivity.
    + destruct (filterLoop_no_platform env allowAll m rest []) as [e He].
      congruence.
Qed.

Lemma filterModulesToFlash_idempotent_witness :
  filterModulesToFlash sampleEnv [tinker; systemPart1] 12 false
  = Ok [tinker; systemPart1].
Proof.
  apply (filterModulesToFlash_idempotent sampleEnv
           [tinker; ncp0; radio0; systemPart1]).
  reflexivity.
Defined.

Lemma keepModule_allowAll (platform : Platform) (ty : string)
    (m : ParsedModule) :
  keepModule platform false ty m
  = keepModule platform true ty m && notCoprocessor m.
Proof.
  unfold keepModule, notCoprocessor, radioStackModule, ncpFirmwareModule.
  destruct (findPlatformModule platform ty (moduleIndex (prefixInfo m)))
    as [s|]; [destruct (encrypted s)|];
    destruct (moduleFunction (prefixInfo m)); reflexivity.
Qed.

Lemma filterLoop_allowAll (env : PlannerEnv) (platform : option Platform)
    (modules : list ParsedModule) :
  filterLoop env platform false modules []
  = all <-? filterLoop env platform true modules [] ;;
    Ok (filter notCoprocessor all).
Proof.
  induction modules as [|m rest IH]; simpl; [reflexivity|].
  destruct (moduleTypeToString env (moduleFunction (prefixInfo m)))
    as [ty|e]; simpl; [|reflexivity].
  destruct platform as [p|]; [|reflexivity].
  rewrite (filterLoop_acc env false (Some p) rest
             (if keepModule p false ty m then _ else _)).
  rewrite (filterLoop_acc env true (Some p) rest
             (if keepModule p true ty m then _ else _)).
  rewrite IH.
  destruct (filterLoop env (Some p) true rest []) as [all|e]; simpl;
    [|reflexivity].
  rewrite keepModule_allowAll.
  destruct (keepModule p true ty m); simpl; [|reflexivity].
  now destruct (notCoprocessor m).
Qed.

(** X3. The override only lets radio-stack and coprocessor modules through:
    what the filter keeps without it is what it keeps with it, less those
    modules, and the two calls fail alike.  With the override the filter
    keeps exactly the modules whose platform slot is not marked encrypted, in
    the order given: nothing else makes it drop a module. *)
Theorem filterModulesToFlash_override
    (env : PlannerEnv) (modules : list ParsedModule) (platformId : Z) :
  filterModulesToFlash env modules platformId false
  = (all <-? filterModulesToFlash env modules platformId true ;;
     Ok (filter notCoprocessor all))
  /\ (forall platform all,
        isProfileOf env platformId platform ->
        filterModulesToFlash env modules platformId true = Ok all ->
        all = filter (fun m => negb (slotEncrypted env platform m)) modules).
Proof.
  split.
  - apply filterLoop_allowAll.
  - intros platform all Hprofile Hrun.
    apply isProfileOf_find in Hprofile.
    unfold filterModulesToFlash in Hrun. rewrite Hprofile in Hrun.
    pose proof (filterLoop_ok_typed env (Some platform) true modules [] all
                  Hrun) as Hty.
    rewrite (filterLoop_filter env platform true modules [] Hty) in Hrun.
    inversion Hrun. simpl. apply filter_ext. intros m.
    unfold dropped. now rewrite !andb_false_r, !orb_false_r.
Qed.

Lemma filterModulesToFlash_override_witness :
  [p2App]
  = filter (fun m => negb (slotEncrypted sampleEnv p2 m)) [p2Preboot; p2App].
Proof.
  apply (proj2 (filterModulesToFlash_override sampleEnv [p2Preboot; p2App]
                  32) p2 [p2App]).
  - exists [argon], []. split; [reflexivity|]. split; [reflexivity|].
    repeat constructor. discriminate.
  - reflexivity.
Defined.

(** X4. For a platform id that is not in the table the filter returns the
    empty list for no modules, and otherwise fails on its first module: with
    the error of naming the module's type if that throws, else with the
    TypeError of reading [firmwareModules] off an undefined profile. *)
Theorem filterModulesToFlash_unknown_platform
    (env : PlannerEnv) (platformId : Z) (allowAll : bool) :
  findPlatform env platformId = None ->
  filterModulesToFlash env [] platformId allowAll = Ok []
  /\ (forall m rest,
        filterModulesToFlash env (m :: rest) platformId allowAll
        = match typeOf env m with
          | Ok _ => Throw (TypeError "platform.firmwareModules")
          | Throw e => Throw e
          end).
Proof.
  intros Hp. unfold filterModulesToFlash, typeOf. rewrite Hp.
  split; [reflexivity|]. intros m rest. simpl.
  now destruct (moduleTypeToString env (moduleFunction (prefixInfo m))).
Qed.

Lemma filterModulesToFlash_unknown_platform_witness :
  filterModulesToFlash sampleEnv [tinker; logo] 99 true
  = Throw (TypeError "platform.firmwareModules").
Proof.
  destruct (filterModulesToFlash_unknown_platform sampleEnv 99 true eq_refl)
    as [_ H].
  exact (H tinker [logo]).
Defined.

(** ** The planner: counting, modes, and the mode flag *)

Section PlannerLaws.

Variable env : PlannerEnv.
Variable platform : Platform.

Lemma routable_partition (l : list ParsedModule) :
  forallb (routable env platform) l = true ->
  (List.length (filter (isAssetModule env) l)
   + List.length (filter (isNormalModule env platform) l)
   + List.length (filter (isBulkModule env platform) l))%nat
  = List.length l.
Proof.
  induction l as [|m l IH]; intros Hr; simpl; [reflexivity|].
  simpl in Hr. apply andb_true_iff in Hr. destruct Hr as [Hm Hl].
  specialize (IH Hl). unfold routable in Hm.
  destruct (isBulkModule env platform m) eqn:Hb.
  - rewrite (asset_not_bulk env platform m Hb),
            (normal_not_bulk env platform m Hb). simpl. lia.
  - destruct (isNormalModule env platform m) eqn:Hn.
    + rewrite (asset_not_normal env platform m Hn). simpl. lia.
    + destruct (isAssetModule env m); simpl in *; [lia|discriminate].
Qed.

Lemma bulkSteps_length (l : list ParsedModule) :
  List.length (flat_map (bulkSteps env platform) l)
  = (List.length l
     + List.length (filter (guardsLegacyRegion env platform) l))%nat.
Proof.
  induction l as [|m l IH]; simpl; [reflexivity|].
  rewrite length_app, IH. unfold bulkSteps at 1.
  destruct (formerUserPart platform) as [seg|] eqn:Hseg.
  - destruct (guardsLegacyRegion env platform m); simpl; lia.
  - unfold guardsLegacyRegion at 2. rewrite Hseg, andb_false_r. simpl. lia.
Qed.

Lemma buckets_addressed (sorted : list ParsedModule) :
  forallb addressMatchesMode (assetBucket env sorted) = true
  /\ forallb addressMatchesMode (normalBucket env platform sorted) = true
  /\ forallb addressMatchesMode (bulkBucket env platform sorted) = true.
Proof.
  unfold assetBucket, normalBucket, bulkBucket. repeat split.
  - induction (filter (isAssetModule env) sorted); simpl; auto.
  - induction (filter (isNormalModule env platform) sorted); simpl; auto.
  - induction (filter (isBulkModule env platform) sorted) as [|m l IH];
      simpl; [reflexivity|].
    rewrite forallb_app, IH, andb_true_r. unfold bulkSteps.
    destruct (formerUserPart platform);
      [destruct (guardsLegacyRegion env platform m)|]; reflexivity.
Qed.

End PlannerLaws.

(** The plan, whatever the profile: the concatenation of the three arrays
    when the platform is known, and nothing when no module was to be placed
    on an unknown one. *)
Lemma createFlashSteps_ok_inv (env : PlannerEnv) (modules : list ParsedModule)
    (isInDfuMode : bool) (platformId : Z) (steps : list FlashStep) :
  createFlashSteps env modules isInDfuMode platformId = Ok steps ->
  (exists platform,
     findPlatform env platformId = Some platform
     /\ forallb (routable env platform) (sortBinariesByDependency env modules)
        = true
     /\ steps
        = if isInDfuMode
          then bulkBucket env platform (sortBinariesByDependency env modules)
               ++ normalBucket env platform
                    (sortBinariesByDependency env modules)
               ++ assetBucket env (sortBinariesByDependency env modules)
          else normalBucket env platform
                 (sortBinariesByDependency env modules)
               ++ bulkBucket env platform
                    (sortBinariesByDependency env modules)
               ++ assetBucket env (sortBinariesByDependency env modules))
  \/ (findPlatform env platformId = None
      /\ sortBinariesByDependency env modules = [] /\ steps = []).
Proof.
  intros Hrun. destruct (findPlatform env platformId) as [p|] eqn:Hp.
  - left. exists p. split; [reflexivity|].
    pose proof (createFlashSteps_ok_routable env p modules isInDfuMode
                  platformId steps Hp Hrun) as Hr.
    split; [exact Hr|].
    pose proof (createFlashSteps_routable env p modules isInDfuMode
                  platformId Hp Hr) as Hrun'.
    congruence.
  - right. unfold createFlashSteps in Hrun. rewrite Hp in Hrun.
    destruct (sortBinariesByDependency env modules) as [|m rest] eqn:Hs.
    + simpl in Hrun. destruct isInDfuMode; inversion Hrun; auto.
    + destruct (planLoop_no_platform env (m :: rest) emptyBuckets
                  ltac:(discriminate)) as [e He].
      rewrite He in Hrun. discriminate.
Qed.

(** X5. A plan has one step for each sorted module, and one more for each
    bulk-routed user part that guards the legacy region. *)
Theorem createFlashSteps_step_count
    (env : PlannerEnv) (modules : list ParsedModule) (isInDfuMode : bool)
    (platformId : Z) (platform : Platform) (steps : list FlashStep) :
  findPlatform env platformId = Some platform ->
  createFlashSteps env modules isInDfuMode platformId = Ok steps ->
  let sorted := sortBinariesByDependency env modules in
  List.length (filter isModuleStep steps) = List.length sorted
  /\ List.length steps
     = (List.length sorted
        + List.length
            (filter (guardsLegacyRegion env platform)
               (filter (isBulkModule env platform) sorted)))%nat.
Proof.
  intros Hp Hrun sorted.
  destruct (createFlashSteps_ok_inv env modules isInDfuMode platformId steps
              Hrun) as [[p [Hp' [Hr Hsteps]]]|[Hp' _]]; [|congruence].
  assert (p = platform) by congruence. subst p. fold sorted in Hr, Hsteps.
  pose proof (routable_partition env platform sorted Hr) as Hpart.
  assert (Hmod :
    List.length (filter isModuleStep (assetBucket env sorted))
    = List.length (filter (isAssetModule env) sorted)
    /\ List.length (filter isModuleStep (normalBucket env platform sorted))
       = List.length (filter (isNormalModule env platform) sorted)
    /\ List.length (filter isModuleStep (bulkBucket env platform sorted))
       = List.length (filter (isBulkModule env platform) sorted)).
  { unfold assetBucket, normalBucket, bulkBucket, normalStep.
    rewrite !filter_isModuleStep_map, filter_isModuleStep_bulkSteps.
    now rewrite !length_map. }
  destruct Hmod as [Ha [Hn Hb]].
  assert (Hlen :
    List.length (assetBucket env sorted)
    = List.length (filter (isAssetModule env) sorted)
    /\ List.length (normalBucket env platform sorted)
       = List.length (filter (isNormalModule env platform) sorted)).
  { unfold assetBucket, normalBucket. now rewrite !length_map. }
  destruct Hlen as [Hla Hln].
  pose proof (bulkSteps_length env platform
                (filter (isBulkModule env platform) sorted)) as Hlb.
  fold (bulkBucket env platform sorted) in Hlb.
  subst steps. destruct isInDfuMode;
    rewrite !filter_app, !length_app; lia.
Qed.

Lemma createFlashSteps_step_count_witness :
  exists steps,
    createFlashSteps sampleEnv [systemPart1; tinker; logo] false 12 = Ok steps
    /\ List.length steps = 4%nat.
Proof.
  eexists. split; [reflexivity|].
  destruct (createFlashSteps_step_count sampleEnv [systemPart1; tinker; logo]
              false 12 argon _ eq_refl eq_refl) as [_ H].
  exact H.
Defined.

(** X6. In a plan every [dfu] step has an address and no [normal] step has
    one; the steps made from asset modules are [normal] steps. *)
Theorem createFlashSteps_addresses
    (env : PlannerEnv) (modules : list ParsedModule) (isInDfuMode : bool)
    (platformId : Z) (steps : list FlashStep) :
  createFlashSteps env modules isInDfuMode platformId = Ok steps ->
  forall s, In s steps ->
    addressMatchesMode s = true
    /\ (fromAsset env s = true -> flashMode s = normal).
Proof.
  intros Hrun s Hin.
  destruct (createFlashSteps_ok_inv env modules isInDfuMode platformId steps
              Hrun) as [[p [Hp [Hr Hsteps]]]|[_ [_ Hnil]]];
    [|subst steps; contradiction].
  destruct (buckets_addressed env p (sortBinariesByDependency env modules))
    as [Ha [Hn Hb]].
  assert (Hcases :
    In s (assetBucket env (sortBinariesByDependency env modules))
    \/ In s (normalBucket env p (sortBinariesByDependency env modules))
    \/ In s (bulkBucket env p (sortBinariesByDependency env modules))).
  { subst steps. destruct isInDfuMode;
      repeat (apply in_app_or in Hin; destruct Hin as [Hin|Hin]); auto. }
  destruct Hcases as [H|[H|H]].
  - split; [exact (proj1 (forallb_forall _ _) Ha s H)|].
    intros _. unfold assetBucket in H. apply in_map_iff in H.
    destruct H as [m [<- _]]. reflexivity.
  - split; [exact (proj1 (forallb_forall _ _) Hn s H)|].
    intros _. unfold normalBucket in H. apply in_map_iff in H.
    destruct H as [m [<- _]]. reflexivity.
  - split; [exact (proj1 (forallb_forall _ _) Hb s H)|].
    intros Hasset. rewrite (bulkBucket_not_fromAsset env p _ s H) in Hasset.
    discriminate.
Qed.

Lemma createFlashSteps_addresses_witness :
  addressMatchesMode (bulkStep sampleEnv oldTinker) = true.
Proof.
  apply (createFlashSteps_addresses sampleEnv [oldTinker] false 12
           [bulkStep sampleEnv oldTinker] eq_refl).
  simpl. auto.
Defined.

Lemma progressTotal_app (a b : list FlashStep) :
  progressTotal (a ++ b) = progressTotal a + progressTotal b.
Proof.
  unfold progressTotal at 1. rewrite fold_left_app.
  rewrite progressTotal_from. reflexivity.
Qed.

(** X7. The device-mode flag changes the order of a plan and nothing else:
    the two plans hold the same steps, add up to the same progress total, and
    the planner fails for the one flag exactly as for the other. *)
Theorem createFlashSteps_mode_flag
    (env : PlannerEnv) (modules : list ParsedModule) (platformId : Z) :
  match createFlashSteps env modules true platformId,
        createFlashSteps env modules false platformId with
  | Ok inDfu, Ok inNormal =>
      Permutation inDfu inNormal
      /\ progressTotal inDfu = progressTotal inNormal
  | Throw e1, Throw e2 => e1 = e2
  | _, _ => False
  end.
Proof.
  unfold createFlashSteps.
  destruct (planLoop env (findPlatform env platformId)
              (sortBinariesByDependency env modules) emptyBuckets)
    as [b|e]; simpl; [|reflexivity].
  split.
  - apply Permutation_app_swap_app.
  - rewrite !progressTotal_app. lia.
Qed.

(** X8. With nothing to place the planner returns the empty plan, whatever
    the platform id; with a platform id that is not in the table and
    something to place it fails. *)
Theorem createFlashSteps_without_profile
    (env : PlannerEnv) (modules : list ParsedModule) (isInDfuMode : bool)
    (platformId : Z) :
  (sortBinariesByDependency env modules = [] ->
   createFlashSteps env modules isInDfuMode platformId = Ok [])
  /\ (findPlatform env platformId = None ->
      sortBinariesByDependency env modules <> [] ->
      exists e,
        createFlashSteps env modules isInDfuMode platformId = Throw e).
Proof.
  unfold createFlashSteps. split.
  - intros ->. simpl. now destruct isInDfuMode.
  - intros -> Hne.
    destruct (planLoop_no_platform env (sortBinariesByDependency env modules)
                emptyBuckets Hne) as [e He].
    exists e. now rewrite He.
Qed.

Lemma createFlashSteps_without_profile_witness :
  createFlashSteps sampleEnv [] true 99 = Ok []
  /\ exists e, createFlashSteps sampleEnv [tinker] true 99 = Throw e.
Proof.
  split.
  - apply (createFlashSteps_without_profile sampleEnv [] true 99).
    reflexivity.
  - apply (createFlashSteps_without_profile sampleEnv [tinker] true 99).
    + reflexivity.
    + discriminate.
Defined.

(** ** The payload of a step *)

Lemma skipn_suffix {A : Type} (n : nat) (l : list A) :
  exists pre, l = pre ++ skipn n l /\ List.length pre = Nat.min n (List.length l).
Proof.
  exists (firstn n l). split.
  - now rewrite firstn_skipn.
  - apply length_firstn.
Qed.

(** X9. The payload of a module's step is the end of its file: the whole
    file, unless the module's flags are exactly [DROP_MODULE_INFO], in which
    case the first [prefixSize] bytes are left out (all of them when the file
    is shorter). *)
Theorem stepData_suffix (env : PlannerEnv) (m : ParsedModule) :
  exists skipped,
    fileBuffer m = skipped ++ stepData env m
    /\ (moduleFlags (prefixInfo m) <> DROP_MODULE_INFO env -> skipped = [])
    /\ (moduleFlags (prefixInfo m) = DROP_MODULE_INFO env ->
        0 <= prefixSize (prefixInfo m) ->
        Buffer_length skipped
        = Z.min (prefixSize (prefixInfo m)) (Buffer_length (fileBuffer m))).
Proof.
  unfold stepData.
  destruct (Z.eqb_spec (moduleFlags (prefixInfo m)) (DROP_MODULE_INFO env))
    as [Hflag|Hflag].
  - unfold Buffer_slice.
    destruct (Z.ltb_spec (prefixSize (prefixInfo m)) 0) as [Hneg|Hpos].
    + destruct (skipn_suffix
                  (Z.to_nat (Z.max 0 (Z.of_nat (List.length (fileBuffer m))
                                      + prefixSize (prefixInfo m))))
                  (fileBuffer m)) as [pre [Hpre _]].
      exists pre. split; [exact Hpre|]. split; [congruence|lia].
    + destruct (skipn_suffix (Z.to_nat (prefixSize (prefixInfo m)))
                  (fileBuffer m)) as [pre [Hpre Hlen]].
      exists pre. split; [exact Hpre|]. split; [congruence|].
      intros _ _. unfold Buffer_length. rewrite Hlen. lia.
  - exists []. split; [reflexivity|]. split; [reflexivity|congruence].
Qed.

Lemma stepData_suffix_witness :
  exists skipped,
    fileBuffer tinker = skipped ++ stepData sampleEnv tinker /\ skipped = [].
Proof.
  destruct (stepData_suffix sampleEnv tinker) as [skipped [Heq [Hnil _]]].
  exists skipped. split; [exact Heq|]. apply Hnil. discriminate.
Defined.

(** ** Base-firmware resolution: the requests it makes *)

(** X10. The resolution first asks the catalog for the version of the first
    user part of the set, also when a system part or a flag then settles the
    matter; after that it makes at most one download request.  Its result is
    that download's result, or the empty list, or the error of the version
    comparison: nothing else can make it fail. *)
Theorem getDeviceOsBinaries_requests
    (api : Catalog) (skipDeviceOSFlash : bool) (target : option string)
    (modules : list ParsedModule) (currentDeviceOsVersion : option string)
    (platformId : Z) (applicationOnly : bool) :
  let r := _getDeviceOsBinaries api skipDeviceOSFlash target modules
             currentDeviceOsVersion platformId applicationOnly in
  (snd r = lookupOf modules
   /\ (fst r = Ok []
       \/ exists e installed required,
            fst r = Throw e /\ semver_lt api installed required = Throw e))
  \/ (exists v omitUserPart,
        snd r = lookupOf modules ++ [Download platformId v omitUserPart]
        /\ fst r = downloadDeviceOsVersionBinaries api platformId v
                     omitUserPart).
Proof.
  intros r. subst r. rewrite resolution_unfold. cbv zeta.
  rewrite _pickApplicationBinary_spec. unfold lookupOf, download.
  destruct (includesDeviceOs modules).
  { left. destruct (applicationOf modules); simpl; auto. }
  destruct (applicationOf modules) as [app|]; [|left; simpl; auto].
  destruct applicationOnly; [left; simpl; auto|].
  destruct (truthy target).
  { destruct target as [t|]; [|left; simpl; auto].
    right. exists t, true. simpl. auto. }
  destruct skipDeviceOSFlash; [left; simpl; auto|].
  destruct (truthy (requiredVersion api app) && truthy currentDeviceOsVersion);
    [|left; simpl; auto].
  destruct (requiredVersion api app) as [required|]; [|left; simpl; auto].
  destruct currentDeviceOsVersion as [installed|]; [|left; simpl; auto].
  destruct (semver_lt api installed required) as [[|]|e] eqn:Hlt.
  - right. exists required, false. simpl. auto.
  - left. simpl. auto.
  - left. simpl. split; [reflexivity|]. right. eauto.
Qed.

(** ** The progress handler: where it reports *)

(** X11. The handler reports on one channel only.  With a bar it never
    writes a line; without one it never touches the bar, and writes one line
    for each file and each mode switch it is told of and none for any other
    event. *)
Theorem progressHandler_channels
    (flashSteps : list FlashStep) (isInteractive : bool) (st : Progress)
    (payload : Payload) :
  let st' := snd (progressHandler flashSteps isInteractive st payload) in
  if isInteractive
  then stdout st' = stdout st
  else progressBar st' = progressBar st
       /\ stdout st' = stdout st ++ linesOf payload.
Proof.
  destruct isInteractive, payload; simpl;
    try destruct (find _ flashSteps); try destruct (step st);
    try destruct (_ >? _); simpl;
    rewrite ?app_nil_r; try split; reflexivity.
Qed.

(** X12. A file name that no step bears makes the handler throw a TypeError
    and forget the step it was tracking; and with no step tracked an erase
    report is counted in full, whatever its size. *)
Theorem progressHandler_unknown_file
    (flashSteps : list FlashStep) (isInteractive : bool) (st : Progress)
    (filename : string) :
  find (fun s => (name s =? filename)%string) flashSteps = None ->
  let '(r, st1) :=
    progressHandler flashSteps isInteractive st (FlashFile filename) in
  r = Throw (TypeError "step.flashMode")
  /\ step st1 = None
  /\ flashMultiplier st1 = flashMultiplier st
  /\ forall bytes,
       let st2 := snd (progressHandler flashSteps true st1 (Erased bytes)) in
       barValue (progressBar st2)
       = barValue (progressBar st1) + bytes * flashMultiplier st
       /\ eraseSize st2 = eraseSize st + bytes.
Proof.
  intros Hfind. simpl. rewrite Hfind. simpl.
  repeat split; reflexivity.
Qed.

Lemma progressHandler_unknown_file_witness :
  fst (progressHandler [] true (_createFlashProgress [] true)
         (FlashFile "app.bin"))
  = Throw (TypeError "step.flashMode").
Proof.
  pose proof (progressHandler_unknown_file [] true
                (_createFlashProgress [] true) "app.bin" eq_refl) as H.
  destruct (progressHandler [] true (_createFlashProgress [] true)
              (FlashFile "app.bin")) as [r st1].
  exact (proj1 H).
Defined.

(** ** The progress handler over a whole run *)

Section HandlerRuns.

Variable flashSteps : list FlashStep.

Lemma handleAll_app (isInteractive : bool) (st : Progress)
    (a b : list Payload) :
  handleAll flashSteps isInteractive st (a ++ b)
  = handleAll flashSteps isInteractive
      (handleAll flashSteps isInteractive st a) b.
Proof.
  revert st. induction a as [|p a IH]; intros st; simpl;
    [reflexivity|apply IH].
Qed.

Lemma handleAll_erased (isInteractive : bool) (st : Progress)
    (reports : list Z) :
  handleAll flashSteps isInteractive st (map Erased reports)
  = reportErased flashSteps isInteractive st reports.
Proof.
  revert st. induction reports as [|b rest IH]; intros st; simpl;
    [reflexivity|apply IH].
Qed.

Lemma progressHandler_barTotal (isInteractive : bool) (st : Progress)
    (payload : Payload) :
  barTotal (progressBar
              (snd (progressHandler flashSteps isInteractive st payload)))
  = barTotal (progressBar st).
Proof.
  destruct isInteractive, payload; simpl;
    try destruct (find _ flashSteps); try destruct (step st);
    try destruct (_ >? _); reflexivity.
Qed.

Lemma handleAll_barTotal (isInteractive : bool) (st : Progress)
    (payloads : list Payload) :
  barTotal (progressBar (handleAll flashSteps isInteractive st payloads))
  = barTotal (progressBar st).
Proof.
  revert st. induction payloads as [|p rest IH]; intros st; simpl;
    [reflexivity|].
  now rewrite IH, progressHandler_barTotal.
Qed.

Lemma handleAll_downloaded (st : Progress) (reports : list Z) :
  let st' := handleAll flashSteps true st (map Downloaded reports) in
  step st' = step st
  /\ flashMultiplier st' = flashMultiplier st
  /\ barValue (progressBar st')
     = barValue (progressBar st) + sum reports * flashMultiplier st.
Proof.
  revert st. induction reports as [|b rest IH]; intros st; simpl.
  - repeat split; lia.
  - destruct (IH (increment (b * flashMultiplier st) (eraseSize st) st))
      as [H1 [H2 H3]].
    simpl in *. rewrite H1, H2, H3. repeat split; lia.
Qed.

(** One write, from its announcement to its last report. *)
Lemma handleAll_write (st : Progress) (s : FlashStep)
    (erased downloaded : list Z) :
  find (fun x => (name x =? name s)%string) flashSteps = Some s ->
  Forall (fun b => 0 <= b) erased ->
  barValue (progressBar
              (handleAll flashSteps true st
                 (writeEvents (s, (erased, downloaded)))))
  = barValue (progressBar st) + writeProgress (s, (erased, downloaded)).
Proof.
  intros Hfind Herased. unfold writeEvents, writeProgress. simpl fst.
  simpl snd. cbn [handleAll]. rewrite handleAll_app, handleAll_erased.
  cbn [progressHandler]. rewrite Hfind. cbn [snd].
  match goal with
  | |- context [reportErased _ _ ?st1 _] =>
      destruct (reportErased_capped flashSteps s erased Herased st1 eq_refl)
        as [H1 [H2 [H3 H4]]];
      [simpl; pose proof (Buffer_length_nonneg (data s)); lia|]
  end.
  match goal with
  | |- context [handleAll _ _ ?st2 (map Downloaded _)] =>
      destruct (handleAll_downloaded st2 downloaded) as [_ [_ H5]]
  end.
  rewrite H5, H4, H3, H2. simpl. lia.
Qed.

Lemma handleAll_writes (todo : list (FlashStep * (list Z * list Z))) :
  forall st,
    (forall w, In w todo ->
       find (fun x => (name x =? name (fst w))%string) flashSteps
       = Some (fst w)
       /\ Forall (fun b => 0 <= b) (fst (snd w))) ->
    barValue (progressBar
                (handleAll flashSteps true st (flat_map writeEvents todo)))
    = barValue (progressBar st) + sum (map writeProgress todo).
Proof.
  induction todo as [|[s [erased downloaded]] rest IH]; intros st Hok.
  - simpl. lia.
  - cbn [flat_map]. rewrite handleAll_app, IH.
    + destruct (Hok (s, (erased, downloaded)) (or_introl eq_refl))
        as [Hfind Hnonneg].
      rewrite (handleAll_write st s erased downloaded Hfind Hnonneg).
      simpl. lia.
    + intros w Hin. apply Hok. now right.
Qed.

End HandlerRuns.

Lemma completeWrites_total (todo : list (FlashStep * (list Z * list Z))) :
  Forall completeWrite todo ->
  sum (map writeProgress todo) = progressTotal (map fst todo).
Proof.
  induction 1 as [|[s [erased downloaded]] rest [_ [Hfull Hwritten]] _ IH].
  - reflexivity.
  - simpl map. simpl sum. rewrite IH.
    replace (s :: map fst rest) with ([s] ++ map fst rest) by reflexivity.
    rewrite progressTotal_app. unfold progressTotal at 2, writeProgress.
    simpl in *. rewrite Hwritten. lia.
Qed.

(** X13. When the steps of a plan have distinct names and every write
    reports the erasure of at least its payload and the writing of exactly
    it, the bar, started at zero with the total of the plan, ends exactly at
    that total, and the 'finish' event stops it. *)
Theorem progress_bar_ends_full
    (flashSteps : list FlashStep)
    (todo : list (FlashStep * (list Z * list Z))) :
  NoDup (map name flashSteps) ->
  map fst todo = flashSteps ->
  Forall completeWrite todo ->
  let bar :=
    progressBar
      (handleAll flashSteps true (_createFlashProgress flashSteps true)
         (flat_map writeEvents todo ++ [Finish])) in
  barValue bar = progressTotal flashSteps
  /\ barTotal bar = progressTotal flashSteps
  /\ barActive bar = false.
Proof.
  intros Hnames Hsteps Hcomplete bar. subst bar.
  rewrite handleAll_app. cbn [handleAll progressHandler snd].
  cbn [progressBar barStop barValue barTotal barActive].
  rewrite handleAll_barTotal. split; [|split; reflexivity].
  rewrite handleAll_writes.
  - rewrite (completeWrites_total todo Hcomplete), Hsteps. reflexivity.
  - intros w Hin. split.
    + apply find_by_name_distinct; [exact Hnames|].
      rewrite <- Hsteps. now apply in_map.
    + apply (proj1 (Forall_forall _ _) Hcomplete w Hin).
Qed.

Lemma progress_bar_ends_full_witness :
  barValue
    (progressBar
       (handleAll [bulkStep sampleEnv oldTinker] true
          (_createFlashProgress [bulkStep sampleEnv oldTinker] true)
          [FlashFile "old-tinker.bin"; Erased 4096; Downloaded 4; Finish]))
  = 8.
Proof.
  destruct (progress_bar_ends_full [bulkStep sampleEnv oldTinker]
              [(bulkStep sampleEnv oldTinker, ([4096], [4]))]) as [H _].
  - repeat constructor. simpl. tauto.
  - reflexivity.
  - apply Forall_cons; [|apply Forall_nil].
    unfold completeWrite. simpl fst. simpl snd.
    split; [|split; [vm_compute; discriminate|reflexivity]].
    apply Forall_cons; [lia|apply Forall_nil].
  - exact H.
Defined.

(** ** The executor: which calls it makes *)

Section Emits.

Variable P : Call -> bool.

Lemma emits_ret {A : Type} (a : A) : emits P (ret a).
Proof. intros w. exists []. simpl. now rewrite app_nil_r. Qed.

Lemma emits_throw {A : Type} (e : JSError) : emits P (@throw A e).
Proof. intros w. exists []. simpl. now rewrite app_nil_r. Qed.

Lemma emits_lift {A : Type} (r : result A) : emits P (lift r).
Proof. intros w. exists []. simpl. now rewrite app_nil_r. Qed.

Lemma emits_bind {A B : Type} (m : M A) (k : A -> M B) :
  emits P m -> (forall a, emits P (k a)) -> emits P (bind m k).
Proof.
  intros Hm Hk w. unfold bind. destruct (Hm w) as [cs1 [H1 HP1]].
  destruct (m w) as [[a|e] w1]; simpl in H1.
  - destruct (Hk a w1) as [cs2 [H2 HP2]].
    exists (cs1 ++ cs2). rewrite H2, H1, app_assoc, forallb_app, HP1, HP2.
    auto.
  - exists cs1. auto.
Qed.

Lemma emits_tryCatch {A : Type} (m : M A) (h : JSError -> M A) :
  emits P m -> (forall e, emits P (h e)) -> emits P (tryCatch m h).
Proof.
  intros Hm Hh w. unfold tryCatch. destruct (Hm w) as [cs1 [H1 HP1]].
  destruct (m w) as [[a|e] w1]; simpl in H1.
  - exists cs1. auto.
  - destruct (Hh e w1) as [cs2 [H2 HP2]].
    exists (cs1 ++ cs2). rewrite H2, H1, app_assoc, forallb_app, HP1, HP2.
    auto.
Qed.

Lemma emits_call (c : Call) : P c = true -> emits P (call c).
Proof.
  intros Hc w. exists [c]. unfold call.
  destruct (script w); simpl; rewrite Hc; auto.
Qed.

Lemma emits_settle (who : string) (o : Outcome) : emits P (settle who o).
Proof. destruct o; [apply emits_ret|apply emits_throw]. Qed.

Lemma emits_silent {A : Type} (m : M A) :
  (forall w, calls (snd (m w)) = calls w) -> emits P m.
Proof.
  intros H w. exists []. now rewrite H, app_nil_r.
Qed.

Lemma emits_report (flashSteps : list FlashStep) (isInteractive : bool)
    (payload : Payload) :
  emits P (report flashSteps isInteractive payload).
Proof.
  apply emits_silent. intros w. unfold report.
  now destruct (progressHandler flashSteps isInteractive (progress w) payload).
Qed.

Lemma emits_reportAll (flashSteps : list FlashStep) (isInteractive : bool)
    (payloads : list Payload) :
  emits P (reportAll flashSteps isInteractive payloads).
Proof.
  induction payloads as [|p rest IH]; simpl.
  - apply emits_ret.
  - apply emits_bind; [apply emits_report|intros _; exact IH].
Qed.

Lemma emits_markClosed (h : nat) : emits P (markClosed h).
Proof. now apply emits_silent. Qed.

Lemma emits_openHandle (device : Device) (dfuMode : bool) :
  emits P (openHandle device dfuMode).
Proof. now apply emits_silent. Qed.

Lemma emits_deviceIsInDfuMode (device : Device) :
  emits P (deviceIsInDfuMode device).
Proof. now apply emits_silent. Qed.

Lemma emits_deviceIsOpen (device : Device) : emits P (deviceIsOpen device).
Proof. now apply emits_silent. Qed.

Lemma emits_write (line : string) : emits P (write line).
Proof. now apply emits_silent. Qed.

End Emits.

Ltac emits_step :=
  first
    [ apply emits_ret | apply emits_throw | apply emits_lift
    | apply emits_settle | apply emits_report | apply emits_reportAll
    | apply emits_markClosed | apply emits_openHandle
    | apply emits_deviceIsInDfuMode | apply emits_deviceIsOpen
    | apply emits_write
    | apply emits_call; reflexivity
    | apply emits_bind; [|intros ?]
    | apply emits_tryCatch; [|intros ?] ].

Section ExecutorCalls.

Variable flashSteps : list FlashStep.
Variable isInteractive : bool.

Lemma emits_delay (P : Call -> bool) (ms : Z) :
  P (Delay ms) = true -> emits P (delay ms).
Proof.
  intros HP w. exists [Delay ms]. simpl. rewrite HP. auto.
Qed.

Lemma flashDeviceInNormalMode_no_cleanup (device : Device) (payload : Buffer)
    (filename : string) :
  emits notCleanupCall
    (flashDeviceInNormalMode flashSteps isInteractive device payload filename).
Proof.
  unfold flashDeviceInNormalMode, reopenInNormalMode, enterListeningMode,
    updateFirmware.
  apply emits_bind; [emits_step|intros inDfu].
  apply emits_bind.
  { destruct inDfu; repeat emits_step. }
  intros device1. repeat emits_step. now apply emits_delay.
Qed.

Lemma flashDeviceInDfuMode_no_cleanup (device : Device) (payload : Buffer)
    (filename : string) (altSetting : Z) (startAddr : option JSNum) :
  emits notCleanupCall
    (flashDeviceInDfuMode flashSteps isInteractive device payload filename
       altSetting startAddr).
Proof.
  unfold flashDeviceInDfuMode, reopenInDfuMode, writeOverDfu.
  apply emits_bind; [emits_step|intros inDfu].
  apply emits_bind.
  { destruct inDfu; repeat emits_step. }
  intros device1. repeat emits_step.
Qed.

(** The loop of [flashFiles] neither resets nor closes a device. *)
Lemma flashLoop_no_cleanup (steps : list FlashStep) :
  forall device w,
    exists cs,
      calls (snd (flashLoop flashSteps isInteractive device steps w))
      = calls w ++ cs
      /\ forallb notCleanupCall cs = true.
Proof.
  induction steps as [|s rest IH]; intros device w.
  - exists []. simpl. now rewrite app_nil_r.
  - cbn [flashLoop]. cbv zeta.
    destruct (flashMode s).
    + destruct (flashDeviceInNormalMode_no_cleanup device (data s) (name s) w)
        as [cs1 [H1 HP1]].
      destruct (flashDeviceInNormalMode flashSteps isInteractive device
                  (data s) (name s) w) as [[device'|e] w1]; simpl in H1.
      * destruct (IH device' w1) as [cs2 [H2 HP2]].
        exists (cs1 ++ cs2).
        rewrite H2, H1, app_assoc, forallb_app, HP1, HP2. auto.
      * exists cs1. auto.
    + destruct (flashDeviceInDfuMode_no_cleanup device (data s) (name s) 0
                  (address s) w) as [cs1 [H1 HP1]].
      destruct (flashDeviceInDfuMode flashSteps isInteractive device
                  (data s) (name s) 0 (address s) w)
        as [[device'|e] w1]; simpl in H1.
      * destruct (IH device' w1) as [cs2 [H2 HP2]].
        exists (cs1 ++ cs2).
        rewrite H2, H1, app_assoc, forallb_app, HP1, HP2. auto.
      * exists cs1. auto.
Qed.

Lemma flashCleanup_calls (device : Device) (resetAfterFlash : bool)
    (w : World) :
  calls (snd (flashCleanup flashSteps isInteractive device resetAfterFlash w))
  = calls w
    ++ cleanupCalls (isOpen (handleState w (handle device))) resetAfterFlash
         (handle device).
Proof.
  unfold flashCleanup, bind, report, deviceIsOpen, handleState, cleanupCalls.
  assert (Hfin : forall p,
             fst (progressHandler flashSteps isInteractive p Finish) = Ok tt).
  { intros p. simpl. now destruct isInteractive. }
  specialize (Hfin (progress w)).
  destruct (progressHandler flashSteps isInteractive (progress w) Finish)
    as [r p]. simpl in Hfin. subst r. simpl.
  destruct (isOpen (nth (handle device) (handles w) closedHandle));
    [|simpl; now rewrite app_nil_r].
  destruct resetAfterFlash.
  - unfold tryCatch, reset, close, bind, call, settle, markClosed, ret, throw.
    simpl.
    destruct (script w) as [|[r1|r1] [|[r2|r2] rest]]; simpl;
      now rewrite <- app_assoc.
  - unfold close, bind, call, settle, markClosed, ret, throw. simpl.
    destruct (script w) as [|[r1|r1] rest]; reflexivity.
Qed.

Lemma flashCleanup_error (device : Device) (resetAfterFlash : bool)
    (w : World) (e : JSError) :
  fst (flashCleanup flashSteps isInteractive device resetAfterFlash w)
  = Throw e ->
  e = Rejected "device.close".
Proof.
  unfold flashCleanup, bind, report, deviceIsOpen, handleState.
  assert (Hfin : forall p,
             fst (progressHandler flashSteps isInteractive p Finish) = Ok tt).
  { intros p. simpl. now destruct isInteractive. }
  specialize (Hfin (progress w)).
  destruct (progressHandler flashSteps isInteractive (progress w) Finish)
    as [r p]. simpl in Hfin. subst r. simpl.
  destruct (isOpen (nth (handle device) (handles w) closedHandle));
    [|discriminate].
  destruct resetAfterFlash.
  - unfold tryCatch, reset, close, bind, call, settle, markClosed, ret, throw.
    simpl.
    destruct (script w) as [|[r1|r1] [|[r2|r2] rest]]; simpl;
      intros H; inversion H; reflexivity.
  - unfold close, bind, call, settle, markClosed, ret, throw. simpl.
    destruct (script w) as [|[r1|r1] rest]; simpl;
      intros H; inversion H; reflexivity.
Qed.

End ExecutorCalls.

(** X14. The loop of [flashFiles] runs the steps in order and ends at the
    first one that fails: no later step is attempted, and the failure is
    reported with the device object held when the step began. *)
Theorem flashLoop_app
    (flashSteps : list FlashStep) (isInteractive : bool) (device : Device)
    (steps1 steps2 : list FlashStep) (w : World) :
  flashLoop flashSteps isInteractive device (steps1 ++ steps2) w
  = match flashLoop flashSteps isInteractive device steps1 w with
    | ((None, device1), w1) =>
        flashLoop flashSteps isInteractive device1 steps2 w1
    | ((Some e, device1), w1) => ((Some e, device1), w1)
    end.
Proof.
  revert device w. induction steps1 as [|s rest IH]; intros device w.
  - reflexivity.
  - cbn [app flashLoop]. cbv zeta.
    destruct (flashMode s).
    + destruct (flashDeviceInNormalMode flashSteps isInteractive device
                  (data s) (name s) w) as [[device'|e] w1];
        [apply IH|reflexivity].
    + destruct (flashDeviceInDfuMode flashSteps isInteractive device
                  (data s) (name s) 0 (address s) w) as [[device'|e] w1];
        [apply IH|reflexivity].
Qed.

(** X15. [flashFiles] never turns a failed flash into a success: when a step
    fails, [flashFiles] fails, with that step's error or, if the closing of
    the device is rejected in the cleanup, with that rejection.  A rejected
    reset never surfaces. *)
Theorem flashFiles_surfaces_failure
    (flashSteps : list FlashStep) (isInteractive : bool) (device : Device)
    (resetAfterFlash : bool) (w : World) :
  let failure :=
    fst (fst (flashLoop flashSteps isInteractive device flashSteps
                (setProgress w
                   (_createFlashProgress flashSteps isInteractive)))) in
  match fst (flashFiles flashSteps isInteractive device resetAfterFlash w) with
  | Ok _ => failure = None
  | Throw e => failure = Some e \/ e = Rejected "device.close"
  end.
Proof.
  unfold flashFiles.
  destruct (flashLoop flashSteps isInteractive device flashSteps
              (setProgress w (_createFlashProgress flashSteps isInteractive)))
    as [[failure device'] w1]. cbn [fst].
  pose proof (flashCleanup_error flashSteps isInteractive device'
                resetAfterFlash w1) as Herr.
  destruct (flashCleanup flashSteps isInteractive device' resetAfterFlash w1)
    as [[u|e] w2]; cbn [fst] in *.
  - destruct failure; simpl; auto.
  - right. now apply Herr.
Qed.

(** X16. [flashFiles] resets and closes the device in its cleanup only: the
    steps themselves make neither call, and the cleanup, on the device object
    held at the end and only if that object is open, makes one reset (if
    asked for) followed by one close. *)
Theorem flashFiles_cleanup_calls
    (flashSteps : list FlashStep) (isInteractive : bool) (device : Device)
    (resetAfterFlash : bool) (w : World) :
  let '((_, held), w1) :=
    flashLoop flashSteps isInteractive device flashSteps
      (setProgress w (_createFlashProgress flashSteps isInteractive)) in
  exists during,
    calls w1 = calls w ++ during
    /\ forallb notCleanupCall during = true
    /\ calls (snd (flashFiles flashSteps isInteractive device
                     resetAfterFlash w))
       = calls w1
         ++ cleanupCalls (isOpen (handleState w1 (handle held)))
              resetAfterFlash (handle held).
Proof.
  destruct (flashLoop_no_cleanup flashSteps isInteractive flashSteps device
              (setProgress w (_createFlashProgress flashSteps isInteractive)))
    as [during [Hduring Hnone]].
  unfold flashFiles.
  destruct (flashLoop flashSteps isInteractive device flashSteps
              (setProgress w (_createFlashProgress flashSteps isInteractive)))
    as [[failure held] w1]. cbn [snd] in Hduring.
  exists during. split; [exact Hduring|]. split; [exact Hnone|].
  pose proof (flashCleanup_calls flashSteps isInteractive held
                resetAfterFlash w1) as Hclean.
  destruct (flashCleanup flashSteps isInteractive held resetAfterFlash w1)
    as [[u|e] w2]; exact Hclean.
Qed.

(** ** The executor on a device that is in DFU mode *)

Section DfuRuns.

Variable flashSteps : list FlashStep.
Variable isInteractive : bool.

Lemma report_device_side (payload : Payload) (w : World) :
  let w' := snd (report flashSteps isInteractive payload w) in
  calls w' = calls w /\ handles w' = handles w /\ script w' = script w.
Proof.
  unfold report.
  destruct (progressHandler flashSteps isInteractive (progress w) payload).
  simpl. auto.
Qed.

Lemma reportAll_device_side (payloads : list Payload) (w : World) :
  let w' := snd (reportAll flashSteps isInteractive payloads w) in
  calls w' = calls w /\ handles w' = handles w /\ script w' = script w.
Proof.
  revert w. induction payloads as [|p rest IH]; intros w; simpl; auto.
  unfold bind.
  pose proof (report_device_side p w) as Hp.
  destruct (report flashSteps isInteractive p w) as [[u|e] w1];
    simpl in Hp; [|exact Hp].
  destruct Hp as [H1 [H2 H3]].
  destruct (IH w1) as [H4 [H5 H6]]. simpl. rewrite H4, H5, H6. auto.
Qed.

(** A [dfu] step on a device in DFU mode: no mode switch, at most the one
    write, and the device object is kept. *)
Lemma flashDeviceInDfuMode_in_dfu (device : Device) (s : FlashStep)
    (w : World) :
  inDfuMode (handleState w (handle device)) = true ->
  let '(r, w') :=
    flashDeviceInDfuMode flashSteps isInteractive device (data s) (name s) 0
      (address s) w in
  handles w' = handles w
  /\ ((r = Ok device
       /\ calls w' = calls w ++ [dfuWrite (handle device) s])
      \/ (exists e,
            r = Throw e
            /\ (calls w' = calls w
                \/ calls w' = calls w ++ [dfuWrite (handle device) s]))).
Proof.
  intros Hdfu.
  unfold flashDeviceInDfuMode, bind, deviceIsInDfuMode, writeOverDfu.
  rewrite Hdfu. simpl. unfold bind, ret.
  pose proof (report_device_side (FlashFile (name s)) w) as Hrep.
  destruct (report flashSteps isInteractive (FlashFile (name s)) w)
    as [[u|e] w1]; simpl in Hrep; destruct Hrep as [Hc1 [Hh1 Hs1]].
  - assert (Hcall : exists o w2,
              call (WriteOverDfu (handle device) (data s) 0 (address s)) w1
              = (Ok o, w2)
              /\ calls w2 = calls w ++ [dfuWrite (handle device) s]
              /\ handles w2 = handles w).
    { unfold call, dfuWrite. destruct (script w1); eexists; eexists;
        (split; [reflexivity|]); simpl; rewrite Hc1, Hh1; auto. }
    destruct Hcall as [o [w2 [Hcall [Hc2 Hh2]]]]. rewrite Hcall.
    pose proof (reportAll_device_side (reportsOf o) w2) as Hall.
    destruct (reportAll flashSteps isInteractive (reportsOf o) w2)
      as [[u2|e2] w3]; simpl in Hall; destruct Hall as [Hc3 [Hh3 Hs3]].
    + destruct o; simpl; (split; [congruence|]).
      * left. split; [reflexivity|congruence].
      * right. eexists. split; [reflexivity|]. right. congruence.
    + split; [congruence|]. right. eexists. split; [reflexivity|].
      right. congruence.
  - split; [exact Hh1|]. right. eexists. split; [reflexivity|]. now left.
Qed.

Lemma flashLoop_all_dfu (steps : list FlashStep) :
  forall device w,
    inDfuMode (handleState w (handle device)) = true ->
    forallb isDfuStep steps = true ->
    let '((failure, held), w1) :=
      flashLoop flashSteps isInteractive device steps w in
    held = device
    /\ handles w1 = handles w
    /\ exists n,
         calls w1
         = calls w ++ map (dfuWrite (handle device)) (firstn n steps)
         /\ (failure = None -> n = List.length steps).
Proof.
  induction steps as [|s rest IH]; intros device w Hdfu Hall.
  - simpl. split; [reflexivity|]. split; [reflexivity|].
    exists O. simpl. now rewrite app_nil_r.
  - simpl in Hall. apply andb_true_iff in Hall. destruct Hall as [Hs Hrest].
    cbn [flashLoop]. cbv zeta. unfold isDfuStep in Hs.
    destruct (flashMode s); [discriminate|].
    pose proof (flashDeviceInDfuMode_in_dfu device s w Hdfu) as Hstep.
    destruct (flashDeviceInDfuMode flashSteps isInteractive device (data s)
                (name s) 0 (address s) w) as [[device'|e] w1].
    + destruct Hstep as [Hh [[Hok Hc]|[e [He _]]]]; [|discriminate].
      inversion Hok; subst device'.
      assert (Hdfu1 : inDfuMode (handleState w1 (handle device)) = true).
      { unfold handleState in *. now rewrite Hh. }
      specialize (IH device w1 Hdfu1 Hrest).
      destruct (flashLoop flashSteps isInteractive device rest w1)
        as [[failure held] w2].
      destruct IH as [Hheld [Hh2 [n [Hc2 Hn]]]].
      split; [exact Hheld|]. split; [congruence|].
      exists (S n). split.
      * rewrite Hc2, Hc. simpl. now rewrite <- app_assoc.
      * intros Hnone. simpl. now rewrite (Hn Hnone).
    + destruct Hstep as [Hh [[Hok _]|[e' [He [Hc|Hc]]]]]; [discriminate| |].
      * split; [reflexivity|]. split; [exact Hh|].
        exists O. simpl. rewrite app_nil_r. split; [exact Hc|discriminate].
      * split; [reflexivity|]. split; [exact Hh|].
        exists 1%nat. simpl. split; [exact Hc|discriminate].
Qed.

End DfuRuns.

(** X17. On a device that is in DFU mode, [dfu] steps need no mode switch:
    however the writes end, the loop makes no call but the writes of the
    steps it reaches, in order, and keeps the device object it was given. *)
Theorem flashLoop_dfu_needs_no_switch
    (flashSteps : list FlashStep) (isInteractive : bool) (device : Device)
    (steps : list FlashStep) (w : World) :
  inDfuMode (handleState w (handle device)) = true ->
  forallb isDfuStep steps = true ->
  let '((failure, held), w1) :=
    flashLoop flashSteps isInteractive device steps w in
  held = device
  /\ handles w1 = handles w
  /\ exists n,
       calls w1 = calls w ++ map (dfuWrite (handle device)) (firstn n steps)
       /\ (failure = None -> n = List.length steps).
Proof.
  intros Hdfu Hall.
  exact (flashLoop_all_dfu flashSteps isInteractive steps device w Hdfu Hall).
Qed.

Lemma flashLoop_dfu_needs_no_switch_witness :
  exists n,
    calls (snd (flashLoop [bulkStep sampleEnv oldTinker] true
                  (attached sampleHost) [bulkStep sampleEnv oldTinker]
                  {| calls := []; script := [];
                     handles := [{| isOpen := true; inDfuMode := true |}];
                     progress := _createFlashProgress [] false;
                     written := [] |}))
    = map (dfuWrite 0) (firstn n [bulkStep sampleEnv oldTinker]).
Proof.
  pose proof (flashLoop_dfu_needs_no_switch [bulkStep sampleEnv oldTinker]
                true (attached sampleHost) [bulkStep sampleEnv oldTinker]
                {| calls := []; script := [];
                   handles := [{| isOpen := true; inDfuMode := true |}];
                   progress := _createFlashProgress [] false;
                   written := [] |} eq_refl eq_refl) as H.
  destruct (flashLoop [bulkStep sampleEnv oldTinker] true
              (attached sampleHost) [bulkStep sampleEnv oldTinker] _)
    as [[failure held] w1].
  destruct H as [_ [_ [n [Hc _]]]]. exists n. exact Hc.
Defined.

Lemma handleState_withScript (w : World) (outcomes : list Outcome) (h : nat) :
  handleState (withScript w outcomes) h = handleState w h.
Proof. reflexivity. Qed.

(** X18. A rejected [enterListeningMode] changes nothing in a normal-mode
    write: the device object returned, the error if any, the calls made, the
    device objects and the progress are those of a run in which the device
    accepted the request.  (On a device in DFU mode the request follows a
    mode switch that resolved.) *)
Theorem flashDeviceInNormalMode_tolerates_listening_failure
    (flashSteps : list FlashStep) (isInteractive : bool) (device : Device)
    (payload : Buffer) (filename : string) (w : World)
    (switched : list Payload) (o1 o2 : Outcome) (rest : list Outcome) :
  let before :=
    if inDfuMode (handleState w (handle device))
    then [Resolves switched] else [] in
  flashDeviceInNormalMode flashSteps isInteractive device payload filename
    (withScript w (before ++ o1 :: rest))
  = flashDeviceInNormalMode flashSteps isInteractive device payload filename
      (withScript w (before ++ o2 :: rest)).
Proof.
  cbv zeta.
  unfold flashDeviceInNormalMode, bind, deviceIsInDfuMode.
  rewrite !handleState_withScript.
  destruct (inDfuMode (handleState w (handle device))).
  - unfold report at 1 3. cbn [progressHandler app].
    unfold reopenInNormalMode at 1 3, bind, call, settle, markClosed,
      openHandle, ret, withScript.
    cbn [script setCalls setProgress setHandles calls].
    unfold tryCatch, enterListeningMode, bind, call, settle, ret, throw.
    cbn [script setCalls setProgress setHandles calls].
    destruct o1, o2; reflexivity.
  - unfold ret, withScript. cbn [app].
    unfold tryCatch, enterListeningMode, bind, call, settle, ret, throw.
    cbn [script setCalls setProgress setHandles calls].
    destruct o1, o2; reflexivity.
Qed.

(** X19. When the device is in the other mode than the step needs and the
    mode switch is rejected, the run ends there with that rejection: the
    switch is the only call made, nothing is written, and no later step is
    attempted. *)
Theorem flashLoop_rejected_mode_switch
    (flashSteps : list FlashStep) (isInteractive : bool) (device : Device)
    (s : FlashStep) (rest : list FlashStep) (w : World)
    (reports : list Payload) (tail : list Outcome) :
  script w = Rejects reports :: tail ->
  inDfuMode (handleState w (handle device)) = negb (isDfuStep s) ->
  let '((failure, held), w1) :=
    flashLoop flashSteps isInteractive device (s :: rest) w in
  failure = Some (switchError s)
  /\ held = device
  /\ calls w1 = calls w ++ [switchCall (handle device) s]
  /\ script w1 = tail.
Proof.
  intros Hscript Hmode.
  cbn [flashLoop]. cbv zeta.
  unfold isDfuStep in Hmode. unfold switchError, switchCall.
  destruct (flashMode s); simpl in Hmode.
  - unfold flashDeviceInNormalMode, bind, deviceIsInDfuMode.
    rewrite Hmode. unfold report. cbn [progressHandler].
    unfold reopenInNormalMode, bind, call. cbn [script setProgress].
    rewrite Hscript. unfold markClosed, settle, throw. simpl. auto.
  - unfold flashDeviceInDfuMode, bind, deviceIsInDfuMode.
    rewrite Hmode. cbn [negb]. unfold report. cbn [progressHandler].
    unfold reopenInDfuMode, bind, call. cbn [script setProgress].
    rewrite Hscript. unfold markClosed, settle, throw. simpl. auto.
Qed.

Lemma flashLoop_rejected_mode_switch_witness :
  fst (fst (flashLoop [bulkStep sampleEnv oldTinker] false
              (attached sampleHost)
              [bulkStep sampleEnv oldTinker; bulkStep sampleEnv oldTinker]
              {| calls := []; script := [Rejects []];
                 handles := [{| isOpen := true; inDfuMode := false |}];
                 progress := _createFlashProgress [] false;
                 written := [] |}))
  = Some (Rejected "usbUtils.reopenInDfuMode").
Proof.
  pose proof (flashLoop_rejected_mode_switch [bulkStep sampleEnv oldTinker]
                false (attached sampleHost) (bulkStep sampleEnv oldTinker)
                [bulkStep sampleEnv oldTinker]
                {| calls := []; script := [Rejects []];
                   handles := [{| isOpen := true; inDfuMode := false |}];
                   progress := _createFlashProgress [] false;
                   written := [] |} [] [] eq_refl eq_refl) as H.
  destruct (flashLoop [bulkStep sampleEnv oldTinker] false
              (attached sampleHost) _ _) as [[failure held] w1].
  destruct H as [Hf _]. exact Hf.
Defined.

Lemma bulkBucket_isDfuStep (env : PlannerEnv) (platform : Platform)
    (sorted : list ParsedModule) :
  forallb isDfuStep (bulkBucket env platform sorted) = true.
Proof.
  unfold bulkBucket.
  induction (filter (isBulkModule env platform) sorted) as [|m rest IH];
    [reflexivity|].
  simpl. rewrite forallb_app, IH, andb_true_r.
  unfold bulkSteps. destruct (formerUserPart platform) as [seg|];
    [destruct (guardsLegacyRegion env platform m)|]; reflexivity.
Qed.

Lemma normalSteps_not_isDfuStep (env : PlannerEnv) (l : list ParsedModule) :
  forallb (fun s => negb (isDfuStep s)) (map (normalStep env) l) = true.
Proof.
  induction l as [|m rest IH]; [reflexivity|]. simpl. exact IH.
Qed.

Lemma flashLoop_through (flashSteps : list FlashStep) (isInteractive : bool)
    (steps1 steps2 : list FlashStep) :
  forall device w failure device1 w1,
    flashLoop flashSteps isInteractive device steps1 w
    = ((failure, device1), w1) ->
    flashLoop flashSteps isInteractive device (steps1 ++ steps2) w
    = match failure with
      | None => flashLoop flashSteps isInteractive device1 steps2 w1
      | Some e => ((Some e, device1), w1)
      end.
Proof.
  induction steps1 as [|s rest IH]; intros device w failure device1 w1 Hrun.
  - simpl in Hrun. inversion Hrun; subst. reflexivity.
  - cbn [app flashLoop] in *. cbv zeta in *.
    destruct (match flashMode s with
              | normal =>
                  flashDeviceInNormalMode flashSteps isInteractive device
                    (data s) (name s)
              | dfu =>
                  flashDeviceInDfuMode flashSteps isInteractive device
                    (data s) (name s) 0 (address s)
              end w) as [[device'|e] w'].
    + now apply IH.
    + inversion Hrun; subst. reflexivity.
Qed.

(** X20. The plan made for a device in DFU mode repairs it before it is
    asked to leave that mode: the plan is its [dfu] steps followed by its
    [normal] steps, and on such a device the run makes no call but the writes
    of the [dfu] steps, in order, until they are all written; only then does
    it go on to the [normal] steps, and if one of the writes fails it stops
    without a mode switch. *)
Theorem dfu_plan_writes_before_switching
    (env : PlannerEnv) (modules : list ParsedModule) (platformId : Z)
    (steps : list FlashStep) (isInteractive : bool) (device : Device)
    (w : World) :
  createFlashSteps env modules true platformId = Ok steps ->
  inDfuMode (handleState w (handle device)) = true ->
  exists bulk others,
    steps = bulk ++ others
    /\ forallb isDfuStep bulk = true
    /\ forallb (fun s => negb (isDfuStep s)) others = true
    /\ let '((failure, held), w1) :=
         flashLoop steps isInteractive device bulk w in
       (exists n,
          calls w1 = calls w ++ map (dfuWrite (handle device)) (firstn n bulk)
          /\ (failure = None -> n = List.length bulk))
       /\ flashLoop steps isInteractive device steps w
          = match failure with
            | None => flashLoop steps isInteractive device others w1
            | Some e => ((Some e, device), w1)
            end.
Proof.
  intros Hplan Hdfu.
  assert (Hsplit : exists bulk others,
            steps = bulk ++ others
            /\ forallb isDfuStep bulk = true
            /\ forallb (fun s => negb (isDfuStep s)) others = true).
  { destruct (createFlashSteps_ok_inv env modules true platformId steps Hplan)
      as [[platform [_ [_ Hsteps]]]|[_ [_ Hsteps]]].
    - exists (bulkBucket env platform (sortBinariesByDependency env modules)).
      exists (normalBucket env platform (sortBinariesByDependency env modules)
              ++ assetBucket env (sortBinariesByDependency env modules)).
      split; [exact Hsteps|]. split; [apply bulkBucket_isDfuStep|].
      unfold normalBucket, assetBucket. rewrite <- map_app.
      apply normalSteps_not_isDfuStep.
    - exists [], []. subst steps. auto. }
  destruct Hsplit as [bulk [others [Hsteps [Hbulk Hothers]]]].
  exists bulk, others. split; [exact Hsteps|].
  split; [exact Hbulk|]. split; [exact Hothers|].
  pose proof (flashLoop_all_dfu steps isInteractive bulk device w Hdfu Hbulk)
    as Hrun.
  destruct (flashLoop steps isInteractive device bulk w)
    as [[failure held] w1] eqn:Hloop.
  destruct Hrun as [Hheld [_ Hcalls]]. subst held.
  split; [exact Hcalls|].
  rewrite Hsteps at 2.
  exact (flashLoop_through steps isInteractive bulk others device w failure
           device w1 Hloop).
Qed.

Lemma dfu_plan_writes_before_switching_witness :
  exists bulk others,
    repairPlan = bulk ++ others
    /\ forallb isDfuStep bulk = true
    /\ forallb (fun s => negb (isDfuStep s)) others = true.
Proof.
  destruct (dfu_plan_writes_before_switching sampleEnv [bootloader0; tinker]
              12 repairPlan false (attached sampleHost) (dfuModeWorld [])
              eq_refl eq_refl)
    as [bulk [others [H1 [H2 [H3 _]]]]].
  exists bulk, others. auto.
Defined.

(** ** Resets *)

Lemma forallb_weaken {A : Type} (P Q : A -> bool) (l : list A) :
  (forall a, P a = true -> Q a = true) ->
  forallb P l = true -> forallb Q l = true.
Proof.
  intros HPQ. induction l as [|a rest IH]; [reflexivity|].
  simpl. intros H. apply andb_true_iff in H. destruct H as [Ha Hrest].
  now rewrite (HPQ a Ha), (IH Hrest).
Qed.

Lemma emits_close (P : Call -> bool) (device : Device) :
  P (CloseDevice (handle device)) = true -> emits P (close device).
Proof.
  intros HP. unfold close.
  apply emits_bind; [now apply emits_call|intros o].
  apply emits_bind; [apply emits_settle|intros _; apply emits_markClosed].
Qed.

Lemma emits_getOneUsbDevice (P : Call -> bool) (host : Host) :
  P GetOneUsbDevice = true -> emits P (getOneUsbDevice host).
Proof.
  intros HP. unfold getOneUsbDevice.
  apply emits_bind; [now apply emits_call|intros o].
  apply emits_bind; [apply emits_settle|intros _; apply emits_openHandle].
Qed.

(** Without [resetAfterFlash], [flashFiles] never resets the device. *)
Lemma flashFiles_no_reset (flashSteps : list FlashStep) (isInteractive : bool)
    (device : Device) :
  emits notReset (flashFiles flashSteps isInteractive device false).
Proof.
  intros w. unfold flashFiles.
  set (w0 := setProgress w (_createFlashProgress flashSteps isInteractive)).
  destruct (flashLoop_no_cleanup flashSteps isInteractive flashSteps device w0)
    as [cs [Hcs HP]].
  destruct (flashLoop flashSteps isInteractive device flashSteps w0)
    as [[failure held] w1]. simpl in Hcs.
  pose proof (flashCleanup_calls flashSteps isInteractive held false w1)
    as Hclean.
  destruct (flashCleanup flashSteps isInteractive held false w1)
    as [[u|e] w2]; simpl in Hclean |- *;
    exists (cs ++ cleanupCalls (isOpen (handleState w1 (handle held))) false
                    (handle held));
    (split; [rewrite Hclean, Hcs; now rewrite <- app_assoc|]);
    rewrite forallb_app;
    rewrite (forallb_weaken notCleanupCall notReset cs)
      by (exact HP || (intros [] Hc; (discriminate || reflexivity)));
    unfold cleanupCalls;
    now destruct (isOpen (handleState w1 (handle held))).
Qed.

(** X21. A factory flash over USB never resets the device: whatever the
    device and the files do, [flashOverUsb] with [factory] set makes no
    [reset] call. *)
Theorem flashOverUsb_factory_never_resets
    (env : PlannerEnv) (host : Host) (isInteractive : bool)
    (binary : string) :
  emits notReset (flashOverUsb env host isInteractive binary true).
Proof.
  intros w. unfold flashOverUsb.
  destruct (getFilenameExt host binary =? ".zip")%string.
  { exists []. simpl. now rewrite app_nil_r. }
  destruct (emits_getOneUsbDevice notReset host eq_refl w) as [cs1 [H1 P1]].
  destruct (getOneUsbDevice host w) as [[device|e] w1]; simpl in H1;
    [|exists cs1; auto].
  assert (Hwith : emits notReset
                    (flashOverUsbWith env host isInteractive device binary
                       true)).
  { unfold flashOverUsbWith. repeat emits_step.
    cbn [negb andb]. apply flashFiles_no_reset. }
  destruct (Hwith w1) as [cs2 [H2 P2]].
  destruct (flashOverUsbWith env host isInteractive device binary true w1)
    as [[u|e] w2]; simpl in H2.
  - exists (cs1 ++ cs2). simpl.
    rewrite H2, H1, <- app_assoc, forallb_app, P1, P2. auto.
  - destruct (emits_close notReset device eq_refl w2) as [cs3 [H3 P3]].
    exists (cs1 ++ cs2 ++ cs3).
    rewrite H3, H2, H1, <- !app_assoc, !forallb_app, P1, P2, P3. auto.
Qed.

(** ** The file arguments of a local flash *)

Lemma includes_In (x : string) (l : list string) :
  includes x l = true <-> In x l.
Proof.
  unfold includes. rewrite existsb_exists. split.
  - intros [y [Hy Heq]]. apply String.eqb_eq in Heq. now subst.
  - intros Hx. exists x. split; [exact Hx|apply String.eqb_refl].
Qed.

(** X22. Every argument of a local flash gets one role, decided by the
    arguments alone.  No argument: the current directory is the one file.  A
    known application named first: it is the application, and everything
    after it is discarded.  Otherwise a known application named second: it is
    the application, the first argument is the device, and everything after
    is discarded.  Otherwise the arguments are the files, less the first when
    it is not on disk, which is then the device. *)
Theorem analyzeFiles_roles
    (fs : FileSystem) (first : string) (rest : list string) :
  _analyzeFiles fs []
  = {| files := ["."]; deviceIdOrName := None; knownApp := None |}
  /\ (In first (knownAppNames fs) ->
      _analyzeFiles fs (first :: rest)
      = {| files := []; deviceIdOrName := None; knownApp := Some first |})
  /\ (forall second later,
        ~ In first (knownAppNames fs) ->
        rest = second :: later ->
        In second (knownAppNames fs) ->
        _analyzeFiles fs (first :: rest)
        = {| files := []; deviceIdOrName := Some first;
             knownApp := Some second |})
  /\ (~ In first (knownAppNames fs) ->
      (forall second later,
         rest = second :: later -> ~ In second (knownAppNames fs)) ->
      _analyzeFiles fs (first :: rest)
      = match stat fs first with
        | Some _ =>
            {| files := first :: rest; deviceIdOrName := None;
               knownApp := None |}
        | None =>
            {| files := rest; deviceIdOrName := Some first;
               knownApp := None |}
        end).
Proof.
  assert (Hno : forall x,
            ~ In x (knownAppNames fs) -> includes x (knownAppNames fs) = false).
  { intros x Hx. destruct (includes x (knownAppNames fs)) eqn:Hi;
      [|reflexivity].
    apply includes_In in Hi. contradiction. }
  split; [reflexivity|]. split; [|split].
  - intros Hfirst. apply includes_In in Hfirst.
    unfold _analyzeFiles. now rewrite Hfirst.
  - intros second later Hfirst -> Hsecond.
    apply includes_In in Hsecond.
    unfold _analyzeFiles. now rewrite (Hno first Hfirst), Hsecond.
  - intros Hfirst Hsecond. unfold _analyzeFiles. rewrite (Hno first Hfirst).
    destruct rest as [|second later]; [reflexivity|].
    now rewrite (Hno second (Hsecond second later eq_refl)).
Qed.

Lemma analyzeFiles_roles_witness :
  _analyzeFiles sampleFs ["tinker"; "x.bin"]
  = {| files := []; deviceIdOrName := None; knownApp := Some "tinker" |}
  /\ _analyzeFiles sampleFs ["e00fce68f15867a3c4762226"; "tinker"; "x.bin"]
     = {| files := []; deviceIdOrName := Some "e00fce68f15867a3c4762226";
          knownApp := Some "tinker" |}.
Proof.
  split.
  - apply (proj1 (proj2 (analyzeFiles_roles sampleFs "tinker" ["x.bin"]))).
    simpl. auto.
  - apply (proj1 (proj2 (proj2 (analyzeFiles_roles sampleFs
                                  "e00fce68f15867a3c4762226"
                                  ["tinker"; "x.bin"])))
             "tinker" ["x.bin"]).
    + simpl. intros [H|[H|[]]]; discriminate.
    + reflexivity.
    + simpl. auto.
Defined.

Lemma setAdd_In (b : string) (s : list string) (x : string) :
  In b (setAdd s x) <-> In b s \/ b = x.
Proof.
  unfold setAdd. destruct (includes x s) eqn:Hx.
  - split; [auto|]. intros [H| ->]; [exact H|now apply includes_In].
  - rewrite in_app_iff. simpl. intuition congruence.
Qed.

Lemma setAdd_NoDup (s : list string) (x : string) :
  NoDup s -> NoDup (setAdd s x).
Proof.
  intros Hs. unfold setAdd. destruct (includes x s) eqn:Hx; [exact Hs|].
  apply (Permutation_NoDup (Permutation_cons_append s x)).
  constructor; [|exact Hs].
  intros Hin. apply includes_In in Hin. congruence.
Qed.

Lemma fold_setAdd_In (b : string) (found : list string) :
  forall s, In b (fold_left setAdd found s) <-> In b s \/ In b found.
Proof.
  induction found as [|x rest IH]; intros s; simpl; [tauto|].
  rewrite IH, setAdd_In. intuition congruence.
Qed.

Lemma fold_setAdd_NoDup (found : list string) :
  forall s, NoDup s -> NoDup (fold_left setAdd found s).
Proof.
  induction found as [|x rest IH]; intros s Hs; simpl; [exact Hs|].
  apply IH. now apply setAdd_NoDup.
Qed.

Lemma findLoop_members (fs : FileSystem) (parsedFiles : list string) :
  forall acc binaries,
    NoDup acc ->
    findLoop fs parsedFiles acc = Ok binaries ->
    NoDup binaries
    /\ forall b,
         In b binaries
         <-> In b acc
             \/ exists filePath found,
                  In filePath parsedFiles
                  /\ binariesAt fs filePath = Some found
                  /\ In b found.
Proof.
  induction parsedFiles as [|f rest IH]; intros acc binaries Hacc Hrun.
  - simpl in Hrun. inversion Hrun; subst. split; [exact Hacc|].
    intros b. split; [auto|]. intros [H|[x [fd [[] _]]]]. exact H.
  - simpl in Hrun.
    assert (Hstep : exists found,
              binariesAt fs f = Some found
              /\ findLoop fs rest (fold_left setAdd found acc) = Ok binaries).
    { unfold binariesAt. destruct (stat fs f) as [st|]; [|discriminate].
      destruct (isDirectory st).
      - destruct (globBinaries fs f) as [found|e]; [|discriminate].
        now exists found.
      - exists [f]. auto. }
    destruct Hstep as [found [Hat Hrest]].
    destruct (IH _ _ (fold_setAdd_NoDup found acc Hacc) Hrest) as [Hnd Hin].
    split; [exact Hnd|]. intros b. rewrite Hin, fold_setAdd_In. split.
    + intros [[H|H]|[x [fd [Hx [Hfd Hb]]]]].
      * now left.
      * right. exists f, found. simpl. auto.
      * right. exists x, fd. simpl. auto.
    + intros [H|[x [fd [[<-|Hx] [Hfd Hb]]]]].
      * auto.
      * left. right. congruence.
      * right. exists x, fd. auto.
Qed.

(** X23. What [_findBinaries] returns holds no path twice, and holds exactly
    the paths named that are not directories and the binaries found in the
    directories named. *)
Theorem findBinaries_members
    (fs : FileSystem) (parsedFiles binaries : list string) :
  _findBinaries fs parsedFiles = Ok binaries ->
  NoDup binaries
  /\ forall b,
       In b binaries
       <-> exists filePath found,
             In filePath parsedFiles
             /\ binariesAt fs filePath = Some found
             /\ In b found.
Proof.
  intros Hrun.
  destruct (findLoop_members fs parsedFiles [] binaries (NoDup_nil _) Hrun)
    as [Hnd Hin].
  split; [exact Hnd|]. intros b. rewrite Hin. split.
  - intros [[]|H]. exact H.
  - intros H. now right.
Qed.

Lemma findLoop_first_missing (fs : FileSystem) (parsedFiles : list string) :
  forall acc,
    match find (unreadable fs) parsedFiles with
    | Some missing => findLoop fs parsedFiles acc = Throw (notFound missing)
    | None => exists binaries, findLoop fs parsedFiles acc = Ok binaries
    end.
Proof.
  induction parsedFiles as [|f rest IH]; intros acc; simpl.
  - now exists acc.
  - unfold unreadable at 1. unfold binariesAt.
    destruct (stat fs f) as [st|]; [|reflexivity].
    destruct (isDirectory st); [|apply IH].
    destruct (globBinaries fs f) as [found|e]; [apply IH|reflexivity].
Qed.

(** X24. [_findBinaries] fails exactly when one of the paths named cannot be
    read (it is missing, or the search of the directory fails), and the error
    then names the first such path; binaries gathered before it are lost. *)
Theorem findBinaries_first_missing
    (fs : FileSystem) (parsedFiles : list string) :
  match find (unreadable fs) parsedFiles with
  | Some missing =>
      _findBinaries fs parsedFiles
      = Throw (Error ("I couldn't find that: " ++ missing))
  | None => exists binaries, _findBinaries fs parsedFiles = Ok binaries
  end.
Proof.
  unfold _findBinaries.
  pose proof (findLoop_first_missing fs parsedFiles []) as H.
  destruct (find (unreadable fs) parsedFiles); exact H.
Qed.

Lemma findBinaries_members_witness :
  NoDup ["fw/tinker.bin"; "fw/bootloader.bin"].
Proof.
  exact (proj1 (findBinaries_members sampleFs ["fw/tinker.bin"; "fw"]
                  ["fw/tinker.bin"; "fw/bootloader.bin"] eq_refl)).
Defined.

(** X25. [_processBundle] touches bundles only: a list that names no [.zip]
    file comes back as it is, whatever the extractor would do, and in any
    list that is processed every file that is not a bundle is still there. *)
Theorem processBundle_keeps_plain_files
    (fs : FileSystem) (filesToFlash : list string) :
  (forallb (fun file => negb (extname fs file =? ".zip")%string) filesToFlash
   = true ->
   _processBundle fs filesToFlash = Ok filesToFlash)
  /\ (forall processed file,
        _processBundle fs filesToFlash = Ok processed ->
        In file filesToFlash ->
        extname fs file <> ".zip" ->
        In file processed).
Proof.
  split.
  - induction filesToFlash as [|f rest IH]; [reflexivity|].
    simpl. intros H. apply andb_true_iff in H. destruct H as [Hf Hrest].
    apply negb_true_iff in Hf. rewrite Hf. simpl.
    now rewrite (IH Hrest).
  - induction filesToFlash as [|f rest IH]; intros processed file Hrun Hin Hext;
      [contradiction|].
    simpl in Hrun.
    destruct (if (extname fs f =? ".zip")%string
              then extractModulesFromBundle fs f else Ok [f])
      as [expanded|e] eqn:Hf; simpl in Hrun; [|discriminate].
    destruct (_processBundle fs rest) as [others|e]; simpl in Hrun;
      [|discriminate].
    inversion Hrun; subst processed. apply in_or_app.
    destruct Hin as [<-|Hin].
    + left. apply String.eqb_neq in Hext. rewrite Hext in Hf.
      inversion Hf. now left.
    + right. now apply (IH others file).
Qed.

Lemma processBundle_keeps_plain_files_witness :
  _processBundle sampleFs ["fw/tinker.bin"; "fw/bootloader.bin"]
  = Ok ["fw/tinker.bin"; "fw/bootloader.bin"].
Proof.
  apply (proj1 (processBundle_keeps_plain_files sampleFs
                  ["fw/tinker.bin"; "fw/bootloader.bin"])).
  reflexivity.
Defined.

Lemma prepareFromDisk_flag (fs : FileSystem) (parsedFiles : list string)
    (platformId : Z) (target : option string) (p : Prepared) :
  prepareFromDisk fs parsedFiles platformId target = Ok p ->
  skipDeviceOSFlash p = false.
Proof.
  unfold prepareFromDisk.
  assert (Hb : forall r : result (list string),
            (binaries <-? r ;;
             Ok {| skipDeviceOSFlash := false; filesToFlash := binaries |})
            = Ok p -> skipDeviceOSFlash p = false).
  { intros [l|e] H; simpl in H; [|discriminate]. now inversion H. }
  destruct parsedFiles as [|filePath rest]; [discriminate|].
  destruct (stat fs filePath) as [st|].
  - destruct (isDirectory st).
    + destruct (globBinaries fs filePath) as [bs|e]; simpl; [|discriminate].
      destruct (globSources fs filePath) as [ss|e]; simpl; [|discriminate].
      destruct ((0 <? List.length bs)%nat && (List.length ss =? 0)%nat);
        [apply Hb|].
      destruct (0 <? List.length ss)%nat; [apply Hb|discriminate].
    + destruct (includes (extname fs filePath) (binaryExtensions fs));
        apply Hb.
  - destruct (includes (extname fs filePath) (binaryExtensions fs));
      apply Hb.
Qed.

(** X26. [_prepareFilesToFlash] asks to skip the base firmware exactly when
    a known application is flashed.  Then the one file is the path of that
    application for the platform, and the paths given are not looked at; in
    every other case the flag is off. *)
Theorem prepareFilesToFlash_skip_flag
    (fs : FileSystem) (host : Host) (app : option string)
    (parsedFiles : list string) (platformId : Z) (platformName : string)
    (target : option string) (p : Prepared) :
  _prepareFilesToFlash fs host app parsedFiles platformId platformName target
  = Ok p ->
  match whenTruthy app with
  | Some appName =>
      skipDeviceOSFlash p = true
      /\ exists knownAppPath,
           knownAppsForPlatform host platformName appName = Some knownAppPath
           /\ filesToFlash p = [knownAppPath]
  | None => skipDeviceOSFlash p = false
  end.
Proof.
  unfold _prepareFilesToFlash. intros Hrun.
  destruct (whenTruthy app) as [appName|].
  - destruct (knownAppsForPlatform host platformName appName) as [path|];
      simpl in Hrun; [|discriminate].
    destruct (path =? "")%string; [discriminate|].
    inversion Hrun; subst p. simpl. split; [reflexivity|].
    now exists path.
  - exact (prepareFromDisk_flag fs parsedFiles platformId target p Hrun).
Qed.

Lemma prepareFilesToFlash_skip_flag_witness :
  skipDeviceOSFlash
    {| skipDeviceOSFlash := true; filesToFlash := ["fw/tinker.bin"] |}
  = true.
Proof.
  exact (proj1 (prepareFilesToFlash_skip_flag sampleFs sampleHost
                  (Some "tinker") ["ignored.ino"] 12 "argon" None
                  {| skipDeviceOSFlash := true;
                     filesToFlash := ["fw/tinker.bin"] |} eq_refl)).
Defined.

(** X27. A local flash that names a device and nothing else has nothing to
    flash, and does not fall back on the current directory: the one argument,
    being neither a known application nor a path on disk, is taken for the
    device, no file is left, and [_prepareFilesToFlash] throws a TypeError on
    the missing path. *)
Theorem device_alone_is_no_flash
    (fs : FileSystem) (host : Host) (device : string) (platformId : Z)
    (platformName : string) (target : option string) :
  includes device (knownAppNames fs) = false ->
  stat fs device = None ->
  let a := _analyzeFiles fs [device] in
  deviceIdOrName a = Some device
  /\ files a = []
  /\ _prepareFilesToFlash fs host (knownApp a) (files a) platformId
       platformName target
     = Throw (TypeError "path.extname").
Proof.
  intros Happ Hstat. cbv zeta. unfold _analyzeFiles.
  rewrite Happ, Hstat. simpl. auto.
Qed.

Lemma device_alone_is_no_flash_witness :
  _prepareFilesToFlash sampleFs sampleHost
    (knownApp (_analyzeFiles sampleFs ["e00fce68f15867a3c4762226"]))
    (files (_analyzeFiles sampleFs ["e00fce68f15867a3c4762226"]))
    12 "argon" None
  = Throw (TypeError "path.extname").
Proof.
  exact (proj2 (proj2 (device_alone_is_no_flash sampleFs sampleHost
                         "e00fce68f15867a3c4762226" 12 "argon" None
                         eq_refl eq_refl))).
Defined.

(** ** What a local flash never writes *)

Lemma bulkBucket_origin (env : PlannerEnv) (platform : Platform)
    (sorted : list ParsedModule) (s : FlashStep) :
  In s (bulkBucket env platform sorted) ->
  moduleInfo s = None
  \/ exists m, In m sorted /\ s = bulkStep env m.
Proof.
  unfold bulkBucket. rewrite in_flat_map.
  intros [m [Hm Hs]]. apply filter_In in Hm. destruct Hm as [Hm _].
  unfold bulkSteps in Hs.
  destruct (formerUserPart platform) as [seg|];
    [destruct (guardsLegacyRegion env platform m)|]; simpl in Hs.
  - destruct Hs as [<-|[<-|[]]]; [now left|right; eauto].
  - destruct Hs as [<-|[]]. right. eauto.
  - destruct Hs as [<-|[]]. right. eauto.
Qed.

Lemma normalSteps_origin (env : PlannerEnv) (f : ParsedModule -> bool)
    (sorted : list ParsedModule) (s : FlashStep) :
  In s (map (normalStep env) (filter f sorted)) ->
  exists m, In m sorted /\ s = normalStep env m.
Proof.
  rewrite in_map_iff. intros [m [<- Hm]].
  apply filter_In in Hm. destruct Hm as [Hm _]. eauto.
Qed.

(** Every step of a plan that was made from a module was made from one of
    the sorted modules, and carries its prefix. *)
Lemma plan_step_origin (env : PlannerEnv) (modules : list ParsedModule)
    (isInDfuMode : bool) (platformId : Z) (steps : list FlashStep)
    (s : FlashStep) (mi : StepModuleInfo) :
  createFlashSteps env modules isInDfuMode platformId = Ok steps ->
  In s steps ->
  moduleInfo s = Some mi ->
  exists m,
    In m (sortBinariesByDependency env modules)
    /\ smi_prefixInfo mi = prefixInfo m.
Proof.
  intros Hplan Hin Hmi.
  destruct (createFlashSteps_ok_inv env modules isInDfuMode platformId steps
              Hplan) as [[platform [_ [_ Hsteps]]]|[_ [_ Hsteps]]];
    [|subst steps; contradiction].
  assert (Hcases :
            In s (bulkBucket env platform
                    (sortBinariesByDependency env modules))
            \/ In s (normalBucket env platform
                       (sortBinariesByDependency env modules))
            \/ In s (assetBucket env
                       (sortBinariesByDependency env modules))).
  { subst steps. destruct isInDfuMode;
      repeat (apply in_app_or in Hin; destruct Hin as [Hin|Hin]); auto. }
  destruct Hcases as [Hb|[Hn|Ha]].
  - destruct (bulkBucket_origin _ _ _ _ Hb) as [Hnone|[m [Hm ->]]];
      [congruence|].
    exists m. split; [exact Hm|]. simpl in Hmi. now inversion Hmi.
  - destruct (normalSteps_origin _ _ _ _ Hn) as [m [Hm ->]].
    exists m. split; [exact Hm|]. simpl in Hmi. now inversion Hmi.
  - destruct (normalSteps_origin _ _ _ _ Ha) as [m [Hm ->]].
    exists m. split; [exact Hm|]. simpl in Hmi. now inversion Hmi.
Qed.

(** X28. A plan made from what the filter keeps without the override, as in
    a local flash, writes no radio stack and no firmware of the network
    coprocessor, provided the dependency sort returns only modules it was
    given. *)
Theorem local_plan_has_no_coprocessor_firmware
    (env : PlannerEnv) (modules : list ParsedModule) (platformId : Z)
    (isInDfuMode : bool) (kept : list ParsedModule) (steps : list FlashStep) :
  (forall l m, In m (sortBinariesByDependency env l) -> In m l) ->
  filterModulesToFlash env modules platformId false = Ok kept ->
  createFlashSteps env kept isInDfuMode platformId = Ok steps ->
  forall s mi,
    In s steps ->
    moduleInfo s = Some mi ->
    moduleFunction (smi_prefixInfo mi) <> RADIO_STACK
    /\ moduleFunction (smi_prefixInfo mi) <> NCP_FIRMWARE.
Proof.
  intros Hsort Hfilter Hplan s mi Hin Hmi.
  destruct (plan_step_origin env kept isInDfuMode platformId steps s mi
              Hplan Hin Hmi) as [m [Hm Hprefix]].
  apply Hsort in Hm. rewrite Hprefix.
  unfold filterModulesToFlash in Hfilter.
  rewrite filterLoop_allowAll in Hfilter.
  destruct (filterLoop env (findPlatform env platformId) true modules [])
    as [all|e]; simpl in Hfilter; [|discriminate].
  inversion Hfilter; subst kept.
  apply filter_In in Hm. destruct Hm as [_ Hm].
  unfold notCoprocessor, radioStackModule, ncpFirmwareModule in Hm.
  apply andb_true_iff in Hm.
  destruct Hm as [Hr Hn].
  split; intros Heq; rewrite Heq in *; discriminate.
Qed.

Lemma local_plan_has_no_coprocessor_firmware_witness :
  moduleFunction (prefixInfo tinker) <> RADIO_STACK
  /\ moduleFunction (prefixInfo tinker) <> NCP_FIRMWARE.
Proof.
  apply (local_plan_has_no_coprocessor_firmware sampleEnv [tinker; ncp0] 12
           false [tinker] localPlan (fun l m H => H) eq_refl eq_refl
           (bulkStep sampleEnv tinker)
           {| smi_crc := crc tinker; smi_prefixInfo := prefixInfo tinker;
              smi_suffixInfo := suffixInfo tinker |}).
  - vm_compute. auto.
  - reflexivity.
Defined.

(** ** The calls of a local flash and of an update *)

Lemma cleanupLast_nil : cleanupLast [].
Proof. exists [], []. auto. Qed.

Lemma makes_silent_bind {A B : Type} (P : list Call -> Prop) (m : M A)
    (k : A -> M B) :
  (forall w, calls (snd (m w)) = calls w) ->
  P [] ->
  (forall a, makes P (k a)) ->
  makes P (bind m k).
Proof.
  intros Hm Hnil Hk w. unfold bind. specialize (Hm w).
  destruct (m w) as [[a|e] w1]; simpl in Hm.
  - destruct (Hk a w1) as [cs [Hcs HP]]. exists cs. now rewrite Hcs, Hm.
  - exists []. simpl. now rewrite Hm, app_nil_r.
Qed.

Lemma makes_bind_silent {A B : Type} (P : list Call -> Prop) (m : M A)
    (k : A -> M B) :
  makes P m ->
  (forall a w, calls (snd (k a w)) = calls w) ->
  makes P (bind m k).
Proof.
  intros Hm Hk w. unfold bind. destruct (Hm w) as [cs [Hcs HP]].
  destruct (m w) as [[a|e] w1]; simpl in Hcs.
  - exists cs. now rewrite Hk, Hcs.
  - exists cs. auto.
Qed.

Lemma emits_none_silent {A : Type} (m : M A) :
  emits (fun _ => false) m -> forall w, calls (snd (m w)) = calls w.
Proof.
  intros Hm w. destruct (Hm w) as [cs [Hcs HP]].
  destruct cs as [|c rest]; [now rewrite Hcs, app_nil_r|discriminate].
Qed.

Lemma getOneUsbDevice_searches (host : Host) (w : World) :
  calls (snd (getOneUsbDevice host w)) = calls w ++ [GetOneUsbDevice].
Proof.
  unfold getOneUsbDevice, bind, call, settle, openHandle, ret, throw.
  destruct (script w) as [|[r|r] rest]; reflexivity.
Qed.

(** With [resetAfterFlash], the calls of [flashFiles] end with the cleanup,
    and hold no reset or close before it. *)
Lemma flashFiles_makes (flashSteps : list FlashStep) (isInteractive : bool)
    (device : Device) :
  makes cleanupLast (flashFiles flashSteps isInteractive device true).
Proof.
  intros w. unfold flashFiles.
  set (w0 := setProgress w (_createFlashProgress flashSteps isInteractive)).
  destruct (flashLoop_no_cleanup flashSteps isInteractive flashSteps device w0)
    as [cs [Hcs HP]].
  destruct (flashLoop flashSteps isInteractive device flashSteps w0)
    as [[failure held] w1]. simpl in Hcs.
  pose proof (flashCleanup_calls flashSteps isInteractive held true w1)
    as Hclean.
  exists (cs ++ cleanupCalls (isOpen (handleState w1 (handle held))) true
                  (handle held)).
  split.
  - destruct (flashCleanup flashSteps isInteractive held true w1)
      as [[u|e] w2]; simpl in Hclean |- *;
      rewrite Hclean, Hcs; now rewrite <- app_assoc.
  - exists cs, (cleanupCalls (isOpen (handleState w1 (handle held))) true
                  (handle held)).
    split; [reflexivity|]. split; [exact HP|].
    unfold cleanupCalls.
    destruct (isOpen (handleState w1 (handle held))); [right|now left].
    now exists (handle held).
Qed.

Section CommandCalls.

Variable env : PlannerEnv.
Variable fs : FileSystem.
Variable host : Host.
Variable api : Catalog.
Variable isInteractive : bool.

Lemma flashLocalFiles_searches (args : list string) (target : option string)
    (w : World) :
  calls (snd (flashLocalFiles fs host args target w))
  = calls w ++ [GetOneUsbDevice].
Proof.
  unfold flashLocalFiles. cbv zeta. unfold bind at 1.
  pose proof (getOneUsbDevice_searches host w) as Hget.
  destruct (getOneUsbDevice host w) as [[device|e] w1]; simpl in Hget;
    [|exact Hget].
  rewrite <- Hget. apply emits_none_silent. repeat emits_step.
Qed.

Lemma flashLocalModules_makes (device : Device)
    (fileModules : list ParsedModule) (binaries : result (list string)) :
  makes cleanupLast
    (flashLocalModules env host isInteractive device fileModules binaries).
Proof.
  unfold flashLocalModules.
  repeat (apply makes_silent_bind;
          [intros w; reflexivity|apply cleanupLast_nil|intros ?]).
  apply flashFiles_makes.
Qed.

Lemma updateDeviceFind_searches (idOrName : option string) (v : string)
    (w : World) :
  calls (snd (updateDeviceFind host idOrName v w))
  = calls w ++ [GetOneUsbDevice].
Proof.
  unfold updateDeviceFind. unfold bind at 1.
  pose proof (getOneUsbDevice_searches host w) as Hget.
  destruct (getOneUsbDevice host w) as [[device|e] w1]; simpl in Hget;
    [|exact Hget].
  rewrite <- Hget. apply emits_none_silent. repeat emits_step.
Qed.

Lemma updateDeviceModules_makes (device : Device)
    (binaries : result (list string)) :
  makes cleanupLast
    (updateDeviceModules env host isInteractive device binaries).
Proof.
  unfold updateDeviceModules.
  repeat (apply makes_silent_bind;
          [intros w; reflexivity|apply cleanupLast_nil|intros ?]).
  apply makes_bind_silent; [apply flashFiles_makes|].
  intros u w. reflexivity.
Qed.

End CommandCalls.

(** X29. Whatever happens, a local flash begins with the search for the
    device and closes a device object at most once, as the last thing it
    does, right after the one reset; nothing but the cleanup of [flashFiles]
    ever resets or closes.  A failure up to the validation of the files named
    (no device, no file, a file that does not parse, a module that fails
    validation) is raised as it is, with no request sent to the catalog and
    no call made but the search: a device that was found is left open. *)
Theorem flashLocal_calls
    (env : PlannerEnv) (fs : FileSystem) (host : Host) (api : Catalog)
    (isInteractive : bool) (args : list string) (applicationOnly : bool)
    (target : option string) (w : World) :
  let '((r, log), w') :=
    flashLocal env fs host api isInteractive args applicationOnly target w in
  (exists cs, calls w' = calls w ++ cs /\ searchThenFlash cs)
  /\ (forall e,
        fst (flashLocalFiles fs host args target w) = Throw e ->
        r = Throw e /\ log = [] /\ calls w' = calls w ++ [GetOneUsbDevice]).
Proof.
  unfold flashLocal.
  pose proof (flashLocalFiles_searches fs host args target w) as Hsearch.
  destruct (flashLocalFiles fs host args target w)
    as [[[[device skip] fileModules]|e] w1]; simpl in Hsearch.
  - destruct (_getDeviceOsBinaries api skip target fileModules
                (firmwareVersion device) (devicePlatformId device)
                applicationOnly) as [binaries log].
    destruct (flashLocalModules_makes env host isInteractive device
                fileModules binaries w1) as [cs [Hcs Hshape]].
    destruct (flashLocalModules env host isInteractive device fileModules
                binaries w1) as [r w2]. simpl in Hcs.
    split; [|discriminate].
    exists (GetOneUsbDevice :: cs). split.
    + rewrite Hcs, Hsearch, <- app_assoc. reflexivity.
    + now exists cs.
  - split.
    + exists [GetOneUsbDevice]. split; [exact Hsearch|].
      exists []. split; [reflexivity|apply cleanupLast_nil].
    + intros e' He. simpl in He. inversion He; subst. auto.
Qed.

Lemma flashLocal_calls_witness :
  calls (snd (flashLocal sampleEnv sampleFs sampleHost onlineCatalog false
                ["fw/corrupt.bin"] false None (emptyWorld [])))
  = [GetOneUsbDevice].
Proof.
  pose proof (flashLocal_calls sampleEnv sampleFs sampleHost onlineCatalog
                false ["fw/corrupt.bin"] false None (emptyWorld [])) as H.
  destruct (flashLocal sampleEnv sampleFs sampleHost onlineCatalog false
              ["fw/corrupt.bin"] false None (emptyWorld []))
    as [[r log] w'].
  destruct H as [_ H].
  destruct (H notAFunction eq_refl) as [_ [_ Hcalls]].
  exact Hcalls.
Defined.

(** X30. [updateDevice] with a version that is not a valid one writes
    'Invalid version' and resolves, without looking for a device or asking
    the catalog for anything.  Otherwise it begins with the search for the
    device, asks the catalog for at most one thing, the binaries of the
    version given (or of 'latest') without the user part, and resets and
    closes only in the cleanup of [flashFiles], as a local flash does. *)
Theorem updateDevice_outcomes
    (env : PlannerEnv) (host : Host) (api : Catalog) (isInteractive : bool)
    (valid : string -> bool) (idOrName target : option string) (w : World) :
  let '((r, log), w') :=
    updateDevice env host api isInteractive valid idOrName target w in
  match whenTruthy target with
  | Some t =>
      valid t = false ->
      r = Ok tt /\ log = [] /\ calls w' = calls w
      /\ handles w' = handles w
      /\ written w' = written w ++ [("Invalid version: " ++ t)%string]
  | None => True
  end
  /\ (valid (updateVersion target) = true \/ whenTruthy target = None ->
      (log = []
       \/ exists platformId,
            log = [Download platformId (updateVersion target) true])
      /\ exists cs, calls w' = calls w ++ cs /\ searchThenFlash cs).
Proof.
  assert (Hto : forall v,
            let '((r, log), w') :=
              updateDeviceTo env host api isInteractive idOrName v w in
            (log = [] \/ exists platformId, log = [Download platformId v true])
            /\ exists cs, calls w' = calls w ++ cs /\ searchThenFlash cs).
  { intros v. unfold updateDeviceTo.
    pose proof (updateDeviceFind_searches host idOrName v w) as Hsearch.
    destruct (updateDeviceFind host idOrName v w) as [[device|e] w1];
      simpl in Hsearch.
    - unfold download. simpl.
      destruct (updateDeviceModules_makes env host isInteractive device
                  (downloadDeviceOsVersionBinaries api
                     (devicePlatformId device) v true) w1)
        as [cs [Hcs Hshape]].
      destruct (updateDeviceModules env host isInteractive device
                  (downloadDeviceOsVersionBinaries api
                     (devicePlatformId device) v true) w1) as [r w2].
      simpl in Hcs. split; [right; eauto|].
      exists (GetOneUsbDevice :: cs). split.
      + rewrite Hcs, Hsearch, <- app_assoc. reflexivity.
      + now exists cs.
    - split; [now left|].
      exists [GetOneUsbDevice]. split; [exact Hsearch|].
      exists []. split; [reflexivity|apply cleanupLast_nil]. }
  unfold updateDevice, updateVersion.
  destruct (whenTruthy target) as [t|].
  - destruct (valid t) eqn:Hvalid; simpl.
    + specialize (Hto t).
      destruct (updateDeviceTo env host api isInteractive idOrName t w)
        as [[r log] w'].
      split; [discriminate|]. intros _. exact Hto.
    + split; [intros _; auto|]. intros [H|H]; discriminate.
  - specialize (Hto "latest").
    destruct (updateDeviceTo env host api isInteractive idOrName "latest" w)
      as [[r log] w'].
    split; [exact I|]. intros _. exact Hto.
Qed.

Lemma updateDevice_outcomes_witness :
  written (snd (updateDevice sampleEnv sampleHost onlineCatalog false
                  (fun _ => false) None (Some "next") (emptyWorld [])))
  = ["Invalid version: next"].
Proof.
  pose proof (updateDevice_outcomes sampleEnv sampleHost onlineCatalog false
                (fun _ => false) None (Some "next") (emptyWorld [])) as H.
  destruct (updateDevice sampleEnv sampleHost onlineCatalog false
              (fun _ => false) None (Some "next") (emptyWorld []))
    as [[r log] w'].
  destruct H as [H _]. simpl in H.
  destruct (H eq_refl) as [_ [_ [_ [_ Hw]]]]. exact Hw.
Defined.

(** ** Validation and the device *)


Section ValidationFirst.

Variable env : PlannerEnv.
Variable fs : FileSystem.
Variable host : Host.
Variable api : Catalog.
Variable isInteractive : bool.




End ValidationFirst.



